(** * Terminal portfolio: the command interpreter of [src/app/page.tsx]

    A shallow embedding of the interpreter of the single-page terminal
    portfolio: [handleCommand], [onKeyDown], [print], [escapeHtml], the
    [useLocalStorage] hook and the theme effect, together with the JavaScript
    built-ins they call.

    Conventions of the embedding.
    - A JavaScript string is the list of its UTF-16 code units, each a
      number ([jstring]); a string literal is written between double quotes
      and stands for the code units of its text.  White space is the set
      [trim], [/\s/] and [parseInt] use (the ASCII controls TAB to CR, SPACE,
      NO-BREAK SPACE, the other space separators, the two line separators
      and the byte order mark); [toLowerCase] is the default case conversion
      of Unicode (version 14.0 of its database), by code point, with the
      final-sigma rule.
    - A JavaScript number that holds an integer is [Finite z]; a number read
      or computed is rounded to the nearest double, so that integers beyond
      2^53 are not all numbers, and it is printed the way [Number::toString]
      prints it (shortest digits, exponent form from 10^21 on).  Subtraction
      and multiplication of a page or project number are exact: JavaScript
      rounds them only beyond 2^53, past the length of any array.
    - An object literal is the list of its own properties; a property read
      and the [in] operator also see the names it inherits from
      [Object.prototype].
    - React state is a record; the state setters of one handler run are
      applied in program order.  Capability calls ([window.open], the
      clipboard) are recorded in a trace, and what the host answers
      (clipboard resolution, the UUIDs) is read from an environment.  A
      handler completes normally or throws; [handleCommand] is [async], so a
      throw is the rejection of its promise.
    - [localStorage] is a finite map from keys to texts; the effects of the
      [useLocalStorage] hooks write it after a render. *)

From Stdlib Require Import ZArith NArith Lia List Bool DecimalString DecimalPos
  Sorted.
From Stdlib.Strings Require Import Byte.
From stdpp Require Import base gmap.
Import ListNotations.
Open Scope list_scope.

(** ** Strings *)

(** A string: its UTF-16 code units. *)
Abbreviation jstring := (list N) (only parsing).

(** The shape of a string literal. *)
Inductive literal : Type :=
  | lit_nil
  | lit_cons (c : N) (l : literal).

(** The code points of a text in UTF-8.  [pending] counts the continuation
    bytes the current code point still needs and [acc] holds its bits so
    far. *)
Fixpoint utf8_code_points (bs : list byte) (pending : nat) (acc : N) : list N :=
  match bs with
  | [] => []
  | b :: bs' =>
      let n := Byte.to_N b in
      match pending with
      | O =>
          if (n <? 0x80)%N then n :: utf8_code_points bs' 0 0
          else if (n <? 0xE0)%N then utf8_code_points bs' 1 (n - 0xC0)
          else if (n <? 0xF0)%N then utf8_code_points bs' 2 (n - 0xE0)
          else utf8_code_points bs' 3 (n - 0xF0)
      | S O => (acc * 64 + (n - 0x80))%N :: utf8_code_points bs' 0 0
      | S k => utf8_code_points bs' k (acc * 64 + (n - 0x80))%N
      end
  end.

(** The UTF-16 code units of a code point: itself, or a surrogate pair. *)
Definition utf16 (cp : N) : jstring :=
  if (cp <? 0x10000)%N then [cp]
  else [ (0xD800 + (cp - 0x10000) / 0x400)%N;
         (0xDC00 + (cp - 0x10000) mod 0x400)%N ].

Fixpoint literal_of (s : jstring) : literal :=
  match s with
  | [] => lit_nil
  | c :: s' => lit_cons c (literal_of s')
  end.

Definition literal_parse (bs : list byte) : literal :=
  literal_of (List.concat (map utf16 (utf8_code_points bs 0 0))).

(** A literal is shown as text when it is ASCII. *)
Fixpoint literal_print (l : literal) : option (list byte) :=
  match l with
  | lit_nil => Some []
  | lit_cons c l' =>
      if (c <? 0x80)%N then
        match Byte.of_N c, literal_print l' with
        | Some b, Some bs => Some (b :: bs)
        | _, _ => None
        end
      else None
  end.

Declare Scope js_scope.
Delimit Scope js_scope with js.
#[local] Set Warnings "-via-type-mismatch,-via-type-remapping".
String Notation list literal_parse literal_print
  (via literal mapping [[nil] => lit_nil, [cons] => lit_cons]) : js_scope.
#[local] Set Warnings "via-type-mismatch,via-type-remapping".
Open Scope js_scope.

(** ** JavaScript built-ins *)

Module JS.

(** The double quote, which a literal cannot hold directly. *)
Definition dquote : N := 34.
Definition newline : N := 10.

(** [a === b] on strings. *)
Fixpoint eqb (a b : jstring) : bool :=
  match a, b with
  | [], [] => true
  | x :: a', y :: b' => (x =? y)%N && eqb a' b'
  | _, _ => false
  end.

(** White space: [WhiteSpace] and [LineTerminator] of the language, which is
    [\s] of a regular expression and what [trim] and [parseInt] skip. *)
Definition is_ws (c : N) : bool :=
  ((9 <=? c) && (c <=? 13) || (c =? 0x20) || (c =? 0xA0) || (c =? 0x1680)
   || (0x2000 <=? c) && (c <=? 0x200A) || (c =? 0x2028) || (c =? 0x2029)
   || (c =? 0x202F) || (c =? 0x205F) || (c =? 0x3000) || (c =? 0xFEFF))%N.

Definition is_digit (c : N) : bool := ((48 <=? c) && (c <=? 57))%N.

Definition digit_val (c : N) : Z := Z.of_N c - 48.

Fixpoint trimStart (s : jstring) : jstring :=
  match s with
  | [] => []
  | c :: s' => if is_ws c then trimStart s' else s
  end.

Fixpoint trimEnd (s : jstring) : jstring :=
  match s with
  | [] => []
  | c :: s' =>
      let t := trimEnd s' in
      if is_ws c && eqb t "" then "" else c :: t
  end.

(** [s.trim()] *)
Definition trim (s : jstring) : jstring := trimEnd (trimStart s).

Definition starts_ws (s : jstring) : bool :=
  match s with
  | [] => false
  | c :: _ => is_ws c
  end.

(** [s.split(/\s+/)]: the pieces between the maximal runs of white space.
    A leading or trailing run leaves an empty piece, and the empty string
    splits into one empty piece. *)
Fixpoint split_ws (s : jstring) : list jstring :=
  match s with
  | [] => [""]
  | c :: s' =>
      if is_ws c then
        if starts_ws s' then split_ws s' else "" :: split_ws s'
      else
        match split_ws s' with
        | h :: t => (c :: h) :: t
        | [] => [[c]]
        end
  end.

(** [l.join(sep)] *)
Fixpoint join (sep : jstring) (l : list jstring) : jstring :=
  match l with
  | [] => ""
  | [x] => x
  | x :: l' => x ++ sep ++ join sep l'
  end.

(** *** Lower case *)

(** The simple lower-case mappings of the Unicode Character Database
    (version 14.0), without the two code points treated apart below: rows
    [(first, last, step, image of first)]; a code point [c] of a row, that
    is [first <= c <= last] at a multiple of [step] from [first],
    lower-cases to [image + (c - first)]. *)
Definition lower_table : list (N * N * N * N) :=
  [ (0x41, 0x5A, 1, 0x61); (0xC0, 0xD6, 1, 0xE0); (0xD8, 0xDE, 1, 0xF8);
    (0x100, 0x12E, 2, 0x101); (0x132, 0x136, 2, 0x133); (0x139, 0x147, 2, 0x13A);
    (0x14A, 0x176, 2, 0x14B); (0x178, 0x178, 1, 0xFF); (0x179, 0x17D, 2, 0x17A);
    (0x181, 0x181, 1, 0x253); (0x182, 0x184, 2, 0x183); (0x186, 0x186, 1, 0x254);
    (0x187, 0x187, 1, 0x188); (0x189, 0x18A, 1, 0x256); (0x18B, 0x18B, 1, 0x18C);
    (0x18E, 0x18E, 1, 0x1DD); (0x18F, 0x18F, 1, 0x259); (0x190, 0x190, 1, 0x25B);
    (0x191, 0x191, 1, 0x192); (0x193, 0x193, 1, 0x260); (0x194, 0x194, 1, 0x263);
    (0x196, 0x196, 1, 0x269); (0x197, 0x197, 1, 0x268); (0x198, 0x198, 1, 0x199);
    (0x19C, 0x19C, 1, 0x26F); (0x19D, 0x19D, 1, 0x272); (0x19F, 0x19F, 1, 0x275);
    (0x1A0, 0x1A4, 2, 0x1A1); (0x1A6, 0x1A6, 1, 0x280); (0x1A7, 0x1A7, 1, 0x1A8);
    (0x1A9, 0x1A9, 1, 0x283); (0x1AC, 0x1AC, 1, 0x1AD); (0x1AE, 0x1AE, 1, 0x288);
    (0x1AF, 0x1AF, 1, 0x1B0); (0x1B1, 0x1B2, 1, 0x28A); (0x1B3, 0x1B5, 2, 0x1B4);
    (0x1B7, 0x1B7, 1, 0x292); (0x1B8, 0x1B8, 1, 0x1B9); (0x1BC, 0x1BC, 1, 0x1BD);
    (0x1C4, 0x1C4, 1, 0x1C6); (0x1C5, 0x1C5, 1, 0x1C6); (0x1C7, 0x1C7, 1, 0x1C9);
    (0x1C8, 0x1C8, 1, 0x1C9); (0x1CA, 0x1CA, 1, 0x1CC); (0x1CB, 0x1DB, 2, 0x1CC);
    (0x1DE, 0x1EE, 2, 0x1DF); (0x1F1, 0x1F1, 1, 0x1F3); (0x1F2, 0x1F4, 2, 0x1F3);
    (0x1F6, 0x1F6, 1, 0x195); (0x1F7, 0x1F7, 1, 0x1BF); (0x1F8, 0x21E, 2, 0x1F9);
    (0x220, 0x220, 1, 0x19E); (0x222, 0x232, 2, 0x223); (0x23A, 0x23A, 1, 0x2C65);
    (0x23B, 0x23B, 1, 0x23C); (0x23D, 0x23D, 1, 0x19A); (0x23E, 0x23E, 1, 0x2C66);
    (0x241, 0x241, 1, 0x242); (0x243, 0x243, 1, 0x180); (0x244, 0x244, 1, 0x289);
    (0x245, 0x245, 1, 0x28C); (0x246, 0x24E, 2, 0x247); (0x370, 0x372, 2, 0x371);
    (0x376, 0x376, 1, 0x377); (0x37F, 0x37F, 1, 0x3F3); (0x386, 0x386, 1, 0x3AC);
    (0x388, 0x38A, 1, 0x3AD); (0x38C, 0x38C, 1, 0x3CC); (0x38E, 0x38F, 1, 0x3CD);
    (0x391, 0x3A1, 1, 0x3B1); (0x3A4, 0x3AB, 1, 0x3C4); (0x3CF, 0x3CF, 1, 0x3D7);
    (0x3D8, 0x3EE, 2, 0x3D9); (0x3F4, 0x3F4, 1, 0x3B8); (0x3F7, 0x3F7, 1, 0x3F8);
    (0x3F9, 0x3F9, 1, 0x3F2); (0x3FA, 0x3FA, 1, 0x3FB); (0x3FD, 0x3FF, 1, 0x37B);
    (0x400, 0x40F, 1, 0x450); (0x410, 0x42F, 1, 0x430); (0x460, 0x480, 2, 0x461);
    (0x48A, 0x4BE, 2, 0x48B); (0x4C0, 0x4C0, 1, 0x4CF); (0x4C1, 0x4CD, 2, 0x4C2);
    (0x4D0, 0x52E, 2, 0x4D1); (0x531, 0x556, 1, 0x561); (0x10A0, 0x10C5, 1, 0x2D00);
    (0x10C7, 0x10C7, 1, 0x2D27); (0x10CD, 0x10CD, 1, 0x2D2D); (0x13A0, 0x13EF, 1, 0xAB70);
    (0x13F0, 0x13F5, 1, 0x13F8); (0x1C90, 0x1CBA, 1, 0x10D0); (0x1CBD, 0x1CBF, 1, 0x10FD);
    (0x1E00, 0x1E94, 2, 0x1E01); (0x1E9E, 0x1E9E, 1, 0xDF); (0x1EA0, 0x1EFE, 2, 0x1EA1);
    (0x1F08, 0x1F0F, 1, 0x1F00); (0x1F18, 0x1F1D, 1, 0x1F10); (0x1F28, 0x1F2F, 1, 0x1F20);
    (0x1F38, 0x1F3F, 1, 0x1F30); (0x1F48, 0x1F4D, 1, 0x1F40); (0x1F59, 0x1F5F, 2, 0x1F51);
    (0x1F68, 0x1F6F, 1, 0x1F60); (0x1F88, 0x1F8F, 1, 0x1F80); (0x1F98, 0x1F9F, 1, 0x1F90);
    (0x1FA8, 0x1FAF, 1, 0x1FA0); (0x1FB8, 0x1FB9, 1, 0x1FB0); (0x1FBA, 0x1FBB, 1, 0x1F70);
    (0x1FBC, 0x1FBC, 1, 0x1FB3); (0x1FC8, 0x1FCB, 1, 0x1F72); (0x1FCC, 0x1FCC, 1, 0x1FC3);
    (0x1FD8, 0x1FD9, 1, 0x1FD0); (0x1FDA, 0x1FDB, 1, 0x1F76); (0x1FE8, 0x1FE9, 1, 0x1FE0);
    (0x1FEA, 0x1FEB, 1, 0x1F7A); (0x1FEC, 0x1FEC, 1, 0x1FE5); (0x1FF8, 0x1FF9, 1, 0x1F78);
    (0x1FFA, 0x1FFB, 1, 0x1F7C); (0x1FFC, 0x1FFC, 1, 0x1FF3); (0x2126, 0x2126, 1, 0x3C9);
    (0x212A, 0x212A, 1, 0x6B); (0x212B, 0x212B, 1, 0xE5); (0x2132, 0x2132, 1, 0x214E);
    (0x2160, 0x216F, 1, 0x2170); (0x2183, 0x2183, 1, 0x2184); (0x24B6, 0x24CF, 1, 0x24D0);
    (0x2C00, 0x2C2F, 1, 0x2C30); (0x2C60, 0x2C60, 1, 0x2C61); (0x2C62, 0x2C62, 1, 0x26B);
    (0x2C63, 0x2C63, 1, 0x1D7D); (0x2C64, 0x2C64, 1, 0x27D); (0x2C67, 0x2C6B, 2, 0x2C68);
    (0x2C6D, 0x2C6D, 1, 0x251); (0x2C6E, 0x2C6E, 1, 0x271); (0x2C6F, 0x2C6F, 1, 0x250);
    (0x2C70, 0x2C70, 1, 0x252); (0x2C72, 0x2C72, 1, 0x2C73); (0x2C75, 0x2C75, 1, 0x2C76);
    (0x2C7E, 0x2C7F, 1, 0x23F); (0x2C80, 0x2CE2, 2, 0x2C81); (0x2CEB, 0x2CED, 2, 0x2CEC);
    (0x2CF2, 0x2CF2, 1, 0x2CF3); (0xA640, 0xA66C, 2, 0xA641); (0xA680, 0xA69A, 2, 0xA681);
    (0xA722, 0xA72E, 2, 0xA723); (0xA732, 0xA76E, 2, 0xA733); (0xA779, 0xA77B, 2, 0xA77A);
    (0xA77D, 0xA77D, 1, 0x1D79); (0xA77E, 0xA786, 2, 0xA77F); (0xA78B, 0xA78B, 1, 0xA78C);
    (0xA78D, 0xA78D, 1, 0x265); (0xA790, 0xA792, 2, 0xA791); (0xA796, 0xA7A8, 2, 0xA797);
    (0xA7AA, 0xA7AA, 1, 0x266); (0xA7AB, 0xA7AB, 1, 0x25C); (0xA7AC, 0xA7AC, 1, 0x261);
    (0xA7AD, 0xA7AD, 1, 0x26C); (0xA7AE, 0xA7AE, 1, 0x26A); (0xA7B0, 0xA7B0, 1, 0x29E);
    (0xA7B1, 0xA7B1, 1, 0x287); (0xA7B2, 0xA7B2, 1, 0x29D); (0xA7B3, 0xA7B3, 1, 0xAB53);
    (0xA7B4, 0xA7C2, 2, 0xA7B5); (0xA7C4, 0xA7C4, 1, 0xA794); (0xA7C5, 0xA7C5, 1, 0x282);
    (0xA7C6, 0xA7C6, 1, 0x1D8E); (0xA7C7, 0xA7C9, 2, 0xA7C8); (0xA7D0, 0xA7D0, 1, 0xA7D1);
    (0xA7D6, 0xA7D8, 2, 0xA7D7); (0xA7F5, 0xA7F5, 1, 0xA7F6); (0xFF21, 0xFF3A, 1, 0xFF41);
    (0x10400, 0x10427, 1, 0x10428); (0x104B0, 0x104D3, 1, 0x104D8); (0x10570, 0x1057A, 1, 0x10597);
    (0x1057C, 0x1058A, 1, 0x105A3); (0x1058C, 0x10592, 1, 0x105B3); (0x10594, 0x10595, 1, 0x105BB);
    (0x10C80, 0x10CB2, 1, 0x10CC0); (0x118A0, 0x118BF, 1, 0x118C0); (0x16E40, 0x16E5F, 1, 0x16E60);
    (0x1E900, 0x1E921, 1, 0x1E922) ]%N.

(** The code points with the property [Case_Ignorable], as ranges
    [(first, last)]. *)
Definition case_ignorable_table : list (N * N) :=
  [ (0x27, 0x27); (0x2E, 0x2E); (0x3A, 0x3A); (0x5E, 0x5E);
    (0x60, 0x60); (0xA8, 0xA8); (0xAD, 0xAD); (0xAF, 0xAF);
    (0xB4, 0xB4); (0xB7, 0xB8); (0x2B0, 0x36F); (0x374, 0x375);
    (0x37A, 0x37A); (0x384, 0x385); (0x387, 0x387); (0x483, 0x489);
    (0x559, 0x559); (0x55F, 0x55F); (0x591, 0x5BD); (0x5BF, 0x5BF);
    (0x5C1, 0x5C2); (0x5C4, 0x5C5); (0x5C7, 0x5C7); (0x5F4, 0x5F4);
    (0x600, 0x605); (0x610, 0x61A); (0x61C, 0x61C); (0x640, 0x640);
    (0x64B, 0x65F); (0x670, 0x670); (0x6D6, 0x6DD); (0x6DF, 0x6E8);
    (0x6EA, 0x6ED); (0x70F, 0x70F); (0x711, 0x711); (0x730, 0x74A);
    (0x7A6, 0x7B0); (0x7EB, 0x7F5); (0x7FA, 0x7FA); (0x7FD, 0x7FD);
    (0x816, 0x82D); (0x859, 0x85B); (0x888, 0x888); (0x890, 0x891);
    (0x898, 0x89F); (0x8C9, 0x902); (0x93A, 0x93A); (0x93C, 0x93C);
    (0x941, 0x948); (0x94D, 0x94D); (0x951, 0x957); (0x962, 0x963);
    (0x971, 0x971); (0x981, 0x981); (0x9BC, 0x9BC); (0x9C1, 0x9C4);
    (0x9CD, 0x9CD); (0x9E2, 0x9E3); (0x9FE, 0x9FE); (0xA01, 0xA02);
    (0xA3C, 0xA3C); (0xA41, 0xA42); (0xA47, 0xA48); (0xA4B, 0xA4D);
    (0xA51, 0xA51); (0xA70, 0xA71); (0xA75, 0xA75); (0xA81, 0xA82);
    (0xABC, 0xABC); (0xAC1, 0xAC5); (0xAC7, 0xAC8); (0xACD, 0xACD);
    (0xAE2, 0xAE3); (0xAFA, 0xAFF); (0xB01, 0xB01); (0xB3C, 0xB3C);
    (0xB3F, 0xB3F); (0xB41, 0xB44); (0xB4D, 0xB4D); (0xB55, 0xB56);
    (0xB62, 0xB63); (0xB82, 0xB82); (0xBC0, 0xBC0); (0xBCD, 0xBCD);
    (0xC00, 0xC00); (0xC04, 0xC04); (0xC3C, 0xC3C); (0xC3E, 0xC40);
    (0xC46, 0xC48); (0xC4A, 0xC4D); (0xC55, 0xC56); (0xC62, 0xC63);
    (0xC81, 0xC81); (0xCBC, 0xCBC); (0xCBF, 0xCBF); (0xCC6, 0xCC6);
    (0xCCC, 0xCCD); (0xCE2, 0xCE3); (0xD00, 0xD01); (0xD3B, 0xD3C);
    (0xD41, 0xD44); (0xD4D, 0xD4D); (0xD62, 0xD63); (0xD81, 0xD81);
    (0xDCA, 0xDCA); (0xDD2, 0xDD4); (0xDD6, 0xDD6); (0xE31, 0xE31);
    (0xE34, 0xE3A); (0xE46, 0xE4E); (0xEB1, 0xEB1); (0xEB4, 0xEBC);
    (0xEC6, 0xEC6); (0xEC8, 0xECD); (0xF18, 0xF19); (0xF35, 0xF35);
    (0xF37, 0xF37); (0xF39, 0xF39); (0xF71, 0xF7E); (0xF80, 0xF84);
    (0xF86, 0xF87); (0xF8D, 0xF97); (0xF99, 0xFBC); (0xFC6, 0xFC6);
    (0x102D, 0x1030); (0x1032, 0x1037); (0x1039, 0x103A); (0x103D, 0x103E);
    (0x1058, 0x1059); (0x105E, 0x1060); (0x1071, 0x1074); (0x1082, 0x1082);
    (0x1085, 0x1086); (0x108D, 0x108D); (0x109D, 0x109D); (0x10FC, 0x10FC);
    (0x135D, 0x135F); (0x1712, 0x1714); (0x1732, 0x1733); (0x1752, 0x1753);
    (0x1772, 0x1773); (0x17B4, 0x17B5); (0x17B7, 0x17BD); (0x17C6, 0x17C6);
    (0x17C9, 0x17D3); (0x17D7, 0x17D7); (0x17DD, 0x17DD); (0x180B, 0x180F);
    (0x1843, 0x1843); (0x1885, 0x1886); (0x18A9, 0x18A9); (0x1920, 0x1922);
    (0x1927, 0x1928); (0x1932, 0x1932); (0x1939, 0x193B); (0x1A17, 0x1A18);
    (0x1A1B, 0x1A1B); (0x1A56, 0x1A56); (0x1A58, 0x1A5E); (0x1A60, 0x1A60);
    (0x1A62, 0x1A62); (0x1A65, 0x1A6C); (0x1A73, 0x1A7C); (0x1A7F, 0x1A7F);
    (0x1AA7, 0x1AA7); (0x1AB0, 0x1ACE); (0x1B00, 0x1B03); (0x1B34, 0x1B34);
    (0x1B36, 0x1B3A); (0x1B3C, 0x1B3C); (0x1B42, 0x1B42); (0x1B6B, 0x1B73);
    (0x1B80, 0x1B81); (0x1BA2, 0x1BA5); (0x1BA8, 0x1BA9); (0x1BAB, 0x1BAD);
    (0x1BE6, 0x1BE6); (0x1BE8, 0x1BE9); (0x1BED, 0x1BED); (0x1BEF, 0x1BF1);
    (0x1C2C, 0x1C33); (0x1C36, 0x1C37); (0x1C78, 0x1C7D); (0x1CD0, 0x1CD2);
    (0x1CD4, 0x1CE0); (0x1CE2, 0x1CE8); (0x1CED, 0x1CED); (0x1CF4, 0x1CF4);
    (0x1CF8, 0x1CF9); (0x1D2C, 0x1D6A); (0x1D78, 0x1D78); (0x1D9B, 0x1DFF);
    (0x1FBD, 0x1FBD); (0x1FBF, 0x1FC1); (0x1FCD, 0x1FCF); (0x1FDD, 0x1FDF);
    (0x1FED, 0x1FEF); (0x1FFD, 0x1FFE); (0x200B, 0x200F); (0x2018, 0x2019);
    (0x2024, 0x2024); (0x2027, 0x2027); (0x202A, 0x202E); (0x2060, 0x2064);
    (0x2066, 0x206F); (0x2071, 0x2071); (0x207F, 0x207F); (0x2090, 0x209C);
    (0x20D0, 0x20F0); (0x2C7C, 0x2C7D); (0x2CEF, 0x2CF1); (0x2D6F, 0x2D6F);
    (0x2D7F, 0x2D7F); (0x2DE0, 0x2DFF); (0x2E2F, 0x2E2F); (0x3005, 0x3005);
    (0x302A, 0x302D); (0x3031, 0x3035); (0x303B, 0x303B); (0x3099, 0x309E);
    (0x30FC, 0x30FE); (0xA015, 0xA015); (0xA4F8, 0xA4FD); (0xA60C, 0xA60C);
    (0xA66F, 0xA672); (0xA674, 0xA67D); (0xA67F, 0xA67F); (0xA69C, 0xA69F);
    (0xA6F0, 0xA6F1); (0xA700, 0xA721); (0xA770, 0xA770); (0xA788, 0xA78A);
    (0xA7F2, 0xA7F4); (0xA7F8, 0xA7F9); (0xA802, 0xA802); (0xA806, 0xA806);
    (0xA80B, 0xA80B); (0xA825, 0xA826); (0xA82C, 0xA82C); (0xA8C4, 0xA8C5);
    (0xA8E0, 0xA8F1); (0xA8FF, 0xA8FF); (0xA926, 0xA92D); (0xA947, 0xA951);
    (0xA980, 0xA982); (0xA9B3, 0xA9B3); (0xA9B6, 0xA9B9); (0xA9BC, 0xA9BD);
    (0xA9CF, 0xA9CF); (0xA9E5, 0xA9E6); (0xAA29, 0xAA2E); (0xAA31, 0xAA32);
    (0xAA35, 0xAA36); (0xAA43, 0xAA43); (0xAA4C, 0xAA4C); (0xAA70, 0xAA70);
    (0xAA7C, 0xAA7C); (0xAAB0, 0xAAB0); (0xAAB2, 0xAAB4); (0xAAB7, 0xAAB8);
    (0xAABE, 0xAABF); (0xAAC1, 0xAAC1); (0xAADD, 0xAADD); (0xAAEC, 0xAAED);
    (0xAAF3, 0xAAF4); (0xAAF6, 0xAAF6); (0xAB5B, 0xAB5F); (0xAB69, 0xAB6B);
    (0xABE5, 0xABE5); (0xABE8, 0xABE8); (0xABED, 0xABED); (0xFB1E, 0xFB1E);
    (0xFBB2, 0xFBC2); (0xFE00, 0xFE0F); (0xFE13, 0xFE13); (0xFE20, 0xFE2F);
    (0xFE52, 0xFE52); (0xFE55, 0xFE55); (0xFEFF, 0xFEFF); (0xFF07, 0xFF07);
    (0xFF0E, 0xFF0E); (0xFF1A, 0xFF1A); (0xFF3E, 0xFF3E); (0xFF40, 0xFF40);
    (0xFF70, 0xFF70); (0xFF9E, 0xFF9F); (0xFFE3, 0xFFE3); (0xFFF9, 0xFFFB);
    (0x101FD, 0x101FD); (0x102E0, 0x102E0); (0x10376, 0x1037A); (0x10780, 0x10785);
    (0x10787, 0x107B0); (0x107B2, 0x107BA); (0x10A01, 0x10A03); (0x10A05, 0x10A06);
    (0x10A0C, 0x10A0F); (0x10A38, 0x10A3A); (0x10A3F, 0x10A3F); (0x10AE5, 0x10AE6);
    (0x10D24, 0x10D27); (0x10EAB, 0x10EAC); (0x10F46, 0x10F50); (0x10F82, 0x10F85);
    (0x11001, 0x11001); (0x11038, 0x11046); (0x11070, 0x11070); (0x11073, 0x11074);
    (0x1107F, 0x11081); (0x110B3, 0x110B6); (0x110B9, 0x110BA); (0x110BD, 0x110BD);
    (0x110C2, 0x110C2); (0x110CD, 0x110CD); (0x11100, 0x11102); (0x11127, 0x1112B);
    (0x1112D, 0x11134); (0x11173, 0x11173); (0x11180, 0x11181); (0x111B6, 0x111BE);
    (0x111C9, 0x111CC); (0x111CF, 0x111CF); (0x1122F, 0x11231); (0x11234, 0x11234);
    (0x11236, 0x11237); (0x1123E, 0x1123E); (0x112DF, 0x112DF); (0x112E3, 0x112EA);
    (0x11300, 0x11301); (0x1133B, 0x1133C); (0x11340, 0x11340); (0x11366, 0x1136C);
    (0x11370, 0x11374); (0x11438, 0x1143F); (0x11442, 0x11444); (0x11446, 0x11446);
    (0x1145E, 0x1145E); (0x114B3, 0x114B8); (0x114BA, 0x114BA); (0x114BF, 0x114C0);
    (0x114C2, 0x114C3); (0x115B2, 0x115B5); (0x115BC, 0x115BD); (0x115BF, 0x115C0);
    (0x115DC, 0x115DD); (0x11633, 0x1163A); (0x1163D, 0x1163D); (0x1163F, 0x11640);
    (0x116AB, 0x116AB); (0x116AD, 0x116AD); (0x116B0, 0x116B5); (0x116B7, 0x116B7);
    (0x1171D, 0x1171F); (0x11722, 0x11725); (0x11727, 0x1172B); (0x1182F, 0x11837);
    (0x11839, 0x1183A); (0x1193B, 0x1193C); (0x1193E, 0x1193E); (0x11943, 0x11943);
    (0x119D4, 0x119D7); (0x119DA, 0x119DB); (0x119E0, 0x119E0); (0x11A01, 0x11A0A);
    (0x11A33, 0x11A38); (0x11A3B, 0x11A3E); (0x11A47, 0x11A47); (0x11A51, 0x11A56);
    (0x11A59, 0x11A5B); (0x11A8A, 0x11A96); (0x11A98, 0x11A99); (0x11C30, 0x11C36);
    (0x11C38, 0x11C3D); (0x11C3F, 0x11C3F); (0x11C92, 0x11CA7); (0x11CAA, 0x11CB0);
    (0x11CB2, 0x11CB3); (0x11CB5, 0x11CB6); (0x11D31, 0x11D36); (0x11D3A, 0x11D3A);
    (0x11D3C, 0x11D3D); (0x11D3F, 0x11D45); (0x11D47, 0x11D47); (0x11D90, 0x11D91);
    (0x11D95, 0x11D95); (0x11D97, 0x11D97); (0x11EF3, 0x11EF4); (0x13430, 0x13438);
    (0x16AF0, 0x16AF4); (0x16B30, 0x16B36); (0x16B40, 0x16B43); (0x16F4F, 0x16F4F);
    (0x16F8F, 0x16F9F); (0x16FE0, 0x16FE1); (0x16FE3, 0x16FE4); (0x1AFF0, 0x1AFF3);
    (0x1AFF5, 0x1AFFB); (0x1AFFD, 0x1AFFE); (0x1BC9D, 0x1BC9E); (0x1BCA0, 0x1BCA3);
    (0x1CF00, 0x1CF2D); (0x1CF30, 0x1CF46); (0x1D167, 0x1D169); (0x1D173, 0x1D182);
    (0x1D185, 0x1D18B); (0x1D1AA, 0x1D1AD); (0x1D242, 0x1D244); (0x1DA00, 0x1DA36);
    (0x1DA3B, 0x1DA6C); (0x1DA75, 0x1DA75); (0x1DA84, 0x1DA84); (0x1DA9B, 0x1DA9F);
    (0x1DAA1, 0x1DAAF); (0x1E000, 0x1E006); (0x1E008, 0x1E018); (0x1E01B, 0x1E021);
    (0x1E023, 0x1E024); (0x1E026, 0x1E02A); (0x1E130, 0x1E13D); (0x1E2AE, 0x1E2AE);
    (0x1E2EC, 0x1E2EF); (0x1E8D0, 0x1E8D6); (0x1E944, 0x1E94B); (0x1F3FB, 0x1F3FF);
    (0xE0001, 0xE0001); (0xE0020, 0xE007F); (0xE0100, 0xE01EF) ]%N.

(** The code points with the property [Cased] that are not
    [Case_Ignorable], as ranges [(first, last)]. *)
Definition cased_table : list (N * N) :=
  [ (0x41, 0x5A); (0x61, 0x7A); (0xAA, 0xAA); (0xB5, 0xB5);
    (0xBA, 0xBA); (0xC0, 0xD6); (0xD8, 0xF6); (0xF8, 0x1BA);
    (0x1BC, 0x1BF); (0x1C4, 0x293); (0x295, 0x2AF); (0x370, 0x373);
    (0x376, 0x377); (0x37B, 0x37D); (0x37F, 0x37F); (0x386, 0x386);
    (0x388, 0x38A); (0x38C, 0x38C); (0x38E, 0x3A1); (0x3A3, 0x3F5);
    (0x3F7, 0x481); (0x48A, 0x52F); (0x531, 0x556); (0x560, 0x588);
    (0x10A0, 0x10C5); (0x10C7, 0x10C7); (0x10CD, 0x10CD); (0x10D0, 0x10FA);
    (0x10FD, 0x10FF); (0x13A0, 0x13F5); (0x13F8, 0x13FD); (0x1C80, 0x1C88);
    (0x1C90, 0x1CBA); (0x1CBD, 0x1CBF); (0x1D00, 0x1D2B); (0x1D6B, 0x1D77);
    (0x1D79, 0x1D9A); (0x1E00, 0x1F15); (0x1F18, 0x1F1D); (0x1F20, 0x1F45);
    (0x1F48, 0x1F4D); (0x1F50, 0x1F57); (0x1F59, 0x1F59); (0x1F5B, 0x1F5B);
    (0x1F5D, 0x1F5D); (0x1F5F, 0x1F7D); (0x1F80, 0x1FB4); (0x1FB6, 0x1FBC);
    (0x1FBE, 0x1FBE); (0x1FC2, 0x1FC4); (0x1FC6, 0x1FCC); (0x1FD0, 0x1FD3);
    (0x1FD6, 0x1FDB); (0x1FE0, 0x1FEC); (0x1FF2, 0x1FF4); (0x1FF6, 0x1FFC);
    (0x2102, 0x2102); (0x2107, 0x2107); (0x210A, 0x2113); (0x2115, 0x2115);
    (0x2119, 0x211D); (0x2124, 0x2124); (0x2126, 0x2126); (0x2128, 0x2128);
    (0x212A, 0x212D); (0x212F, 0x2134); (0x2139, 0x2139); (0x213C, 0x213F);
    (0x2145, 0x2149); (0x214E, 0x214E); (0x2160, 0x217F); (0x2183, 0x2184);
    (0x24B6, 0x24E9); (0x2C00, 0x2C7B); (0x2C7E, 0x2CE4); (0x2CEB, 0x2CEE);
    (0x2CF2, 0x2CF3); (0x2D00, 0x2D25); (0x2D27, 0x2D27); (0x2D2D, 0x2D2D);
    (0xA640, 0xA66D); (0xA680, 0xA69B); (0xA722, 0xA76F); (0xA771, 0xA787);
    (0xA78B, 0xA78E); (0xA790, 0xA7CA); (0xA7D0, 0xA7D1); (0xA7D3, 0xA7D3);
    (0xA7D5, 0xA7D9); (0xA7F5, 0xA7F6); (0xA7FA, 0xA7FA); (0xAB30, 0xAB5A);
    (0xAB60, 0xAB68); (0xAB70, 0xABBF); (0xFB00, 0xFB06); (0xFB13, 0xFB17);
    (0xFF21, 0xFF3A); (0xFF41, 0xFF5A); (0x10400, 0x1044F); (0x104B0, 0x104D3);
    (0x104D8, 0x104FB); (0x10570, 0x1057A); (0x1057C, 0x1058A); (0x1058C, 0x10592);
    (0x10594, 0x10595); (0x10597, 0x105A1); (0x105A3, 0x105B1); (0x105B3, 0x105B9);
    (0x105BB, 0x105BC); (0x10C80, 0x10CB2); (0x10CC0, 0x10CF2); (0x118A0, 0x118DF);
    (0x16E40, 0x16E7F); (0x1D400, 0x1D454); (0x1D456, 0x1D49C); (0x1D49E, 0x1D49F);
    (0x1D4A2, 0x1D4A2); (0x1D4A5, 0x1D4A6); (0x1D4A9, 0x1D4AC); (0x1D4AE, 0x1D4B9);
    (0x1D4BB, 0x1D4BB); (0x1D4BD, 0x1D4C3); (0x1D4C5, 0x1D505); (0x1D507, 0x1D50A);
    (0x1D50D, 0x1D514); (0x1D516, 0x1D51C); (0x1D51E, 0x1D539); (0x1D53B, 0x1D53E);
    (0x1D540, 0x1D544); (0x1D546, 0x1D546); (0x1D54A, 0x1D550); (0x1D552, 0x1D6A5);
    (0x1D6A8, 0x1D6C0); (0x1D6C2, 0x1D6DA); (0x1D6DC, 0x1D6FA); (0x1D6FC, 0x1D714);
    (0x1D716, 0x1D734); (0x1D736, 0x1D74E); (0x1D750, 0x1D76E); (0x1D770, 0x1D788);
    (0x1D78A, 0x1D7A8); (0x1D7AA, 0x1D7C2); (0x1D7C4, 0x1D7CB); (0x1DF00, 0x1DF09);
    (0x1DF0B, 0x1DF1E); (0x1E900, 0x1E943); (0x1F130, 0x1F149); (0x1F150, 0x1F169);
    (0x1F170, 0x1F189) ]%N.

Definition in_range (c : N) (r : N * N) : bool :=
  ((fst r <=? c) && (c <=? snd r))%N.

Definition case_ignorable (c : N) : bool := existsb (in_range c) case_ignorable_table.

Definition cased (c : N) : bool := existsb (in_range c) cased_table.

Fixpoint lower_in (table : list (N * N * N * N)) (c : N) : N :=
  match table with
  | [] => c
  | (first, last, step, image) :: table' =>
      if ((first <=? c) && (c <=? last) && ((c - first) mod step =? 0))%N
      then (image + (c - first))%N
      else lower_in table' c
  end.

(** The lower-case form of a code point out of context: LATIN CAPITAL
    LETTER I WITH DOT ABOVE gives two code points, every other code point
    its simple mapping. *)
Definition lower_code_point (c : N) : list N :=
  if (c =? 0x130)%N then [0x69; 0x307]%N else [lower_in lower_table c].

Definition is_high_surrogate (c : N) : bool := ((0xD800 <=? c) && (c <=? 0xDBFF))%N.
Definition is_low_surrogate (c : N) : bool := ((0xDC00 <=? c) && (c <=? 0xDFFF))%N.

(** The code points of a string: a high surrogate followed by a low one is
    one code point, any other code unit stands for itself. *)
Fixpoint code_points (s : jstring) : list N :=
  match s with
  | [] => []
  | c :: s' =>
      match s' with
      | d :: s'' =>
          if is_high_surrogate c && is_low_surrogate d
          then (0x10000 + (c - 0xD800) * 0x400 + (d - 0xDC00))%N :: code_points s''
          else c :: code_points s'
      | [] => [c]
      end
  end.

(** Whether a cased letter follows, case-ignorable code points apart. *)
Fixpoint cased_follows (l : list N) : bool :=
  match l with
  | [] => false
  | c :: l' => if case_ignorable c then cased_follows l' else cased c
  end.

(** Lower-casing a sequence of code points.  GREEK CAPITAL LETTER SIGMA
    becomes the final sigma when a cased letter precedes it and none
    follows, case-ignorable code points apart; [after_cased] says whether a
    cased letter precedes. *)
Fixpoint lower_code_points (after_cased : bool) (l : list N) : list N :=
  match l with
  | [] => []
  | c :: l' =>
      (if (c =? 0x3A3)%N
       then [if after_cased && negb (cased_follows l') then 0x3C2 else 0x3C3]%N
       else lower_code_point c)
      ++ lower_code_points (if case_ignorable c then after_cased else cased c) l'
  end.

(** [s.toLowerCase()] *)
Definition toLowerCase (s : jstring) : jstring :=
  List.concat (map utf16 (lower_code_points false (code_points s))).

(** *** Searching and replacing *)

(** [s.startsWith(p)] *)
Fixpoint startsWith (p s : jstring) : bool :=
  match p with
  | [] => true
  | a :: p' =>
      match s with
      | [] => false
      | b :: s' => (a =? b)%N && startsWith p' s'
      end
  end.

(** [s.includes(q)] *)
Fixpoint includes (s q : jstring) : bool :=
  startsWith q s ||
  match s with
  | [] => false
  | _ :: s' => includes s' q
  end.

(** [s.replaceAll(pat, rep)] for a string pattern and a replacement text
    without [$]: the occurrences are found left to right and do not overlap.
    [skip] counts the code units of the current occurrence still to drop. *)
Fixpoint replaceAll_from (pat rep s : jstring) (skip : nat) : jstring :=
  match s with
  | [] => []
  | c :: s' =>
      match skip with
      | S k => replaceAll_from pat rep s' k
      | O =>
          if startsWith pat s
          then rep ++ replaceAll_from pat rep s' (length pat - 1)
          else c :: replaceAll_from pat rep s' 0
      end
  end.

(** With the empty pattern the replacement is put at every position. *)
Fixpoint insert_everywhere (rep s : jstring) : jstring :=
  match s with
  | [] => rep
  | c :: s' => rep ++ c :: insert_everywhere rep s'
  end.

Definition replaceAll (pat rep s : jstring) : jstring :=
  match pat with
  | [] => insert_everywhere rep s
  | _ => replaceAll_from pat rep s 0
  end.

(** *** Numbers *)

(** A number that is [NaN], an integer, or an infinity.  The programs here
    never produce a fraction, and the sign of zero is never observed. *)
Inductive number : Type :=
  | NaN
  | Finite (z : Z)
  | Infinity (negative : bool).

(** The nearest double of a positive integer of at least 2^53, ties to
    even: the 53 leading bits, rounded on the bits that follow. *)
Definition round_magnitude (m : Z) : Z :=
  let e := (Z.log2 m - 52)%Z in
  let q := (m / 2 ^ e)%Z in
  let r := (m mod 2 ^ e)%Z in
  let half := (2 ^ (e - 1))%Z in
  if (half <? r)%Z || ((r =? half)%Z && Z.odd q)
  then ((q + 1) * 2 ^ e)%Z else (q * 2 ^ e)%Z.

(** The nearest double of an integer, as an integer. *)
Definition round53 (z : Z) : Z :=
  if (Z.abs z <? 2 ^ 53)%Z then z
  else if (z <? 0)%Z then (- round_magnitude (- z))%Z
  else round_magnitude z.

(** The number an integer denotes: its nearest double, an infinity from
    2^1024 on. *)
Definition of_integer (z : Z) : number :=
  let r := round53 z in
  if (2 ^ 1024 <=? Z.abs r)%Z then Infinity (z <? 0)%Z else Finite r.

(** The longest prefix of decimal digits, as an integer; [None] when there
    is no digit. *)
Fixpoint digits_prefix (s : jstring) (acc : option Z) : option Z :=
  match s with
  | [] => acc
  | c :: s' =>
      if is_digit c
      then digits_prefix s' (Some (10 * default 0 acc + digit_val c)%Z)
      else acc
  end.

(** [parseInt(s, 10)]: leading white space, an optional sign, then the
    longest run of digits, read as the nearest number.  (From the 21st
    significant digit on the language lets an engine read zeros instead;
    the engines in use read every digit.) *)
Definition parseInt (s : jstring) : number :=
  let t := trimStart s in
  let negative := startsWith "-" t in
  let body := if negative || startsWith "+" t then tl t else t in
  match digits_prefix body None with
  | Some v => of_integer (if negative then - v else v)
  | None => NaN
  end.

Fixpoint uint_digits (d : Decimal.uint) : jstring :=
  match d with
  | Decimal.Nil => []
  | Decimal.D0 d' => 48 :: uint_digits d'
  | Decimal.D1 d' => 49 :: uint_digits d'
  | Decimal.D2 d' => 50 :: uint_digits d'
  | Decimal.D3 d' => 51 :: uint_digits d'
  | Decimal.D4 d' => 52 :: uint_digits d'
  | Decimal.D5 d' => 53 :: uint_digits d'
  | Decimal.D6 d' => 54 :: uint_digits d'
  | Decimal.D7 d' => 55 :: uint_digits d'
  | Decimal.D8 d' => 56 :: uint_digits d'
  | Decimal.D9 d' => 57 :: uint_digits d'
  end%N.

(** The decimal digits of an integer that is not negative. *)
Definition digits (z : Z) : jstring :=
  match z with
  | Zpos p => uint_digits (Pos.to_uint p)
  | _ => "0"
  end.

(** The shortest decimal for a double [x] of at least 2^53: the integer
    with the fewest significant digits whose nearest double is [x], and of
    those the nearest to [x] (the even one on a tie).  [e] is the number of
    trailing zeros tried first; with none, [x] itself does. *)
Fixpoint shortest (x : Z) (e : nat) : Z :=
  match e with
  | O => x
  | S e' =>
      let p := (10 ^ Z.of_nat e)%Z in
      let lo := (x / p * p)%Z in
      let hi := (lo + p)%Z in
      let ok_lo := (round53 lo =? x)%Z in
      let ok_hi := (round53 hi =? x)%Z in
      if ok_lo && ok_hi then
        if (x - lo <? hi - x)%Z then lo
        else if (hi - x <? x - lo)%Z then hi
        else if Z.even (x / p) then lo else hi
      else if ok_lo then lo
      else if ok_hi then hi
      else shortest x e'
  end.

Fixpoint strip_zeros (rev_digits : jstring) : jstring :=
  match rev_digits with
  | c :: r => if (c =? 48)%N then strip_zeros r else rev_digits
  | [] => []
  end.

(** Exponent form: the significant digits with a point after the first,
    then [e+] and the decimal exponent. *)
Definition exponent_form (v : Z) : jstring :=
  let ds := digits v in
  let significant := rev (strip_zeros (rev ds)) in
  let exponent := digits (Z.of_nat (length ds - 1)) in
  match significant with
  | [] => ds
  | [d] => d :: "e+" ++ exponent
  | d :: more => d :: "." ++ more ++ "e+" ++ exponent
  end.

(** [Number::toString] of a positive integer double.  Below 2^53 every
    integer is a double and its shortest digits are its own. *)
Definition magnitude_toString (x : Z) : jstring :=
  if (x <? 2 ^ 53)%Z then digits x
  else
    let v := shortest x (length (digits x) - 1) in
    if (v <? 10 ^ 21)%Z then digits v else exponent_form v.

(** [`${n}`] *)
Definition Number_toString (n : number) : jstring :=
  match n with
  | NaN => "NaN"
  | Infinity false => "Infinity"
  | Infinity true => "-Infinity"
  | Finite z =>
      if (z <? 0)%Z then "-" ++ magnitude_toString (- z)
      else magnitude_toString z
  end.

(** [!n]: [NaN] and [0] are falsy. *)
Definition number_falsy (n : number) : bool :=
  match n with
  | NaN => true
  | Finite z => (z =? 0)%Z
  | Infinity _ => false
  end.

(** [Math.max(1, n)] *)
Definition max1 (n : number) : number :=
  match n with
  | NaN => NaN
  | Finite z => Finite (Z.max 1 z)
  | Infinity false => Infinity false
  | Infinity true => Finite 1
  end.

(** *** Arrays and objects *)

(** [a[i]] for an array and an integer: [undefined] outside the array. *)
Definition index {A} (l : list A) (i : Z) : option A :=
  if (i <? 0)%Z || (Z.of_nat (length l) <=? i)%Z then None
  else nth_error l (Z.to_nat i).

(** [a.slice(start, end)] for [0 <= start <= end]: both ends are clamped to
    the length of the array. *)
Definition slice {A} (l : list A) (start stop : Z) : list A :=
  let len := Z.of_nat (length l) in
  let first := Z.min start len in
  let last := Z.min stop len in
  firstn (Z.to_nat (last - first)) (skipn (Z.to_nat first) l).

(** The property names every object literal inherits from
    [Object.prototype]; [k in o] and [o[k]] see them. *)
Definition Object_prototype_keys : list jstring :=
  [ "constructor"; "__defineGetter__"; "__defineSetter__"; "hasOwnProperty";
    "__lookupGetter__"; "__lookupSetter__"; "isPrototypeOf";
    "propertyIsEnumerable"; "toString"; "valueOf"; "__proto__";
    "toLocaleString" ].

Definition mem (k : jstring) (l : list jstring) : bool :=
  existsb (eqb k) l.

(** What [o[k]] yields for an object literal whose own properties hold
    strings: an own string, an inherited function or object, or
    [undefined]. *)
Inductive property : Type :=
  | OwnString (v : jstring)
  | Inherited (k : jstring)
  | Undefined.

Fixpoint own_get (own : list (jstring * jstring)) (k : jstring) : option jstring :=
  match own with
  | [] => None
  | (k', v) :: own' => if eqb k k' then Some v else own_get own' k
  end.

Definition get (own : list (jstring * jstring)) (k : jstring) : property :=
  match own_get own k with
  | Some v => OwnString v
  | None => if mem k Object_prototype_keys then Inherited k else Undefined
  end.

(** [k in o] *)
Definition has (own : list jstring) (k : jstring) : bool :=
  mem k own || mem k Object_prototype_keys.

End JS.

Notation "a =? b" := (JS.eqb a b) : js_scope.

(** ** Data model ([Project], [CONFIG], [THEMES]) *)

Record Project : Type := {
  title : jstring;
  description : jstring;
  tech : list jstring;
  demoUrl : jstring;
  sourceUrl : jstring
}.

Record Socials : Type := {
  github : jstring;
  linkedin : jstring;
  twitter : jstring
}.

Record Bio : Type := {
  name : jstring;
  role : jstring;
  location : jstring;
  about : jstring;
  skills : list jstring
}.

Record Config : Type := {
  pageSize : nat;
  email : jstring;
  socials : Socials;
  resumeUrl : jstring;
  bio : Bio;
  projects : list Project
}.

(** The [CONFIG] constant of the source. *)
Definition CONFIG : Config := {|
  pageSize := 5;
  email := "hello@example.com";
  socials := {|
    github := "https://github.com/yourname";
    linkedin := "https://www.linkedin.com/in/yourname/";
    twitter := "https://twitter.com/yourname" |};
  resumeUrl :=
    "https://www.w3.org/WAI/ER/tests/xhtml/testfiles/resources/pdf/dummy.pdf";
  bio := {|
    name := "Alok Kumar Sah";
    role := "Frontend Engineer";
    location := "Somewhere, Earth";
    about :=
      "I craft fast, accessible web apps. I enjoy systems design, DX, and beautiful UIs.";
    skills :=
      ["TypeScript"; "React"; "Next.js"; "Node.js"; "Tailwind CSS"; "Testing"] |};
  projects := [
    {| title := "zensu";
       description := "A calm productivity tool focused on flow and minimal UI.";
       tech := ["Next.js"; "TypeScript"; "Tailwind"];
       demoUrl := "#";
       sourceUrl := "https://github.com/alokkumax/zensu" |};
    {| title := "danger ahead";
       description := "Realtime hazard alerts demo with map overlays.";
       tech := ["React"; "WebSocket"; "Maplibre"];
       demoUrl := "#";
       sourceUrl := "https://github.com/alokkumax/danger-ahead" |};
    {| title := "groceryCMS";
       description := "Headless CMS starter for small grocery catalogs.";
       tech := ["Next.js"; "Prisma"; "SQLite"];
       demoUrl := "#";
       sourceUrl := "https://github.com/alokkumax/groceryCMS" |};
    {| title := "echomeets";
       description := "Lightweight audio-first meeting notes with transcripts.";
       tech := ["TypeScript"; "Web Audio"; "VAD"];
       demoUrl := "#";
       sourceUrl := "https://github.com/alokkumax/echomeets" |} ]
|}.

(** The own keys of [THEMES], in source order; the variable tables they map
    to are not read by the interpreter. *)
Definition THEMES : list jstring := ["dark"; "matrix"; "solarized"; "light"].

(** ** Session state, capabilities and the handler monad *)

Record CommandResultLine : Type := { line_id : jstring; html : jstring }.

Record OutputBlock : Type := { block_id : jstring; lines : list CommandResultLine }.

(** A call of a side-effect capability. *)
Inductive call : Type :=
  | WindowOpen (url target : jstring)
  | ClipboardWriteText (text : jstring).

(** The React state of [Home], the number of UUIDs drawn so far and the
    trace of capability calls. *)
Record State : Type := {
  theme : jstring;
  history : list jstring;
  historyIdx : Z;
  input : jstring;
  output : list OutputBlock;
  uuids : nat;
  calls : list call
}.

(** What the host answers: the [k]-th value of [crypto.randomUUID()] and
    whether [navigator.clipboard.writeText(text)] resolves. *)
Record Env : Type := {
  randomUUID : nat -> jstring;
  clipboard_resolves : jstring -> bool
}.

Inductive exn : Type :=
  | TypeError (msg : jstring)
  | ClipboardRejected.

Inductive completion (A : Type) : Type :=
  | Normal (a : A)
  | Throw (e : exn).
Arguments Normal {A} a.
Arguments Throw {A} e.

(** A handler step: it completes normally or throws, and leaves a state
    either way (state setters that ran before a throw stay in effect). *)
Definition M (A : Type) : Type := State -> completion A * State.

Definition ret {A} (a : A) : M A := fun st => (Normal a, st).

Definition throw {A} (e : exn) : M A := fun st => (Throw e, st).

Definition bind {A B} (m : M A) (k : A -> M B) : M B :=
  fun st =>
    match m st with
    | (Normal a, st') => k a st'
    | (Throw e, st') => (Throw e, st')
    end.

(** [try { body } catch { handler }] *)
Definition try_catch {A} (body : M A) (handler : M A) : M A :=
  fun st =>
    match body st with
    | (Normal a, st') => (Normal a, st')
    | (Throw _, st') => handler st'
    end.

Notation "m1 ;; m2" := (bind m1 (fun _ => m2))
  (at level 100, m2 at level 200, right associativity).

Definition modify (f : State -> State) : M unit := fun st => (Normal tt, f st).

Definition setTheme (t : jstring) : M unit :=
  modify (fun st =>
    {| theme := t; history := history st; historyIdx := historyIdx st;
       input := input st; output := output st; uuids := uuids st;
       calls := calls st |}).

Definition setHistory (f : list jstring -> list jstring) : M unit :=
  modify (fun st =>
    {| theme := theme st; history := f (history st);
       historyIdx := historyIdx st; input := input st; output := output st;
       uuids := uuids st; calls := calls st |}).

Definition setHistoryIdx (i : Z) : M unit :=
  modify (fun st =>
    {| theme := theme st; history := history st; historyIdx := i;
       input := input st; output := output st; uuids := uuids st;
       calls := calls st |}).

Definition setInput (s : jstring) : M unit :=
  modify (fun st =>
    {| theme := theme st; history := history st; historyIdx := historyIdx st;
       input := s; output := output st; uuids := uuids st;
       calls := calls st |}).

Definition setOutput (f : list OutputBlock -> list OutputBlock) : M unit :=
  modify (fun st =>
    {| theme := theme st; history := history st; historyIdx := historyIdx st;
       input := input st; output := f (output st); uuids := uuids st;
       calls := calls st |}).

Definition record_call (c : call) : M unit :=
  modify (fun st =>
    {| theme := theme st; history := history st; historyIdx := historyIdx st;
       input := input st; output := output st; uuids := uuids st;
       calls := calls st ++ [c] |}).

(** [window.open(url, "_blank")] *)
Definition window_open (url target : jstring) : M unit :=
  record_call (WindowOpen url target).

(** [await navigator.clipboard.writeText(text)]: the call is made, and the
    awaited promise resolves or rejects as the host decides. *)
Definition clipboard_writeText (env : Env) (text : jstring) : M unit :=
  record_call (ClipboardWriteText text) ;;
  if clipboard_resolves env text then ret tt else throw ClipboardRejected.

(** The block [print] builds from the [k]-th UUID on. *)
Definition make_block (env : Env) (k : nat) (ls : list jstring) : OutputBlock :=
  {| block_id := randomUUID env k;
     lines := imap (fun i h => {| line_id := randomUUID env (S k + i);
                                  html := h |}) ls |}.

(** [print(lines)] *)
Definition print (env : Env) (ls : list jstring) : M unit :=
  fun st =>
    let block := make_block env (uuids st) ls in
    (Normal tt,
     {| theme := theme st; history := history st; historyIdx := historyIdx st;
        input := input st; output := output st ++ [block];
        uuids := uuids st + S (length ls); calls := calls st |}).

(** ** The formatter *)

Definition escapeHtml (s : jstring) : jstring :=
  JS.replaceAll "'" "&#039;"
    (JS.replaceAll ([JS.dquote]) "&quot;"
      (JS.replaceAll ">" "&gt;"
        (JS.replaceAll "<" "&lt;"
          (JS.replaceAll "&" "&amp;" s)))).

Definition strong (s : jstring) : jstring :=
  "<span class='title'>" ++ escapeHtml s ++ "</span>".

Definition code (s : jstring) : jstring :=
  "<code class='px-2 py-0.5 rounded bg-white/10'>" ++ escapeHtml s ++ "</code>".

Definition tag (t : jstring) : jstring :=
  "<span class='tag'>" ++ escapeHtml t ++ "</span>".

(** ** The command handlers (the [switch] of [handleCommand]) *)

(** [rest[0] || d] *)
Definition first_or (rest : list jstring) (d : jstring) : jstring :=
  match rest with
  | t :: _ => if (t =? "") then d else t
  | [] => d
  end.

(** [n || d] for numbers *)
Definition number_or (n d : JS.number) : JS.number :=
  if JS.number_falsy n then d else n.

(** The [details] object of [/help]. *)
Definition details : list (jstring * jstring) :=
  [ ("/help", "Usage: /help [command] — show available commands or details.");
    ("/projects", "Usage: /projects [page] — paginated list. 'open <n>' to open.");
    ("/about", "Usage: /about — short bio, role, location, skills.");
    ("/contact", "Usage: /contact — email and socials. 'copy email' to clipboard.");
    ("/resume", "Usage: /resume — open/download resume PDF.");
    ("/theme", "Usage: /theme <light|dark|matrix|solarized> — switch theme.");
    ("/clear", "Usage: /clear — clear terminal history (alias: cls).") ].

Definition no_details (arg : jstring) : jstring :=
  "No details for '" ++ arg ++ "'.".

Definition help_lines : list jstring :=
  [ strong "Available commands:";
    code "/help";
    code "/help <command>";
    code "/projects [page]";
    code "open <n>";
    code "/about";
    code "/contact";
    code "/resume";
    code "/theme <light|dark|matrix|solarized>";
    code "/clear | cls" ].

(** [details[arg] || `No details for '${arg}'.`] is a string when the
    property is an own one or is missing; an inherited property is a
    function or an object, on which [escapeHtml] calls the missing method
    [replaceAll]. *)
Definition cmd_help (env : Env) (arg : jstring) : M unit :=
  if (arg =? "") then print env help_lines
  else
    match JS.get details arg with
    | JS.OwnString v =>
        print env [escapeHtml (if (v =? "") then no_details arg else v)]
    | JS.Inherited _ => throw (TypeError "s.replaceAll is not a function")
    | JS.Undefined => print env [escapeHtml (no_details arg)]
    end.

Definition tags_of (ts : list jstring) : jstring := JS.join " " (map tag ts).

(** One project of a [/projects] page, with its global index. *)
Definition project_line (index : Z) (p : Project) : jstring :=
  JS.Number_toString (JS.Finite index) ++ ". <span class='title'>" ++ escapeHtml (title p)
  ++ "</span> — " ++ escapeHtml (description p)
  ++ " <span class='dim'>" ++ tags_of (tech p) ++ "</span> "
  ++ JS.newline :: " <a href='" ++ demoUrl p
  ++ "' target='_blank' rel='noreferrer'>demo</a> · <a href='" ++ sourceUrl p
  ++ "' target='_blank' rel='noreferrer'>source</a>".

(** [Math.max(1, parseInt(rest[0] || "1", 10) || 1)] *)
Definition page_of (rest : list jstring) : JS.number :=
  JS.max1 (number_or (JS.parseInt (first_or rest "1")) (JS.Finite 1)).

Definition page_start (cfg : Config) (page : Z) : Z :=
  (page - 1) * Z.of_nat (pageSize cfg).

(** [CONFIG.projects.slice(start, start + CONFIG.pageSize)] *)
Definition page_slice (cfg : Config) (page : Z) : list Project :=
  let start := page_start cfg page in
  JS.slice (projects cfg) start (start + Z.of_nat (pageSize cfg)).

(** [Math.max(1, Math.ceil(CONFIG.projects.length / CONFIG.pageSize))]; it is
    read only when the page is not empty, hence with a positive page size. *)
Definition totalPages (cfg : Config) : Z :=
  let len := Z.of_nat (length (projects cfg)) in
  let size := Z.of_nat (pageSize cfg) in
  Z.max 1 ((len + size - 1) / size).

Definition projects_hint : jstring := "Type 'open <n>' to open demo in a new tab.".

(** The [/projects] command.  For an infinite page number [start] is
    [Infinity] (or [NaN], with page size 0) and the slice is empty. *)
Definition cmd_projects (env : Env) (cfg : Config) (rest : list jstring) : M unit :=
  let page := page_of rest in
  match page with
  | JS.Finite p =>
      let start := page_start cfg p in
      let slice := page_slice cfg p in
      if (length slice =? 0)%nat then
        print env ["No projects on page " ++ JS.Number_toString page ++ "."]
      else
        print env
          (("Projects (page " ++ JS.Number_toString page ++ "/"
              ++ JS.Number_toString (JS.Finite (totalPages cfg)) ++ "):")
           :: imap (fun i p => project_line (start + Z.of_nat i + 1) p) slice
           ++ [projects_hint])
  | _ => print env ["No projects on page " ++ JS.Number_toString page ++ "."]
  end.

Definition open_usage : jstring := "Usage: open <n> — open the nth project demo.".

(** [CONFIG.projects[n - 1]]: an infinite index names no element. *)
Definition project_number (cfg : Config) (n : JS.number) : option Project :=
  match n with
  | JS.Finite z => JS.index (projects cfg) (z - 1)
  | _ => None
  end.

Definition cmd_open (env : Env) (cfg : Config) (rest : list jstring) : M unit :=
  let n := JS.parseInt (first_or rest "") in
  if JS.number_falsy n then print env [open_usage]
  else
    match project_number cfg n with
    | None => print env ["Project " ++ JS.Number_toString n ++ " not found."]
    | Some proj =>
        window_open (demoUrl proj) "_blank" ;;
        print env ["Opening " ++ escapeHtml (title proj) ++ "..."]
    end.

Definition cmd_about (env : Env) (cfg : Config) : M unit :=
  let b := bio cfg in
  print env
    [ strong (name b ++ " — " ++ role b);
      escapeHtml (location b);
      escapeHtml (about b);
      "Skills: " ++ JS.join " " (map tag (skills b)) ].

Definition cmd_contact (env : Env) (cfg : Config) : M unit :=
  let s := socials cfg in
  print env
    [ "Email: <a href='mailto:" ++ email cfg ++ "'>" ++ email cfg
        ++ "</a> (type 'copy email')";
      "GitHub: <a href='" ++ github s ++ "' target='_blank' rel='noreferrer'>"
        ++ github s ++ "</a>";
      "LinkedIn: <a href='" ++ linkedin s ++ "' target='_blank' rel='noreferrer'>"
        ++ linkedin s ++ "</a>";
      "Twitter: <a href='" ++ twitter s ++ "' target='_blank' rel='noreferrer'>"
        ++ twitter s ++ "</a>" ].

Definition copied_line : jstring := "Email copied to clipboard.".
Definition blocked_line : jstring :=
  "Copy failed — your browser blocked clipboard access.".
Definition copy_usage : jstring := "Usage: copy email".

Definition cmd_copy (env : Env) (cfg : Config) (arg : jstring) : M unit :=
  if (JS.toLowerCase arg =? "email") then
    try_catch
      (clipboard_writeText env (email cfg) ;; print env [copied_line])
      (print env [blocked_line])
  else print env [copy_usage].

Definition cmd_resume (env : Env) (cfg : Config) : M unit :=
  window_open (resumeUrl cfg) "_blank" ;;
  print env ["Opening resume.pdf …"].

Definition theme_usage : jstring := "Usage: /theme <light|dark|matrix|solarized>".

(** [rest[0]?.toLowerCase()], then [!t || !(t in THEMES)] *)
Definition cmd_theme (env : Env) (rest : list jstring) : M unit :=
  match JS.toLowerCase <$> head rest with
  | None => print env [theme_usage]
  | Some t =>
      if (t =? "") || negb (JS.has THEMES t) then print env [theme_usage]
      else setTheme t ;; print env ["Theme set to " ++ t ++ "."]
  end.

Definition cmd_clear : M unit := setOutput (fun _ => []).

(** [toggleTheme], the button of the header. *)
Definition toggleTheme : M unit :=
  fun st =>
    setTheme (if (theme st =? "light") then "dark" else "light") st.

(** The text a project is searched in. *)
Definition hay (p : Project) : jstring :=
  JS.toLowerCase
    (title p ++ " " ++ description p ++ " " ++ JS.join " " (tech p)).

(** [term.split(/\s+/).every((q) => r.hay.includes(q))] *)
Definition matches_term (term : jstring) (p : Project) : bool :=
  forallb (fun q => JS.includes (hay p) q) (JS.split_ws term).

(** The projects that match, each with its 0-based position in the list. *)
Definition search_matches (cfg : Config) (term : jstring) : list (nat * Project) :=
  List.filter (fun r => matches_term term (snd r))
              (imap (fun i p => (i, p)) (projects cfg)).

Definition search_line (m : nat * Project) : jstring :=
  JS.Number_toString (JS.Finite (Z.of_nat (fst m) + 1)) ++ ". <span class='title'>"
  ++ escapeHtml (title (snd m)) ++ "</span> — "
  ++ escapeHtml (description (snd m)).

Definition search_usage : jstring := "Usage: search <term>".

Definition cmd_search (env : Env) (cfg : Config) (arg : jstring) : M unit :=
  let term := JS.toLowerCase arg in
  if (term =? "") then print env [search_usage]
  else
    let matches := search_matches cfg term in
    if (length matches =? 0)%nat then
      print env ["No matches for '" ++ escapeHtml term ++ "'."]
    else
      print env
        (strong ("Search results ("
                   ++ JS.Number_toString (JS.Finite (Z.of_nat (length matches)))
                   ++ "):")
         :: map search_line matches).

Definition cmd_not_found (env : Env) (name : jstring) : M unit :=
  print env ["Command not found: " ++ escapeHtml name ++ ". Type /help."].

(** The [switch (name.toLowerCase())] with its [default] branch. *)
Definition dispatch (env : Env) (cfg : Config) (name : jstring)
    (rest : list jstring) : M unit :=
  let arg := JS.join " " rest in
  let key := JS.toLowerCase name in
  if (key =? "/help") then cmd_help env arg
  else if (key =? "/projects") then cmd_projects env cfg rest
  else if (key =? "open") then cmd_open env cfg rest
  else if (key =? "/about") then cmd_about env cfg
  else if (key =? "/contact") then cmd_contact env cfg
  else if (key =? "copy") then cmd_copy env cfg arg
  else if (key =? "/resume") then cmd_resume env cfg
  else if (key =? "/theme") then cmd_theme env rest
  else if (key =? "/clear") || (key =? "cls") then cmd_clear
  else if (key =? "search") then cmd_search env cfg arg
  else cmd_not_found env name.

(** What [handleCommand] does to the state before it looks at the command. *)
Definition record_submission (cmd : jstring) : M unit :=
  setHistory (fun h => h ++ [cmd]) ;;
  setHistoryIdx (-1) ;;
  setInput "".

(** [const [name, ...rest] = cmd.split(/\s+/)]: a split has at least one
    piece; on none, [name] would be [undefined]. *)
Definition handleCommand (env : Env) (cfg : Config) (raw : jstring) : M unit :=
  let cmd := JS.trim raw in
  if (cmd =? "") then ret tt
  else
    record_submission cmd ;;
    match JS.split_ws cmd with
    | name :: rest => dispatch env cfg name rest
    | [] => throw (TypeError "name is undefined")
    end.

Inductive key : Type := Enter | ArrowUp | ArrowDown | OtherKey (k : jstring).

(** [history[idx] || ""] *)
Definition history_entry (h : list jstring) (idx : Z) : jstring :=
  default "" (JS.index h idx).

(** [onKeyDown]: [history], [historyIdx] and [input] are the values of the
    current render.  [handleCommand] is not awaited: a throw inside it is a
    rejected promise and the key handler itself completes. *)
Definition onKeyDown (env : Env) (cfg : Config) (k : key) : M unit :=
  fun st =>
    let len := Z.of_nat (length (history st)) in
    match k with
    | Enter => (Normal tt, snd (handleCommand env cfg (input st) st))
    | ArrowUp =>
        if (length (history st) =? 0)%nat then (Normal tt, st)
        else
          let idx := if (historyIdx st =? -1)%Z then (len - 1)%Z
                     else Z.max 0 (historyIdx st - 1) in
          (setHistoryIdx idx ;; setInput (history_entry (history st) idx)) st
    | ArrowDown =>
        if (length (history st) =? 0)%nat then (Normal tt, st)
        else
          let idx := if (historyIdx st =? -1)%Z then (-1)%Z
                     else Z.min (len - 1) (historyIdx st + 1)%Z in
          (setHistoryIdx idx ;;
           setInput (if (idx =? -1)%Z then "" else history_entry (history st) idx)) st
    | OtherKey _ => (Normal tt, st)
    end.

(** The state a handler run leaves, and how it completed. *)
Definition exec {A} (m : M A) (st : State) : State := snd (m st).
Definition outcome {A} (m : M A) (st : State) : completion A := fst (m st).

(** The lines of a block, as printed. *)
Definition block_html (b : OutputBlock) : list jstring := map html (lines b).

(** A session that starts with nothing stored. *)
Definition new_session (h : list jstring) : State :=
  {| theme := "dark"; history := h; historyIdx := -1; input := "";
     output := []; uuids := 0; calls := [] |}.

Definition env0 : Env :=
  {| randomUUID := fun k => "uuid-" ++ JS.Number_toString (JS.Finite (Z.of_nat k));
     clipboard_resolves := fun _ => true |}.


(** ** [JSON.parse], [JSON.stringify] and the [useLocalStorage] hook *)

Module JSON.

(** A parsed value.  A number keeps its source text: the interpreter never
    computes with a stored number. *)
#[local] Unset Elimination Schemes.
Inductive value : Type :=
  | Null
  | Bool (b : bool)
  | Number (lexeme : jstring)
  | Str (s : jstring)
  | Array (l : list value)
  | Object (l : list (jstring * value)).
#[local] Set Elimination Schemes.

(** JSON white space: SPACE, TAB, LF and CR only. *)
Definition is_json_ws (c : N) : bool :=
  ((c =? 32) || (c =? 9) || (c =? 10) || (c =? 13))%N.

Fixpoint skip_ws (s : jstring) : jstring :=
  match s with
  | c :: s' => if is_json_ws c then skip_ws s' else s
  | [] => []
  end.

Definition hex_val (c : N) : option N :=
  if ((48 <=? c) && (c <=? 57))%N then Some (c - 48)%N
  else if ((97 <=? c) && (c <=? 102))%N then Some (c - 87)%N
  else if ((65 <=? c) && (c <=? 70))%N then Some (c - 55)%N
  else None.

(** The code unit after a backslash: quote, backslash and slash stand for
    themselves, [b f n r t] for their control character. *)
Definition unescape (c : N) : option N :=
  if (c =? 34)%N then Some c
  else if (c =? 92)%N then Some c
  else if (c =? 47)%N then Some c
  else if (c =? 98)%N then Some 8%N
  else if (c =? 102)%N then Some 12%N
  else if (c =? 110)%N then Some 10%N
  else if (c =? 114)%N then Some 13%N
  else if (c =? 116)%N then Some 9%N
  else None.

(** The code units of a string literal after its opening quote, up to the
    closing quote; the rest of the text follows.  A [\uXXXX] escape is the
    code unit it names. *)
Fixpoint parse_chars (s : jstring) : option (jstring * jstring) :=
  match s with
  | [] => None
  | c :: s' =>
      if (c =? 34)%N then Some ("", s')
      else if (c =? 92)%N then
        match s' with
        | e :: s2 =>
            if (e =? 117)%N then
              match s2 with
              | h1 :: h2 :: h3 :: h4 :: s3 =>
                  match hex_val h1, hex_val h2, hex_val h3, hex_val h4 with
                  | Some a, Some b, Some c', Some d =>
                      match parse_chars s3 with
                      | Some (body, rest) =>
                          Some ((((a * 16 + b) * 16 + c') * 16 + d)%N :: body, rest)
                      | None => None
                      end
                  | _, _, _, _ => None
                  end
              | _ => None
              end
            else
              match unescape e with
              | Some x =>
                  match parse_chars s2 with
                  | Some (body, rest) => Some (x :: body, rest)
                  | None => None
                  end
              | None => None
              end
        | [] => None
        end
      else if (c <? 32)%N then None
      else
        match parse_chars s' with
        | Some (body, rest) => Some (c :: body, rest)
        | None => None
        end
  end.

Fixpoint drop (n : nat) (s : jstring) : jstring :=
  match n, s with
  | S n', _ :: s' => drop n' s'
  | _, _ => s
  end.

(** The longest run of digits at the head of a text. *)
Fixpoint take_digits (s : jstring) : jstring * jstring :=
  match s with
  | c :: s' =>
      if JS.is_digit c
      then let '(d, r) := take_digits s' in (c :: d, r)
      else ("", s)
  | [] => ("", "")
  end.

(** A number: an optional minus, then 0 or a run of digits that does not
    start with 0, then an optional fraction (a dot and digits) and an
    optional exponent (e or E, an optional sign, digits). *)
Definition parse_number (s : jstring) : option (jstring * jstring) :=
  let '(sign, s1) :=
    if JS.startsWith "-" s then ("-", drop 1 s) else ("", s) in
  let '(int, s2) := take_digits s1 in
  if (int =? "") || JS.startsWith "0" int && (1 <? length int)%nat then None
  else
      let frac :=
        if JS.startsWith "." s2 then
          let '(d, r) := take_digits (drop 1 s2) in
          if (d =? "") then None else Some ("." ++ d, r)
        else Some ("", s2) in
      match frac with
      | None => None
      | Some (f, s3) =>
          match s3 with
          | e :: t =>
              if ((e =? 101) || (e =? 69))%N then
                let '(sg, t') :=
                  if JS.startsWith "+" t then ("+", drop 1 t)
                  else if JS.startsWith "-" t then ("-", drop 1 t)
                  else ("", t) in
                let '(d, r) := take_digits t' in
                if (d =? "") then None
                else Some (sign ++ int ++ f ++ e :: sg ++ d, r)
              else Some (sign ++ int ++ f, s3)
          | [] => Some (sign ++ int ++ f, s3)
          end
      end.

(** A value at the head of a text, then the elements of an array after its
    opening bracket, then the members of an object after its opening brace.
    [fuel] bounds the nesting and the number of elements read. *)
Fixpoint parse_value (fuel : nat) (s : jstring) : option (value * jstring) :=
  match fuel with
  | O => None
  | S fuel' =>
      match s with
      | c :: s' =>
          if (c =? JS.dquote)%N then
            match parse_chars s' with
            | Some (body, rest) => Some (Str body, rest)
            | None => None
            end
          else if (c =? 91)%N then
            if JS.startsWith "]" (skip_ws s') then Some (Array [], drop 1 (skip_ws s'))
            else
              match parse_elements fuel' (skip_ws s') with
              | Some (l, rest) => Some (Array l, rest)
              | None => None
              end
          else if (c =? 123)%N then
            if JS.startsWith "}" (skip_ws s') then Some (Object [], drop 1 (skip_ws s'))
            else
              match parse_members fuel' (skip_ws s') with
              | Some (l, rest) => Some (Object l, rest)
              | None => None
              end
          else if JS.startsWith "true" s then Some (Bool true, drop 4 s)
          else if JS.startsWith "false" s then Some (Bool false, drop 5 s)
          else if JS.startsWith "null" s then Some (Null, drop 4 s)
          else
            match parse_number s with
            | Some (lex, rest) => Some (Number lex, rest)
            | None => None
            end
      | [] => None
      end
  end
with parse_elements (fuel : nat) (s : jstring) : option (list value * jstring) :=
  match fuel with
  | O => None
  | S fuel' =>
      match parse_value fuel' s with
      | Some (v, rest) =>
          if JS.startsWith "]" (skip_ws rest) then Some ([v], drop 1 (skip_ws rest))
          else if JS.startsWith "," (skip_ws rest) then
            match parse_elements fuel' (skip_ws (drop 1 (skip_ws rest))) with
            | Some (l, rest2) => Some (v :: l, rest2)
            | None => None
            end
          else None
      | None => None
      end
  end
with parse_members (fuel : nat) (s : jstring)
    : option (list (jstring * value) * jstring) :=
  match fuel with
  | O => None
  | S fuel' =>
      if JS.startsWith [JS.dquote] s then
        match parse_chars (drop 1 s) with
        | Some (k, rest) =>
            if JS.startsWith ":" (skip_ws rest) then
              match parse_value fuel' (skip_ws (drop 1 (skip_ws rest))) with
              | Some (v, rest2) =>
                  if JS.startsWith "}" (skip_ws rest2)
                  then Some ([(k, v)], drop 1 (skip_ws rest2))
                  else if JS.startsWith "," (skip_ws rest2) then
                    match parse_members fuel' (skip_ws (drop 1 (skip_ws rest2))) with
                    | Some (l, rest4) => Some ((k, v) :: l, rest4)
                    | None => None
                    end
                  else None
              | None => None
              end
            else None
        | None => None
        end
      else None
  end.

(** [JSON.parse(text)]; [None] is the thrown [SyntaxError].  Every
    recursive call of the parser has read a code unit, so twice the length
    of the text is fuel enough ([parse_fuel_adequate] below). *)
Definition parse (text : jstring) : option value :=
  match parse_value (2 * length text + 2) (skip_ws text) with
  | Some (v, rest) => if (skip_ws rest =? "") then Some v else None
  | None => None
  end.

Definition hex_digit (n : N) : N :=
  if (n <? 10)%N then (48 + n)%N else (87 + n)%N.

(** [\uXXXX], in lower-case hexadecimal digits. *)
Definition unicode_escape (c : N) : jstring :=
  "\u" ++ [ hex_digit (c / 4096); hex_digit ((c / 256) mod 16);
            hex_digit ((c / 16) mod 16); hex_digit (c mod 16) ].

(** One code unit inside a quoted string, a surrogate being one without
    its partner. *)
Definition quote_char (c : N) : jstring :=
  if (c =? 34)%N then [92; 34]%N
  else if (c =? 92)%N then "\\"
  else if (c =? 8)%N then "\b"
  else if (c =? 12)%N then "\f"
  else if (c =? 10)%N then "\n"
  else if (c =? 13)%N then "\r"
  else if (c =? 9)%N then "\t"
  else if (c <? 32)%N || JS.is_high_surrogate c || JS.is_low_surrogate c
  then unicode_escape c
  else [c].

(** The body of a quoted string: a surrogate pair is kept as it is, every
    other code unit is quoted on its own. *)
Fixpoint quote_chars (s : jstring) : jstring :=
  match s with
  | [] => []
  | c :: s' =>
      match s' with
      | d :: s'' =>
          if JS.is_high_surrogate c && JS.is_low_surrogate d
          then c :: d :: quote_chars s''
          else quote_char c ++ quote_chars s'
      | [] => quote_char c
      end
  end.

Definition quote (s : jstring) : jstring :=
  JS.dquote :: quote_chars s ++ [JS.dquote].

(** [JSON.stringify(v)] *)
Fixpoint stringify (v : value) : jstring :=
  match v with
  | Null => "null"
  | Bool true => "true"
  | Bool false => "false"
  | Number lexeme => lexeme
  | Str s => quote s
  | Array l => "[" ++ JS.join "," (map stringify l) ++ "]"
  | Object l =>
      "{" ++ JS.join "," (map (fun kv => quote (fst kv) ++ ":" ++ stringify (snd kv)) l)
      ++ "}"
  end.

End JSON.

(** The initial value of [useLocalStorage(key, initial)]: the stored text
    parsed, the raw text itself when it does not parse, [initial] when
    nothing is stored. *)
Definition useLocalStorage_init (storage : gmap jstring jstring) (key : jstring)
    (initial : JSON.value) : JSON.value :=
  match storage !! key with
  | None => initial
  | Some raw =>
      match JSON.parse raw with
      | Some v => v
      | None => JSON.Str raw
      end
  end.

(** The effect of the hook: [localStorage.setItem(key, JSON.stringify(value))]. *)
Definition useLocalStorage_effect (key : jstring) (v : JSON.value)
    (storage : gmap jstring jstring) : gmap jstring jstring :=
  <[key := JSON.stringify v]> storage.

Definition theme_value (st : State) : JSON.value := JSON.Str (theme st).

Definition history_value (st : State) : JSON.value :=
  JSON.Array (map JSON.Str (history st)).

(** The two hooks of [Home] after a render. *)
Definition persist (st : State) (storage : gmap jstring jstring)
    : gmap jstring jstring :=
  useLocalStorage_effect "history" (history_value st)
    (useLocalStorage_effect "theme" (theme_value st) storage).

Fixpoint strings_of (l : list JSON.value) : option (list jstring) :=
  match l with
  | [] => Some []
  | JSON.Str s :: l' => cons s <$> strings_of l'
  | _ :: _ => None
  end.

(** The state of a fresh load over a store.  The hooks are typed
    [ThemeName] and [string[]]; a stored value of another shape is outside
    those types and gives no state here. *)
Definition load (storage : gmap jstring jstring) : option State :=
  match useLocalStorage_init storage "theme" (JSON.Str "dark"),
        useLocalStorage_init storage "history" (JSON.Array []) with
  | JSON.Str t, JSON.Array l =>
      (fun h => {| theme := t; history := h; historyIdx := -1; input := "";
                   output := []; uuids := 0; calls := [] |}) <$> strings_of l
  | _, _ => None
  end.
(** ** Notions used to state the properties *)

(** *** Lines and tokens *)

(** A text made of white space only. *)
Fixpoint all_ws (s : jstring) : bool :=
  match s with
  | [] => true
  | c :: s' => JS.is_ws c && all_ws s'
  end.

(** A text without white space. *)
Fixpoint no_ws (s : jstring) : bool :=
  match s with
  | [] => true
  | c :: s' => negb (JS.is_ws c) && no_ws s'
  end.

(** Whether the last character of a text is white space. *)
Fixpoint ends_ws (s : jstring) : bool :=
  match s with
  | [] => false
  | c :: s' => if (s' =? "") then JS.is_ws c else ends_ws s'
  end.

(** A token: a text that is not empty and holds no white space. *)
Definition is_token (t : jstring) : Prop := t <> "" /\ no_ws t = true.

(** Whether a token starts, after an optional sign, with a decimal digit. *)
Definition numeric_prefix (tok : jstring) : bool :=
  let t := JS.trimStart tok in
  let body := if JS.startsWith "-" t || JS.startsWith "+" t then tl t else t in
  match body with
  | c :: _ => JS.is_digit c
  | [] => false
  end.

(** *** Sessions *)

(** The state [handleCommand] hands to the command: the trimmed line is the
    last history entry and the cursor is off. *)
Definition recorded (cmd : jstring) (st : State) : State :=
  exec (record_submission cmd) st.

(** The invariant of the history cursor: off, or at an entry. *)
Definition cursor_valid (st : State) : Prop :=
  historyIdx st = (-1)%Z \/
  (0 <= historyIdx st < Z.of_nat (length (history st)))%Z.

(** A session that has run the commands a, b and c and is browsing its
    history at entry [idx]. *)
Definition browsing_abc (idx : Z) : State :=
  {| theme := "dark"; history := ["a"; "b"; "c"]; historyIdx := idx;
     input := "c"; output := []; uuids := 0; calls := [] |}.

(** The state of a fresh load of a session that was persisted. *)
Definition reloaded (st : State) : State :=
  {| theme := theme st; history := history st; historyIdx := -1; input := "";
     output := []; uuids := 0; calls := [] |}.

(** *** Escaping *)

(** The entity of a character, in the words of the spec: the five
    markup-sensitive characters (the ampersand 38, the angle brackets 60 and
    62, the double quote 34 and the apostrophe 39) have one, every other
    character stands for itself. *)
Definition entity (c : N) : jstring :=
  if (c =? 38)%N then "&amp;"
  else if (c =? 60)%N then "&lt;"
  else if (c =? 62)%N then "&gt;"
  else if (c =? JS.dquote)%N then "&quot;"
  else if (c =? 39)%N then "&#039;"
  else [c].

(** Escaping in the words of the spec: character by character. *)
Fixpoint escape_each (s : jstring) : jstring :=
  match s with
  | [] => []
  | c :: s' => entity c ++ escape_each s'
  end.

(** The five characters that have an entity. *)
Definition markup_sensitive (c : N) : bool :=
  ((c =? 38) || (c =? 60) || (c =? 62) || (c =? JS.dquote) || (c =? 39))%N.

(** The characters that can open or close markup: every one of the five
    but the ampersand, which the entities themselves start with. *)
Definition is_markup (c : N) : bool :=
  ((c =? 60) || (c =? 62) || (c =? JS.dquote) || (c =? 39))%N.

(** A text without any of them. *)
Fixpoint no_markup (s : jstring) : bool :=
  match s with
  | [] => true
  | c :: s' => negb (is_markup c) && no_markup s'
  end.

(** A text without [<]. *)
Fixpoint no_lt (s : jstring) : bool :=
  match s with
  | [] => true
  | c :: s' => negb (c =? 60)%N && no_lt s'
  end.

(** [replaceAll] with a pattern of one character. *)
Fixpoint replace_char (a : N) (rep s : jstring) : jstring :=
  match s with
  | [] => []
  | c :: s' =>
      (if (a =? c)%N then rep else [c]) ++ replace_char a rep s'
  end.

(** The five passes of [escapeHtml], each as a pass over the characters. *)
Definition escape_chain (s : jstring) : jstring :=
  replace_char 39 "&#039;"
    (replace_char JS.dquote "&quot;"
      (replace_char 62 "&gt;"
        (replace_char 60 "&lt;"
          (replace_char 38 "&amp;" s)))).

(** *** Markup of the output lines *)






(** *** The parser *)

(** A code unit put in front of a parsed string body. *)
Definition push_char (c : N) (r : option (jstring * jstring))
    : option (jstring * jstring) :=
  match r with
  | Some (body, rest) => Some (c :: body, rest)
  | None => None
  end.

(** What a run of the parser with fuel [f] guarantees: a result has read
    at least one character, and any fuel of at least twice the number of
    characters read (plus one for a list) gives the same result. *)
Definition value_ok (f : nat) : Prop :=
  forall s v rest, JSON.parse_value f s = Some (v, rest) ->
    length rest < length s /\
    forall g, 2 * (length s - length rest) <= g ->
              JSON.parse_value g s = Some (v, rest).

Definition elements_ok (f : nat) : Prop :=
  forall s l rest, JSON.parse_elements f s = Some (l, rest) ->
    length rest < length s /\
    forall g, 2 * (length s - length rest) + 1 <= g ->
              JSON.parse_elements g s = Some (l, rest).

Definition members_ok (f : nat) : Prop :=
  forall s l rest, JSON.parse_members f s = Some (l, rest) ->
    length rest < length s /\
    forall g, 2 * (length s - length rest) + 1 <= g ->
              JSON.parse_members g s = Some (l, rest).

(** *** Sample configurations *)

(** [CONFIG] with two more projects, six in all. *)
Definition six_projects : Config :=
  {| pageSize := 5; email := email CONFIG; socials := socials CONFIG;
     resumeUrl := resumeUrl CONFIG; bio := bio CONFIG;
     projects := projects CONFIG ++
       [ {| title := "five"; description := "<b>5</b>"; tech := ["a&b"];
            demoUrl := "#5"; sourceUrl := "#" |};
         {| title := "six"; description := "6"; tech := [];
            demoUrl := "#6"; sourceUrl := "#" |} ] |}.

(** A configuration whose free text tries to inject a script. *)
Definition hostile : Config :=
  {| pageSize := 5; email := email CONFIG; socials := socials CONFIG;
     resumeUrl := resumeUrl CONFIG;
     bio := {| name := "<script>"; role := "<script>"; location := "<script>";
               about := "<script>alert(1)</script>"; skills := ["<script>"] |};
     projects := [
       {| title := "<script>alert(1)</script>";
          description := "<script>";
          tech := ["<script>"; "a&b"];
          demoUrl := "#"; sourceUrl := "#" |} ] |}.

(** ** The rest of the page: events and the theme effect *)

(** What the user does: a key in the input box, an edit of the input box
    ([onChange]), a click on the theme button. *)
Inductive event : Type :=
  | KeyDown (k : key)
  | Change (text : jstring)
  | ToggleClick.

(** The handler the page attaches to each event. *)
Definition on_event (env : Env) (cfg : Config) (ev : event) : M unit :=
  match ev with
  | KeyDown k => onKeyDown env cfg k
  | Change text => setInput text
  | ToggleClick => toggleTheme
  end.

(** A session: the events are handled one after the other, each on the
    state the previous one left. *)
Fixpoint run (env : Env) (cfg : Config) (evs : list event) (st : State) : State :=
  match evs with
  | [] => st
  | ev :: evs' => run env cfg evs' (exec (on_event env cfg ev) st)
  end.

(** The text of the theme button once the page is mounted, and nothing
    before. *)
Definition toggle_label (mounted : bool) (t : jstring) : jstring :=
  if mounted then (if (t =? "light") then "light" else "dark") else "".

(** The tables of [THEMES]: for each theme, its CSS variables in source
    order. *)
Definition THEME_VARS : list (jstring * list (jstring * jstring)) :=
  [ ("dark",
     [ ("--bg", "#0b0e14"); ("--fg", "#e6edf3"); ("--muted", "#9aa4b2");
       ("--accent", "#7aa2f7"); ("--cursor", "#d0d7de"); ("--link", "#93c5fd");
       ("--tag", "#10b981") ]);
    ("matrix",
     [ ("--bg", "#000"); ("--fg", "#c2f5c2"); ("--muted", "#79c379");
       ("--accent", "#00ff66"); ("--cursor", "#b8ffb8"); ("--link", "#7CFFB2");
       ("--tag", "#00e676") ]);
    ("solarized",
     [ ("--bg", "#002b36"); ("--fg", "#eee8d5"); ("--muted", "#93a1a1");
       ("--accent", "#b58900"); ("--cursor", "#fdf6e3"); ("--link", "#6c71c4");
       ("--tag", "#2aa198") ]);
    ("light",
     [ ("--bg", "#f8fafc"); ("--fg", "#0f172a"); ("--muted", "#334155");
       ("--accent", "#2563eb"); ("--cursor", "#0f172a"); ("--link", "#1d4ed8");
       ("--tag", "#059669") ]) ].

Fixpoint table_get (tables : list (jstring * list (jstring * jstring)))
    (k : jstring) : option (list (jstring * jstring)) :=
  match tables with
  | [] => None
  | (k', v) :: tables' => if (k =? k') then Some v else table_get tables' k
  end.

(** The part of the document the theme effect writes: the inline style of
    the root element and its [data-theme] attribute. *)
Record Document : Type := {
  style : gmap jstring jstring;
  data_theme : option jstring
}.

(** [Object.entries(vars).forEach(([k, v]) => root.style.setProperty(k, v))] *)
Definition setProperties (vars : list (jstring * jstring))
    (m : gmap jstring jstring) : gmap jstring jstring :=
  foldl (fun acc kv => <[fst kv := snd kv]> acc) m vars.

(** The effect that applies the theme.  [THEMES[theme]] is a table for a
    supported theme; for a name inherited from [Object.prototype] it is a
    function or an object without enumerable properties of its own, so no
    variable is set; otherwise it is [undefined], on which [Object.entries]
    throws before anything is written. *)
Definition apply_theme (t : jstring) (d : Document) : completion Document :=
  match table_get THEME_VARS t with
  | Some vars =>
      Normal {| style := setProperties vars (style d); data_theme := Some t |}
  | None =>
      if JS.mem t JS.Object_prototype_keys
      then Normal {| style := style d; data_theme := Some t |}
      else Throw (TypeError "Cannot convert undefined or null to object")
  end.

(** *** Notions for the further properties *)

(** The identifiers of a block: its own, then those of its lines. *)
Definition block_ids (b : OutputBlock) : list jstring :=
  block_id b :: map line_id (lines b).

(** The identifiers of the scrollback. *)
Definition output_ids (st : State) : list jstring :=
  concat (map block_ids (output st)).

(** The identifiers of the scrollback are distinct values drawn from the
    UUID source so far. *)
Definition ids_fresh (env : Env) (st : State) : Prop :=
  exists ks : list nat,
    output_ids st = map (randomUUID env) ks /\
    NoDup ks /\ Forall (fun k => k < uuids st) ks.

(** A history entry as [handleCommand] writes them: not empty, and without
    white space at its ends. *)
Definition trimmed_entry (e : jstring) : Prop := e <> "" /\ JS.trim e = e.

(** The names the [switch] of [handleCommand] knows, and [search]. *)
Definition command_names : list jstring :=
  [ "/help"; "/projects"; "open"; "/about"; "/contact"; "copy"; "/resume";
    "/theme"; "/clear"; "cls"; "search" ].

(** The line [open n] as a user types it. *)
Definition open_line (n : JS.number) : jstring := "open " ++ JS.Number_toString n.

(** Whether an event is the Enter key, the one event that runs a command. *)
Definition is_enter (ev : event) : bool :=
  match ev with
  | KeyDown Enter => true
  | _ => false
  end.

(** The CSS variables a theme table defines. *)
Definition theme_variables : list jstring :=
  [ "--bg"; "--fg"; "--muted"; "--accent"; "--cursor"; "--link"; "--tag" ].

(** A text without any of the five characters that have an entity. *)
Fixpoint plain (s : jstring) : bool :=
  match s with
  | [] => true
  | c :: s' => negb (markup_sensitive c) && plain s'
  end.

(** Reading character data the way an HTML parser does, for the five
    entities the formatter writes: each stands for its character.  [skip]
    counts the characters of the current entity still to drop. *)
Fixpoint decode_from (s : jstring) (skip : nat) : jstring :=
  match s with
  | [] => []
  | c :: s' =>
      match skip with
      | S k => decode_from s' k
      | O =>
          if negb (c =? 38)%N then c :: decode_from s' 0
          else if JS.startsWith "amp;" s' then 38%N :: decode_from s' 4
          else if JS.startsWith "lt;" s' then 60%N :: decode_from s' 3
          else if JS.startsWith "gt;" s' then 62%N :: decode_from s' 3
          else if JS.startsWith "quot;" s' then JS.dquote :: decode_from s' 5
          else if JS.startsWith "#039;" s' then 39%N :: decode_from s' 5
          else c :: decode_from s' 0
      end
  end.

Definition decodeHtml (s : jstring) : jstring := decode_from s 0.

(** The commands that read nothing after their name. *)
Definition argumentless : list jstring :=
  [ "/about"; "/contact"; "/resume"; "/clear"; "cls" ].


(** * Properties *)


(** ** The built-ins on examples *)

Example split_examples :
  JS.split_ws "open  12 x" = ["open"; "12"; "x"] /\
  JS.split_ws " a" = [""; "a"] /\ JS.split_ws "a " = ["a"; ""] /\
  JS.split_ws "" = [""] /\ JS.split_ws "  " = [""; ""].
Proof. repeat split; reflexivity. Qed.

Example parseInt_examples :
  JS.parseInt "12abc" = JS.Finite 12 /\ JS.parseInt "-1" = JS.Finite (-1) /\
  JS.parseInt "abc" = JS.NaN /\ JS.parseInt "" = JS.NaN /\
  JS.parseInt "-" = JS.NaN /\ JS.parseInt "+7" = JS.Finite 7 /\
  JS.parseInt "-0" = JS.Finite 0 /\ JS.parseInt "1.5" = JS.Finite 1 /\
  JS.parseInt [0xA0; 49]%N = JS.Finite 1 /\
  JS.parseInt "9007199254740993" = JS.Finite 9007199254740992 /\
  JS.parseInt (repeat 57%N 400) = JS.Infinity false.
Proof. repeat split; vm_compute; reflexivity. Qed.

Example Number_toString_examples :
  JS.Number_toString (JS.Finite 0) = "0" /\
  JS.Number_toString (JS.Finite (-17)) = "-17" /\
  JS.Number_toString (JS.Finite (2 ^ 53)) = "9007199254740992" /\
  JS.Number_toString (JS.Finite (2 ^ 60)) = "1152921504606847000" /\
  JS.Number_toString (JS.Finite (10 ^ 21)) = "1e+21" /\
  JS.Number_toString (JS.parseInt "123456789012345678901234567890")
  = "1.2345678901234568e+29" /\
  JS.Number_toString (JS.Infinity true) = "-Infinity".
Proof. repeat split; vm_compute; reflexivity. Qed.

Example toLowerCase_examples :
  JS.toLowerCase "Hello /HELP" = "hello /help" /\
  JS.toLowerCase "ÉCOLE" = "école" /\
  JS.toLowerCase [0x212A]%N = "k" /\
  JS.toLowerCase "ΑΣ Σ" = "ας σ" /\
  JS.toLowerCase [0x130]%N = [0x69; 0x307]%N /\
  JS.toLowerCase [0xD801; 0xDC00]%N = [0xD801; 0xDC28]%N.
Proof. repeat split; vm_compute; reflexivity. Qed.

Example trim_examples :
  JS.trim "  /help  me " = "/help  me" /\ JS.trim "   " = "" /\
  JS.trim [0xA0; 0x2028; 47; 0x3000; 0xFEFF]%N = "/" /\
  JS.split_ws [111; 0xA0; 49]%N = ["o"; "1"] /\
  JS.replaceAll "ab" "x" "aabab" = "axx" /\
  JS.replaceAll "aa" "x" "aaa" = "xa".
Proof. repeat split; reflexivity. Qed.

(** ** Equality of strings *)

Lemma eqb_spec (a b : jstring) : reflect (a = b) (JS.eqb a b).
Proof.
  revert b. induction a as [|x a IH]; intros [|y b]; simpl;
    try (constructor; congruence).
  destruct (N.eqb_spec x y) as [->|Hxy]; simpl.
  - destruct (IH b) as [->|Hab]; constructor; congruence.
  - constructor. congruence.
Qed.

Lemma eqb_refl (a : jstring) : JS.eqb a a = true.
Proof. destruct (eqb_spec a a); congruence. Qed.

Lemma eqb_eq (a b : jstring) : JS.eqb a b = true <-> a = b.
Proof. destruct (eqb_spec a b); split; congruence. Qed.

Lemma eqb_neq (a b : jstring) : JS.eqb a b = false <-> a <> b.
Proof. destruct (eqb_spec a b); split; congruence. Qed.

(** ** White space, trimming and splitting *)

Lemma trimStart_spec (s : jstring) :
  exists pre, s = pre ++ JS.trimStart s /\ all_ws pre = true.
Proof.
  induction s as [|c s IH]; simpl.
  - exists ""; auto.
  - destruct (JS.is_ws c) eqn:Hc.
    + destruct IH as (pre & Hs & Hpre). exists (c :: pre); simpl.
      rewrite Hc, Hpre. split; [f_equal; exact Hs | reflexivity].
    + exists ""; auto.
Qed.

Lemma trimEnd_spec (s : jstring) :
  exists post, s = JS.trimEnd s ++ post /\ all_ws post = true.
Proof.
  induction s as [|c s IH]; simpl.
  - exists ""; auto.
  - destruct IH as (post & Hs & Hpost).
    destruct (JS.is_ws c) eqn:Hc; simpl.
    + destruct (eqb_spec (JS.trimEnd s) "") as [He|He].
      * exists (c :: post); simpl. rewrite Hc, Hpost.
        rewrite He in Hs; simpl in Hs. split; [f_equal; exact Hs | reflexivity].
      * exists post; simpl. split; [f_equal; exact Hs | exact Hpost].
    + exists post; simpl. split; [f_equal; exact Hs | exact Hpost].
Qed.

Lemma append_assoc (a b c : jstring) : (a ++ b) ++ c = a ++ (b ++ c).
Proof. symmetry. apply app_assoc. Qed.

(** [trim] removes white space at both ends and nothing else. *)
Lemma trim_spec (s : jstring) :
  exists pre post,
    s = pre ++ JS.trim s ++ post /\ all_ws pre = true /\ all_ws post = true.
Proof.
  destruct (trimStart_spec s) as (pre & Hs & Hpre).
  destruct (trimEnd_spec (JS.trimStart s)) as (post & Ht & Hpost).
  exists pre, post. unfold JS.trim. rewrite <- Ht. auto.
Qed.

Lemma split_ws_not_nil (s : jstring) : JS.split_ws s <> [].
Proof.
  induction s as [|c s IH]; simpl; [discriminate |].
  destruct (JS.is_ws c).
  - destruct (JS.starts_ws s); [exact IH | discriminate].
  - destruct (JS.split_ws s); discriminate.
Qed.

Lemma split_ws_head_empty (s : jstring) (rest : list jstring) :
  JS.split_ws s = "" :: rest -> s = "" \/ JS.starts_ws s = true.
Proof.
  destruct s as [|c s]; simpl; [auto |].
  destruct (JS.is_ws c); [auto |].
  destruct (JS.split_ws s); discriminate.
Qed.

Lemma starts_ws_trimStart (s : jstring) : JS.starts_ws (JS.trimStart s) = false.
Proof.
  induction s as [|c s IH]; simpl; [reflexivity |].
  destruct (JS.is_ws c) eqn:Hc; [exact IH | simpl; exact Hc].
Qed.

Lemma starts_ws_trimEnd (s : jstring) :
  JS.starts_ws s = false -> JS.starts_ws (JS.trimEnd s) = false.
Proof.
  destruct s as [|c s]; simpl; [reflexivity |].
  intros Hc. rewrite Hc. simpl. exact Hc.
Qed.

Lemma starts_ws_trim (s : jstring) : JS.starts_ws (JS.trim s) = false.
Proof. apply starts_ws_trimEnd, starts_ws_trimStart. Qed.

(** The command name of a line that is not blank is not empty. *)
Lemma name_not_empty (raw name : jstring) (rest : list jstring) :
  JS.trim raw <> "" -> JS.split_ws (JS.trim raw) = name :: rest -> name <> "".
Proof.
  intros Hne Hs ->. apply split_ws_head_empty in Hs as [H|H]; [auto |].
  rewrite starts_ws_trim in H. discriminate.
Qed.

Lemma split_ws_no_ws (s : jstring) :
  Forall (fun t => no_ws t = true) (JS.split_ws s).
Proof.
  induction s as [|c s IH]; simpl; [repeat constructor |].
  destruct (JS.is_ws c) eqn:Hc.
  - destruct (JS.starts_ws s); [exact IH | constructor; [reflexivity | exact IH]].
  - destruct (JS.split_ws s) as [|h t]; [repeat constructor; simpl; rewrite Hc; reflexivity |].
    inversion IH as [|? ? Hh Ht]; subst. constructor; [| exact Ht].
    simpl. rewrite Hc, Hh. reflexivity.
Qed.

Lemma ends_ws_trimEnd (s : jstring) : ends_ws (JS.trimEnd s) = false.
Proof.
  induction s as [|c s IH]; [reflexivity |]. simpl.
  destruct (JS.is_ws c) eqn:Hc; simpl.
  - destruct (eqb_spec (JS.trimEnd s) "") as [He|He]; [reflexivity |].
    simpl. destruct (eqb_spec (JS.trimEnd s) ""); [contradiction | exact IH].
  - destruct (eqb_spec (JS.trimEnd s) "") as [He|He]; [exact Hc | exact IH].
Qed.

Lemma split_ws_pieces (s : jstring) :
  ends_ws s = false ->
  match JS.split_ws s with
  | h :: t =>
      (s <> "" -> JS.starts_ws s = false -> h <> "") /\
      Forall (fun p => p <> "") t
  | [] => False
  end.
Proof.
  induction s as [|c s IH]; [intros _; split; [congruence | constructor] |].
  cbn [ends_ws JS.split_ws]. intros He.
  destruct (eqb_spec s "") as [->|Hs].
  - rewrite He. simpl. split; [intros _ _ H; discriminate H | constructor].
  - specialize (IH He). destruct (JS.is_ws c) eqn:Hc.
    + destruct (JS.starts_ws s) eqn:Hsw.
      * destruct (JS.split_ws s) as [|h t]; [exact IH |].
        destruct IH as [_ Ht]. split; [| exact Ht].
        intros _ H. simpl in H. congruence.
      * destruct (JS.split_ws s) as [|h t]; [destruct IH |].
        destruct IH as [Hh Ht]. split.
        -- intros _ H. simpl in H. congruence.
        -- constructor; [apply Hh; [exact Hs | reflexivity] | exact Ht].
    + destruct (JS.split_ws s) as [|h t]; [destruct IH |].
      destruct IH as [_ Ht]. split; [intros _ _; discriminate | exact Ht].
Qed.

(** The pieces of a line that is not blank are tokens. *)
Lemma tokens_of_line (raw : jstring) :
  JS.trim raw <> "" -> Forall is_token (JS.split_ws (JS.trim raw)).
Proof.
  intros Hne.
  pose proof (split_ws_no_ws (JS.trim raw)) as Hws.
  pose proof (split_ws_pieces (JS.trim raw) (ends_ws_trimEnd _)) as Hp.
  destruct (JS.split_ws (JS.trim raw)) as [|h t]; [destruct Hp |].
  destruct Hp as [Hh Ht].
  assert (Hall : Forall (fun p => p <> "") (h :: t)).
  { constructor; [apply Hh; [exact Hne | apply starts_ws_trim] | exact Ht]. }
  clear Hh Ht. induction Hall as [|x l Hx Hl IH]; [constructor |].
  inversion Hws; subst. constructor; [split; assumption | apply IH; assumption].
Qed.

Lemma split_ws_token (t : jstring) : no_ws t = true -> t <> "" -> JS.split_ws t = [t].
Proof.
  induction t as [|c t IH]; [congruence |]. simpl. intros H _.
  apply andb_true_iff in H as [Hc Ht]. apply negb_true_iff in Hc. rewrite Hc.
  destruct t as [|c' t]; [reflexivity |]. rewrite IH; [reflexivity | exact Ht | discriminate].
Qed.

Lemma split_ws_token_space (t r : jstring) :
  no_ws t = true -> JS.starts_ws r = false ->
  JS.split_ws (t ++ " " ++ r) = t :: JS.split_ws r.
Proof.
  intros Ht Hr. induction t as [|c t IH].
  - simpl. rewrite Hr. reflexivity.
  - simpl in Ht. apply andb_true_iff in Ht as [Hc Ht]. apply negb_true_iff in Hc.
    change ((c :: t) ++ " " ++ r) with (c :: (t ++ " " ++ r)).
    cbn [JS.split_ws]. rewrite Hc, (IH Ht). reflexivity.
Qed.

Lemma starts_ws_token (t r : jstring) :
  is_token t -> JS.starts_ws (t ++ r) = false.
Proof.
  intros [Hne Hws]. destruct t as [|c t]; [congruence |].
  simpl in *. apply andb_true_iff in Hws as [Hc _]. apply negb_true_iff in Hc. exact Hc.
Qed.

(** Joining tokens with single spaces and splitting gives the tokens back. *)
Lemma split_ws_join (l : list jstring) :
  l <> [] -> Forall is_token l -> JS.split_ws (JS.join " " l) = l.
Proof.
  intros Hne Hl. induction Hl as [|t l Ht Hl IH]; [congruence |].
  destruct l as [|u l].
  - apply split_ws_token; apply Ht.
  - change (JS.join " " (t :: u :: l)) with (t ++ " " ++ JS.join " " (u :: l)).
    rewrite split_ws_token_space; [| apply Ht |].
    + rewrite IH by discriminate. reflexivity.
    + inversion Hl as [|? ? [Hu Hw] ?]; subst.
      destruct u as [|c u]; [congruence |].
      simpl in Hw. apply andb_true_iff in Hw as [Hc _].
      apply negb_true_iff in Hc. destruct l; exact Hc.
Qed.


(** ** The shape of a handler run *)

Lemma handleCommand_blank (env : Env) (cfg : Config) (raw : jstring) (st : State) :
  JS.trim raw = "" -> handleCommand env cfg raw st = (Normal tt, st).
Proof. intros H. unfold handleCommand. rewrite H. reflexivity. Qed.

Lemma handleCommand_dispatch (env : Env) (cfg : Config) (raw name : jstring)
    (rest : list jstring) (st : State) :
  JS.trim raw <> "" ->
  JS.split_ws (JS.trim raw) = name :: rest ->
  handleCommand env cfg raw st
  = dispatch env cfg name rest (recorded (JS.trim raw) st).
Proof.
  intros Hne Hs. unfold handleCommand.
  destruct (eqb_spec (JS.trim raw) "") as [He|_]; [contradiction |].
  rewrite Hs. reflexivity.
Qed.

Lemma lower_name_not_blank (raw name key : jstring) (rest : list jstring) :
  JS.split_ws (JS.trim raw) = name :: rest ->
  JS.toLowerCase name = key -> key <> "" -> JS.trim raw <> "".
Proof.
  intros Hs Hk Hne He. rewrite He in Hs. simpl in Hs.
  injection Hs as <- _. vm_compute in Hk. congruence.
Qed.

Lemma recorded_fields (cmd : jstring) (st : State) :
  history (recorded cmd st) = history st ++ [cmd] /\
  historyIdx (recorded cmd st) = (-1)%Z /\
  input (recorded cmd st) = "" /\
  output (recorded cmd st) = output st /\
  theme (recorded cmd st) = theme st /\
  uuids (recorded cmd st) = uuids st /\
  calls (recorded cmd st) = calls st.
Proof. repeat split. Qed.

(** The frame of [print]: it adds one block and draws UUIDs, nothing else. *)
Lemma print_fields (env : Env) (ls : list jstring) (st : State) :
  fst (print env ls st) = Normal tt /\
  history (exec (print env ls) st) = history st /\
  historyIdx (exec (print env ls) st) = historyIdx st /\
  theme (exec (print env ls) st) = theme st /\
  calls (exec (print env ls) st) = calls st /\
  output (exec (print env ls) st) = output st ++ [make_block env (uuids st) ls].
Proof. repeat split. Qed.

Lemma map_html_imap (g : nat -> jstring) (ls : list jstring) :
  map html (imap (fun i h => {| line_id := g i; html := h |}) ls) = ls.
Proof.
  revert g. induction ls as [|l ls IH]; intros g; simpl; [reflexivity |].
  f_equal. exact (IH (g ∘ S)).
Qed.

Lemma block_html_make_block (env : Env) (k : nat) (ls : list jstring) :
  block_html (make_block env k ls) = ls.
Proof.
  unfold block_html, make_block; simpl.
  exact (map_html_imap (fun i => randomUUID env (S (k + i))) ls).
Qed.

(** No command touches the history or its cursor. *)
Lemma dispatch_history (env : Env) (cfg : Config) (name : jstring)
    (rest : list jstring) (st : State) :
  history (exec (dispatch env cfg name rest) st) = history st /\
  historyIdx (exec (dispatch env cfg name rest) st) = historyIdx st.
Proof.
  unfold dispatch, exec, cmd_help, cmd_projects, cmd_open, cmd_about,
    cmd_contact, cmd_copy, cmd_resume, cmd_theme, cmd_clear, cmd_search,
    cmd_not_found, try_catch, clipboard_writeText, window_open, bind.
  repeat match goal with
         | |- context [if ?x then _ else _] => destruct x; simpl
         | |- context [match ?x with _ => _ end] => destruct x; simpl
         end.
  all: split; reflexivity.
Qed.

(** ** History recording (C1) *)

(** C1, as stated, fails: a submitted line that is not empty is not always
    appended exactly as typed.  The line of a space and [/help] is recorded
    without its leading space. *)
Lemma history_entry_is_not_verbatim :
  ~ (forall (env : Env) (cfg : Config) (raw : jstring) (st : State),
       raw <> "" ->
       history (exec (handleCommand env cfg raw) st) = history st ++ [raw]).
Proof.
  intros H.
  specialize (H env0 CONFIG " /help" (new_session []) ltac:(discriminate)).
  vm_compute in H. discriminate H.
Qed.

(** C1 (amended): for every submitted line that is not blank, the line with
    the white space at its two ends removed (and nothing else changed) is
    appended as one new last entry of the history and the cursor is set to
    -1; the command then runs in that state, so both happen before the
    handler runs and before any output is produced, and they still hold when
    it is done.  A blank line changes nothing. *)
Theorem handleCommand_records_trimmed_line
    (env : Env) (cfg : Config) (raw : jstring) (st : State) :
  (JS.trim raw = "" -> handleCommand env cfg raw st = (Normal tt, st)) /\
  (JS.trim raw <> "" ->
   (exists pre post,
      raw = pre ++ JS.trim raw ++ post /\
      all_ws pre = true /\ all_ws post = true) /\
   let st1 := recorded (JS.trim raw) st in
   history st1 = history st ++ [JS.trim raw] /\
   historyIdx st1 = (-1)%Z /\
   output st1 = output st /\
   calls st1 = calls st /\
   (exists name rest,
      JS.split_ws (JS.trim raw) = name :: rest /\
      handleCommand env cfg raw st = dispatch env cfg name rest st1) /\
   history (exec (handleCommand env cfg raw) st) = history st ++ [JS.trim raw] /\
   historyIdx (exec (handleCommand env cfg raw) st) = (-1)%Z).
Proof.
  split; [apply handleCommand_blank |].
  intros Hne. split; [apply trim_spec |].
  cbv zeta. repeat (split; [reflexivity |]).
  destruct (JS.split_ws (JS.trim raw)) as [|name rest] eqn:Hs.
  { exfalso. exact (split_ws_not_nil _ Hs). }
  pose proof (handleCommand_dispatch env cfg raw name rest st Hne Hs) as Hd.
  split; [exists name, rest; split; [reflexivity | exact Hd] |].
  unfold exec. rewrite Hd.
  destruct (dispatch_history env cfg name rest (recorded (JS.trim raw) st))
    as [Hh Hi].
  unfold exec in Hh, Hi. rewrite Hh, Hi. split; reflexivity.
Qed.

Lemma handleCommand_records_trimmed_line_witness :
  JS.trim "  /help  " <> "" /\
  history (exec (handleCommand env0 CONFIG "  /help  ") (new_session ["cls"]))
  = ["cls"; "/help"] /\
  historyIdx (exec (handleCommand env0 CONFIG "  /help  ") (new_session ["cls"]))
  = (-1)%Z.
Proof.
  assert (Hne : JS.trim "  /help  " <> "") by (vm_compute; discriminate).
  split; [exact Hne |].
  destruct (handleCommand_records_trimmed_line env0 CONFIG "  /help  "
              (new_session ["cls"])) as [_ H].
  destruct (H Hne) as (_ & _ & _ & _ & _ & _ & Hh & Hi).
  split; [exact Hh | exact Hi].
Defined.

(** ** Routing *)

Lemma dispatch_clear (env : Env) (cfg : Config) (name : jstring) (rest : list jstring) :
  JS.toLowerCase name = "/clear" \/ JS.toLowerCase name = "cls" ->
  dispatch env cfg name rest = cmd_clear.
Proof. intros [H|H]; unfold dispatch; rewrite H; reflexivity. Qed.

Lemma dispatch_copy (env : Env) (cfg : Config) (name : jstring) (rest : list jstring) :
  JS.toLowerCase name = "copy" ->
  dispatch env cfg name rest = cmd_copy env cfg (JS.join " " rest).
Proof. intros H; unfold dispatch; rewrite H; reflexivity. Qed.

Lemma dispatch_open (env : Env) (cfg : Config) (name : jstring) (rest : list jstring) :
  JS.toLowerCase name = "open" ->
  dispatch env cfg name rest = cmd_open env cfg rest.
Proof. intros H; unfold dispatch; rewrite H; reflexivity. Qed.

Lemma dispatch_help (env : Env) (cfg : Config) (name : jstring) (rest : list jstring) :
  JS.toLowerCase name = "/help" ->
  dispatch env cfg name rest = cmd_help env (JS.join " " rest).
Proof. intros H; unfold dispatch; rewrite H; reflexivity. Qed.

Lemma dispatch_theme (env : Env) (cfg : Config) (name : jstring) (rest : list jstring) :
  JS.toLowerCase name = "/theme" ->
  dispatch env cfg name rest = cmd_theme env rest.
Proof. intros H; unfold dispatch; rewrite H; reflexivity. Qed.

Lemma dispatch_projects (env : Env) (cfg : Config) (name : jstring) (rest : list jstring) :
  JS.toLowerCase name = "/projects" ->
  dispatch env cfg name rest = cmd_projects env cfg rest.
Proof. intros H; unfold dispatch; rewrite H; reflexivity. Qed.

Lemma dispatch_search (env : Env) (cfg : Config) (name : jstring) (rest : list jstring) :
  JS.toLowerCase name = "search" ->
  dispatch env cfg name rest = cmd_search env cfg (JS.join " " rest).
Proof. intros H; unfold dispatch; rewrite H; reflexivity. Qed.

(** A line whose command name lower-cases to [key] runs the command on the
    recorded state. *)
Lemma handleCommand_routes (env : Env) (cfg : Config) (raw name key : jstring)
    (rest : list jstring) (st : State) :
  JS.split_ws (JS.trim raw) = name :: rest ->
  JS.toLowerCase name = key -> key <> "" ->
  handleCommand env cfg raw st
  = dispatch env cfg name rest (recorded (JS.trim raw) st).
Proof.
  intros Hs Hk Hne. apply handleCommand_dispatch; [| exact Hs].
  exact (lower_name_not_blank raw name key rest Hs Hk Hne).
Qed.

(** ** Clearing the scrollback (C9) *)

(** C9: [/clear] and its alias [cls] (in any letter case) leave the
    scrollback empty and print nothing of their own (no block is built, no
    UUID drawn); the history only gains the submitted line, and the theme and
    the capability trace are as before. *)
Theorem clear_empties_scrollback_only
    (env : Env) (cfg : Config) (raw name : jstring) (rest : list jstring)
    (st : State) :
  JS.split_ws (JS.trim raw) = name :: rest ->
  JS.toLowerCase name = "/clear" \/ JS.toLowerCase name = "cls" ->
  outcome (handleCommand env cfg raw) st = Normal tt /\
  output (exec (handleCommand env cfg raw) st) = [] /\
  history (exec (handleCommand env cfg raw) st) = history st ++ [JS.trim raw] /\
  uuids (exec (handleCommand env cfg raw) st) = uuids st /\
  calls (exec (handleCommand env cfg raw) st) = calls st /\
  theme (exec (handleCommand env cfg raw) st) = theme st.
Proof.
  intros Hs Hk.
  assert (Hr : handleCommand env cfg raw st
               = cmd_clear (recorded (JS.trim raw) st)).
  { rewrite <- (dispatch_clear env cfg name rest Hk).
    destruct Hk as [Hk|Hk];
      eapply handleCommand_routes; eauto; discriminate. }
  unfold outcome, exec. rewrite Hr. repeat split.
Qed.

Lemma clear_empties_scrollback_only_witness :
  JS.split_ws (JS.trim "CLS now") = ["CLS"; "now"] /\
  output (exec (handleCommand env0 CONFIG "CLS now")
            (exec (handleCommand env0 CONFIG "/about") (new_session [])))
  = [] /\
  history (exec (handleCommand env0 CONFIG "CLS now")
             (exec (handleCommand env0 CONFIG "/about") (new_session [])))
  = ["/about"; "CLS now"].
Proof.
  assert (Hs : JS.split_ws (JS.trim "CLS now") = ["CLS"; "now"]) by reflexivity.
  split; [exact Hs |].
  destruct (clear_empties_scrollback_only env0 CONFIG "CLS now" "CLS" ["now"]
              (exec (handleCommand env0 CONFIG "/about") (new_session []))
              Hs (or_intror eq_refl))
    as (_ & Ho & Hh & _).
  split; [exact Ho | exact Hh].
Defined.

(** ** Copying the e-mail address (C8) *)

(** C8: [copy] with an argument that lower-cases to [email] calls the
    clipboard capability once, with the configured address; the handler then
    prints the confirmation when the call resolves and the one
    clipboard-blocked line when it rejects, and completes normally either
    way.  With any other argument it prints the usage line and calls no
    capability. *)
Theorem copy_email_reports_clipboard_outcome
    (env : Env) (cfg : Config) (raw name : jstring) (rest : list jstring)
    (st : State) :
  JS.split_ws (JS.trim raw) = name :: rest ->
  JS.toLowerCase name = "copy" ->
  (JS.toLowerCase (JS.join " " rest) = "email" ->
   handleCommand env cfg raw st
   = print env
       [if clipboard_resolves env (email cfg)
        then "Email copied to clipboard."
        else "Copy failed — your browser blocked clipboard access."]
       (exec (record_call (ClipboardWriteText (email cfg)))
             (recorded (JS.trim raw) st)) /\
   outcome (handleCommand env cfg raw) st = Normal tt /\
   calls (exec (handleCommand env cfg raw) st)
   = calls st ++ [ClipboardWriteText (email cfg)]) /\
  (JS.toLowerCase (JS.join " " rest) <> "email" ->
   handleCommand env cfg raw st
   = print env ["Usage: copy email"] (recorded (JS.trim raw) st) /\
   outcome (handleCommand env cfg raw) st = Normal tt /\
   calls (exec (handleCommand env cfg raw) st) = calls st).
Proof.
  intros Hs Hk.
  assert (Hr : handleCommand env cfg raw st
               = cmd_copy env cfg (JS.join " " rest) (recorded (JS.trim raw) st)).
  { rewrite <- (dispatch_copy env cfg name rest Hk).
    eapply handleCommand_routes; eauto; discriminate. }
  unfold outcome, exec. rewrite Hr. unfold cmd_copy. split; intros Ha.
  - rewrite Ha. simpl.
    unfold try_catch, clipboard_writeText, bind, record_call, modify; simpl.
    destruct (clipboard_resolves env (email cfg)); simpl; repeat split.
  - destruct (eqb_spec (JS.toLowerCase (JS.join " " rest)) "email");
      [contradiction |]. repeat split.
Qed.

Lemma copy_email_reports_clipboard_outcome_witness :
  JS.split_ws (JS.trim "copy EMAIL") = ["copy"; "EMAIL"] /\
  map block_html
    (output (exec (handleCommand
                     {| randomUUID := randomUUID env0;
                        clipboard_resolves := fun _ => false |}
                     CONFIG "copy EMAIL") (new_session [])))
  = [["Copy failed — your browser blocked clipboard access."]] /\
  map block_html
    (output (exec (handleCommand env0 CONFIG "copy EMAIL") (new_session [])))
  = [["Email copied to clipboard."]] /\
  calls (exec (handleCommand env0 CONFIG "copy EMAIL") (new_session []))
  = [ClipboardWriteText "hello@example.com"].
Proof.
  assert (Hs : JS.split_ws (JS.trim "copy EMAIL") = ["copy"; "EMAIL"])
    by reflexivity.
  assert (Hk : JS.toLowerCase "copy" = "copy") by (vm_compute; reflexivity).
  assert (Ha : JS.toLowerCase (JS.join " " ["EMAIL"]) = "email")
    by (vm_compute; reflexivity).
  split; [exact Hs |].
  destruct (copy_email_reports_clipboard_outcome
              {| randomUUID := randomUUID env0;
                 clipboard_resolves := fun _ => false |}
              CONFIG "copy EMAIL" "copy" ["EMAIL"] (new_session []) Hs Hk)
    as [H _].
  destruct (H Ha) as (He & _).
  destruct (copy_email_reports_clipboard_outcome env0 CONFIG "copy EMAIL"
              "copy" ["EMAIL"] (new_session []) Hs Hk) as [H0 _].
  destruct (H0 Ha) as (He0 & _ & Hc0).
  split; [unfold exec; rewrite He; reflexivity |].
  split; [unfold exec; rewrite He0; reflexivity | exact Hc0].
Defined.

(** A no-break space separates words like any other white space: the line
    [copy], NO-BREAK SPACE, [email] writes the clipboard. *)
Example copy_after_no_break_space :
  calls (exec (handleCommand env0 CONFIG ("copy" ++ [0xA0%N] ++ "email"))
              (new_session []))
  = [ClipboardWriteText "hello@example.com"].
Proof. vm_compute. reflexivity. Qed.


(** ** History navigation (C2) *)

(** C2, as stated, fails: Down-arrow at the newest entry does not leave
    history browsing.  After the commands a, b, c and one Up-arrow the
    cursor is 2; Down-arrow keeps it at 2 and keeps "c" in the input. *)
Lemma arrow_down_at_newest_keeps_browsing :
  ~ (forall (env : Env) (cfg : Config) (st : State),
       history st <> [] ->
       historyIdx st = (Z.of_nat (length (history st)) - 1)%Z ->
       historyIdx (exec (onKeyDown env cfg ArrowDown) st) = (-1)%Z /\
       input (exec (onKeyDown env cfg ArrowDown) st) = "").
Proof.
  intros H.
  destruct (H env0 CONFIG (browsing_abc 2) ltac:(discriminate) eq_refl)
    as [Hi _].
  vm_compute in Hi. discriminate Hi.
Qed.

Lemma index_in_range {A} (l : list A) (i : Z) :
  (0 <= i < Z.of_nat (length l))%Z ->
  exists e, nth_error l (Z.to_nat i) = Some e /\ JS.index l i = Some e.
Proof.
  intros Hi. unfold JS.index.
  destruct (Z.ltb_spec i 0); [lia |].
  destruct (Z.leb_spec (Z.of_nat (length l)) i); [lia |]. cbn [orb].
  destruct (nth_error l (Z.to_nat i)) as [e|] eqn:He; [eauto |].
  apply nth_error_None in He. lia.
Qed.

(** C2 (amended): with a history that is not empty, Down-arrow changes the
    cursor and the input buffer only.  While browsing at an entry before the
    newest one it moves the cursor one entry on and shows that entry; at the
    newest entry the cursor stays there and that entry is shown again; when
    not browsing (cursor -1) the cursor stays -1 and the input buffer is
    cleared. *)
Theorem arrow_down_stops_at_newest
    (env : Env) (cfg : Config) (st : State) :
  history st <> [] ->
  let len := Z.of_nat (length (history st)) in
  let st' := exec (onKeyDown env cfg ArrowDown) st in
  outcome (onKeyDown env cfg ArrowDown) st = Normal tt /\
  history st' = history st /\ output st' = output st /\
  (historyIdx st = (-1)%Z -> historyIdx st' = (-1)%Z /\ input st' = "") /\
  ((0 <= historyIdx st < len - 1)%Z ->
   historyIdx st' = (historyIdx st + 1)%Z /\
   nth_error (history st) (Z.to_nat (historyIdx st + 1)) = Some (input st')) /\
  (historyIdx st = (len - 1)%Z ->
   historyIdx st' = (len - 1)%Z /\
   nth_error (history st) (Z.to_nat (len - 1)) = Some (input st')).
Proof.
  intros Hne len st'.
  assert (Hlen : (1 <= len)%Z).
  { subst len. destruct (history st); [contradiction | simpl; lia]. }
  subst st'. unfold exec, outcome, onKeyDown.
  destruct (Nat.eqb_spec (length (history st)) 0) as [H0|_]; [lia |].
  fold len. repeat (split; [reflexivity |]). simpl.
  split; [| split].
  - intros ->. simpl. split; reflexivity.
  - intros Hi.
    destruct (Z.eqb_spec (historyIdx st) (-1)) as [?|_]; [lia |].
    rewrite Z.min_r by lia.
    destruct (Z.eqb_spec (historyIdx st + 1) (-1)) as [?|_]; [lia |].
    split; [reflexivity |].
    destruct (index_in_range (history st) (historyIdx st + 1) ltac:(lia))
      as (e & Hn & Hx).
    unfold history_entry. rewrite Hx, Hn. reflexivity.
  - intros Hi.
    destruct (Z.eqb_spec (historyIdx st) (-1)) as [?|_]; [lia |].
    rewrite Hi, Z.min_l by lia.
    destruct (Z.eqb_spec (len - 1) (-1)) as [?|_]; [lia |].
    split; [reflexivity |].
    destruct (index_in_range (history st) (len - 1) ltac:(lia))
      as (e & Hn & Hx).
    unfold history_entry. rewrite Hx, Hn. reflexivity.
Qed.

Lemma arrow_down_stops_at_newest_witness :
  history (browsing_abc 1) <> [] /\
  historyIdx (exec (onKeyDown env0 CONFIG ArrowDown) (browsing_abc 1)) = 2%Z /\
  nth_error (history (browsing_abc 1)) 2
  = Some (input (exec (onKeyDown env0 CONFIG ArrowDown) (browsing_abc 1))).
Proof.
  assert (Hne : history (browsing_abc 1) <> []) by discriminate.
  split; [exact Hne |].
  destruct (arrow_down_stops_at_newest env0 CONFIG (browsing_abc 1) Hne)
    as (_ & _ & _ & _ & H & _).
  exact (H ltac:(simpl; lia)).
Defined.

(** The spec's walk: after a, b, c, Up shows c, Up shows b, Down shows c. *)
Example history_walk :
  let up := onKeyDown env0 CONFIG ArrowUp in
  let down := onKeyDown env0 CONFIG ArrowDown in
  let s1 := exec up (new_session ["a"; "b"; "c"]) in
  let s2 := exec up s1 in
  let s3 := exec down s2 in
  let s4 := exec down s3 in
  (input s1, input s2, input s3, input s4) = ("c", "b", "c", "c") /\
  (historyIdx s1, historyIdx s2, historyIdx s3, historyIdx s4)
  = (2, 1, 2, 2)%Z.
Proof. split; reflexivity. Qed.

(** The cursor is off or at an entry, whatever key is pressed. *)
Lemma cursor_valid_onKeyDown (env : Env) (cfg : Config) (k : key) (st : State) :
  cursor_valid st -> cursor_valid (exec (onKeyDown env cfg k) st).
Proof.
  intros Hv. unfold exec, onKeyDown. destruct k.
  - simpl. unfold handleCommand.
    destruct (JS.trim (input st) =? "") eqn:Hb; [exact Hv |].
    left. unfold bind at 1. simpl.
    destruct (JS.split_ws (JS.trim (input st))) as [|name rest]; [reflexivity |].
    apply (dispatch_history env cfg name rest (recorded (JS.trim (input st)) st)).
  - destruct (Nat.eqb_spec (length (history st)) 0); [exact Hv |].
    right. unfold cursor_valid in Hv. cbn.
    destruct (Z.eqb_spec (historyIdx st) (-1)); lia.
  - destruct (Nat.eqb_spec (length (history st)) 0); [exact Hv |].
    unfold cursor_valid in *. cbn.
    destruct (Z.eqb_spec (historyIdx st) (-1)); [left; reflexivity | right; lia].
  - exact Hv.
Qed.


(** ** Opening a project (C3) *)

Lemma digits_prefix_Some (s : jstring) (a : Z) :
  JS.digits_prefix s (Some a) <> None.
Proof.
  revert a. induction s as [|c s IH]; intros a; simpl; [discriminate |].
  destruct (JS.is_digit c); [apply IH | discriminate].
Qed.

Lemma digits_prefix_None (s : jstring) :
  JS.digits_prefix s None = None <->
  match s with c :: _ => JS.is_digit c | [] => false end = false.
Proof.
  destruct s as [|c s]; simpl; [tauto |].
  destruct (JS.is_digit c); split; intros H; try reflexivity; try discriminate.
  exfalso. exact (digits_prefix_Some _ _ H).
Qed.

Lemma of_integer_not_NaN (z : Z) : JS.of_integer z <> JS.NaN.
Proof. unfold JS.of_integer. destruct (_ <=? _)%Z; discriminate. Qed.

(** [parseInt] gives [NaN] exactly on the tokens without a numeric prefix. *)
Lemma parseInt_NaN (tok : jstring) :
  JS.parseInt tok = JS.NaN <-> numeric_prefix tok = false.
Proof.
  unfold JS.parseInt, numeric_prefix. cbv zeta.
  rewrite <- digits_prefix_None.
  destruct (JS.digits_prefix _ None); split; intros H;
    try reflexivity; try discriminate H.
  exfalso. exact (of_integer_not_NaN _ H).
Qed.

(** C3, as stated, fails on [open -1]: the argument -1 is a number other
    than 0, so the usage message is not printed; the project lookup misses
    and the line is [Project -1 not found.] *)
Lemma open_minus_one_is_not_usage :
  map block_html
    (output (exec (handleCommand env0 CONFIG "open -1") (new_session [])))
  = [["Project -1 not found."]] /\
  map block_html
    (output (exec (handleCommand env0 CONFIG "open -1") (new_session [])))
  <> [["Usage: open <n> — open the nth project demo."]].
Proof. split; [vm_compute; reflexivity | vm_compute; discriminate]. Qed.

Lemma index_out_of_range {A} (l : list A) (i : Z) :
  (i < 0 \/ Z.of_nat (length l) <= i)%Z -> JS.index l i = None.
Proof.
  intros Hi. unfold JS.index.
  destruct (Z.ltb_spec i 0); [reflexivity |].
  destruct (Z.leb_spec (Z.of_nat (length l)) i); [reflexivity | lia].
Qed.

(** C3 (amended): for the [open] command, with [n] the number [parseInt]
    reads from the first argument: a missing argument, an argument without
    a numeric prefix (no digit after an optional sign) and an argument read
    as 0 each produce the usage message; a negative [n] such as -1, an [n]
    greater than the project count and an infinite [n] produce [Project n
    not found.], with [n] as JavaScript prints that number; an [n] from 1 to
    the project count makes exactly one open-URL call, with the [demoUrl] of
    the [n]-th project, and prints [Opening <title>...] with the title
    escaped. *)
Theorem open_resolves_project_number
    (env : Env) (cfg : Config) (raw name : jstring) (rest : list jstring)
    (st : State) :
  JS.split_ws (JS.trim raw) = name :: rest ->
  JS.toLowerCase name = "open" ->
  let st1 := recorded (JS.trim raw) st in
  let n := JS.parseInt (first_or rest "") in
  (rest = [] -> n = JS.NaN) /\
  (n = JS.NaN <-> numeric_prefix (first_or rest "") = false) /\
  (n = JS.NaN \/ n = JS.Finite 0 ->
   handleCommand env cfg raw st
   = print env ["Usage: open <n> — open the nth project demo."] st1) /\
  (forall z, n = JS.Finite z ->
     (z < 0 \/ Z.of_nat (length (projects cfg)) < z)%Z ->
     handleCommand env cfg raw st
     = print env ["Project " ++ JS.Number_toString n ++ " not found."] st1) /\
  (forall negative, n = JS.Infinity negative ->
     handleCommand env cfg raw st
     = print env ["Project " ++ JS.Number_toString n ++ " not found."] st1) /\
  (forall z, n = JS.Finite z ->
     (1 <= z <= Z.of_nat (length (projects cfg)))%Z ->
     exists p,
       nth_error (projects cfg) (Z.to_nat (z - 1)) = Some p /\
       handleCommand env cfg raw st
       = print env ["Opening " ++ escapeHtml (title p) ++ "..."]
           (exec (window_open (demoUrl p) "_blank") st1) /\
       calls (exec (handleCommand env cfg raw) st)
       = calls st ++ [WindowOpen (demoUrl p) "_blank"]).
Proof.
  intros Hs Hk st1 n.
  assert (Hr : handleCommand env cfg raw st = cmd_open env cfg rest st1).
  { rewrite <- (dispatch_open env cfg name rest Hk).
    eapply handleCommand_routes; eauto; discriminate. }
  split; [intros ->; reflexivity |].
  split; [apply parseInt_NaN |].
  unfold exec. rewrite Hr. unfold cmd_open. cbv zeta. fold n.
  split; [| split; [| split]].
  - intros [-> | ->]; reflexivity.
  - intros z Hn Hz. rewrite Hn. simpl.
    destruct (Z.eqb_spec z 0) as [?|_]; [lia |].
    rewrite index_out_of_range by lia. reflexivity.
  - intros negative ->. reflexivity.
  - intros z -> Hz. simpl.
    destruct (Z.eqb_spec z 0) as [?|_]; [lia |].
    destruct (index_in_range (projects cfg) (z - 1) ltac:(lia))
      as (p & Hn & Hx).
    exists p. rewrite Hx. split; [exact Hn |]. split; reflexivity.
Qed.

Lemma open_resolves_project_number_witness :
  JS.split_ws (JS.trim "OPEN 2 please") = ["OPEN"; "2"; "please"] /\
  calls (exec (handleCommand env0 CONFIG "OPEN 2 please") (new_session []))
  = [WindowOpen "#" "_blank"] /\
  map block_html
    (output (exec (handleCommand env0 CONFIG "open 7") (new_session [])))
  = [["Project 7 not found."]].
Proof.
  assert (Hs : JS.split_ws (JS.trim "OPEN 2 please") = ["OPEN"; "2"; "please"])
    by reflexivity.
  assert (Hk : JS.toLowerCase "OPEN" = "open") by (vm_compute; reflexivity).
  split; [exact Hs |].
  destruct (open_resolves_project_number env0 CONFIG "OPEN 2 please" "OPEN"
              ["2"; "please"] (new_session []) Hs Hk)
    as (_ & _ & _ & _ & _ & Hv).
  destruct (Hv 2%Z ltac:(vm_compute; reflexivity) ltac:(simpl; lia))
    as (p & Hp & _ & Hc).
  injection Hp as <-. split; [exact Hc |].
  assert (Hs7 : JS.split_ws (JS.trim "open 7") = ["open"; "7"]) by reflexivity.
  assert (Hk7 : JS.toLowerCase "open" = "open") by (vm_compute; reflexivity).
  destruct (open_resolves_project_number env0 CONFIG "open 7" "open"
              ["7"] (new_session []) Hs7 Hk7)
    as (_ & _ & _ & Hn & _).
  unfold exec.
  rewrite (Hn 7%Z ltac:(vm_compute; reflexivity) ltac:(simpl; lia)).
  vm_compute. reflexivity.
Defined.

(** [parseInt] reads the numeric prefix of its argument, after any white
    space, and rounds what it reads to a number. *)
Example open_numeric_prefix :
  map block_html
    (output (exec (handleCommand env0 CONFIG "open 1abc") (new_session [])))
  = [["Opening zensu..."]] /\
  map block_html
    (output (exec (handleCommand env0 CONFIG "open abc") (new_session [])))
  = [["Usage: open <n> — open the nth project demo."]] /\
  map block_html
    (output (exec (handleCommand env0 CONFIG "open") (new_session [])))
  = [["Usage: open <n> — open the nth project demo."]] /\
  map block_html
    (output (exec (handleCommand env0 CONFIG "open 0") (new_session [])))
  = [["Usage: open <n> — open the nth project demo."]] /\
  map block_html
    (output (exec (handleCommand env0 CONFIG ("open" ++ [0xA0%N] ++ "1"))
                  (new_session [])))
  = [["Opening zensu..."]] /\
  map block_html
    (output (exec (handleCommand env0 CONFIG "open 1000000000000000000000")
                  (new_session [])))
  = [["Project 1e+21 not found."]] /\
  map block_html
    (output (exec (handleCommand env0 CONFIG "open 9007199254740993")
                  (new_session [])))
  = [["Project 9007199254740992 not found."]] /\
  map block_html
    (output (exec (handleCommand env0 CONFIG ("open " ++ repeat 57%N 400))
                  (new_session [])))
  = [["Project Infinity not found."]].
Proof. repeat split; vm_compute; reflexivity. Qed.


(** ** Help topics (C10) *)

(** The topic is looked up as typed: a topic that is neither an own key of
    [details] nor a name inherited from [Object.prototype] has no details. *)
Lemma help_unknown_topic
    (env : Env) (cfg : Config) (raw name : jstring) (rest : list jstring)
    (st : State) :
  JS.split_ws (JS.trim raw) = name :: rest ->
  JS.toLowerCase name = "/help" ->
  JS.join " " rest <> "" ->
  JS.own_get details (JS.join " " rest) = None ->
  JS.mem (JS.join " " rest) JS.Object_prototype_keys = false ->
  handleCommand env cfg raw st
  = print env [escapeHtml (no_details (JS.join " " rest))]
      (recorded (JS.trim raw) st).
Proof.
  intros Hs Hk Ha Hown Hproto.
  assert (Hr : handleCommand env cfg raw st
               = cmd_help env (JS.join " " rest) (recorded (JS.trim raw) st)).
  { rewrite <- (dispatch_help env cfg name rest Hk).
    eapply handleCommand_routes; eauto; discriminate. }
  rewrite Hr. unfold cmd_help, JS.get.
  destruct (eqb_spec (JS.join " " rest) "") as [?|_]; [contradiction |].
  rewrite Hown, Hproto. reflexivity.
Qed.

Example help_topic_is_case_sensitive :
  map block_html
    (output (exec (handleCommand env0 CONFIG "/HELP /PROJECTS") (new_session [])))
  = [["No details for &#039;/PROJECTS&#039;."]] /\
  map block_html
    (output (exec (handleCommand env0 CONFIG "/help projects") (new_session [])))
  = [["No details for &#039;projects&#039;."]] /\
  map block_html
    (output (exec (handleCommand env0 CONFIG "/help /projects") (new_session [])))
  = [["Usage: /projects [page] — paginated list. &#039;open &lt;n&gt;&#039; to open."]].
Proof. repeat split; reflexivity. Qed.

(** C10 fails on the code at the topic [constructor]: it is not one of the
    seven keys, yet [details["constructor"]] is the function inherited from
    [Object.prototype], which is truthy, so the fallback text is not taken
    and [escapeHtml] throws on it.  The handler rejects; the line is
    recorded in the history and nothing is printed. *)
Theorem help_inherited_topic_throws (env : Env) (cfg : Config) (st : State) :
  JS.own_get details "constructor" = None /\
  handleCommand env cfg "/help constructor" st
  = (Throw (TypeError "s.replaceAll is not a function"),
     recorded "/help constructor" st) /\
  output (exec (handleCommand env cfg "/help constructor") st) = output st /\
  handleCommand env cfg "/help constructor" st
  <> print env [escapeHtml (no_details "constructor")]
       (recorded "/help constructor" st).
Proof.
  split; [reflexivity |]. split; [reflexivity |]. split; [reflexivity |].
  intros H. discriminate H.
Qed.

(** ** Themes and their persistence (C7) *)

(** A supported theme, in any letter case, is set and confirmed. *)
Lemma theme_supported_is_set
    (env : Env) (cfg : Config) (raw name tok : jstring) (rest : list jstring)
    (st : State) :
  JS.split_ws (JS.trim raw) = name :: tok :: rest ->
  JS.toLowerCase name = "/theme" ->
  In (JS.toLowerCase tok) THEMES ->
  handleCommand env cfg raw st
  = print env ["Theme set to " ++ JS.toLowerCase tok ++ "."]
      (exec (setTheme (JS.toLowerCase tok)) (recorded (JS.trim raw) st)) /\
  theme (exec (handleCommand env cfg raw) st) = JS.toLowerCase tok.
Proof.
  intros Hs Hk Hin.
  assert (Hr : handleCommand env cfg raw st
               = cmd_theme env (tok :: rest) (recorded (JS.trim raw) st)).
  { rewrite <- (dispatch_theme env cfg name (tok :: rest) Hk).
    eapply handleCommand_routes; eauto; discriminate. }
  unfold exec. rewrite Hr. unfold cmd_theme. simpl.
  simpl in Hin.
  destruct Hin as [<-|[<-|[<-|[<-|[]]]]]; split; reflexivity.
Qed.

(** A missing theme, or one that is neither supported nor a name inherited
    from [Object.prototype], prints the usage line and leaves the theme. *)
Lemma theme_unknown_is_usage
    (env : Env) (cfg : Config) (raw name : jstring) (rest : list jstring)
    (st : State) :
  JS.split_ws (JS.trim raw) = name :: rest ->
  JS.toLowerCase name = "/theme" ->
  (forall tok, head rest = Some tok ->
     JS.mem (JS.toLowerCase tok) THEMES = false /\
     JS.mem (JS.toLowerCase tok) JS.Object_prototype_keys = false) ->
  handleCommand env cfg raw st
  = print env [theme_usage] (recorded (JS.trim raw) st) /\
  theme (exec (handleCommand env cfg raw) st) = theme st.
Proof.
  intros Hs Hk Hun.
  assert (Hr : handleCommand env cfg raw st
               = cmd_theme env rest (recorded (JS.trim raw) st)).
  { rewrite <- (dispatch_theme env cfg name rest Hk).
    eapply handleCommand_routes; eauto; discriminate. }
  unfold exec. rewrite Hr. unfold cmd_theme.
  destruct rest as [|tok rest]; simpl; [split; reflexivity |].
  destruct (Hun tok eq_refl) as [H1 H2]. unfold JS.has. rewrite H1, H2.
  rewrite orb_true_r. split; reflexivity.
Qed.

(** What is stored for the theme after a render, and what a fresh load
    reads back. *)
Lemma persist_theme (st : State) (storage : gmap jstring jstring) :
  persist st storage !! "theme" = Some (JSON.quote (theme st)).
Proof.
  unfold persist, useLocalStorage_effect.
  rewrite lookup_insert_ne by discriminate. apply lookup_insert_eq.
Qed.

(** Serialising a supported theme and parsing it gives the theme back. *)
Lemma theme_roundtrip (t : jstring) (st : State) (storage : gmap jstring jstring) :
  In t THEMES -> theme st = t ->
  JSON.parse (JSON.stringify (JSON.Str t)) = Some (JSON.Str t) /\
  useLocalStorage_init (persist st storage) "theme" (JSON.Str "dark")
  = JSON.Str t.
Proof.
  intros Hin Ht. unfold useLocalStorage_init. rewrite persist_theme, Ht.
  simpl in Hin. destruct Hin as [<-|[<-|[<-|[<-|[]]]]]; split; reflexivity.
Qed.

(** A stored theme text that does not parse is read as the raw text; this
    is the case of the four theme names stored without quotes. *)
Lemma theme_legacy_text (raw : jstring) (storage : gmap jstring jstring)
    (initial : JSON.value) :
  storage !! "theme" = Some raw -> JSON.parse raw = None ->
  useLocalStorage_init storage "theme" initial = JSON.Str raw.
Proof. intros Hs Hp. unfold useLocalStorage_init. rewrite Hs, Hp. reflexivity. Qed.

Lemma theme_names_do_not_parse (t : jstring) :
  In t THEMES -> JSON.parse t = None.
Proof.
  simpl. intros [<-|[<-|[<-|[<-|[]]]]]; reflexivity.
Qed.

(** Nothing stored: the default. *)
Lemma theme_default (storage : gmap jstring jstring) (initial : JSON.value) :
  storage !! "theme" = None ->
  useLocalStorage_init storage "theme" initial = initial.
Proof. intros Hs. unfold useLocalStorage_init. rewrite Hs. reflexivity. Qed.


(** *** Serialising and parsing back *)

Lemma hex_val_hex_digit (d : N) :
  (d < 16)%N -> JSON.hex_val (JSON.hex_digit d) = Some d.
Proof.
  intros Hd. unfold JSON.hex_val, JSON.hex_digit.
  destruct (N.ltb_spec d 10).
  - destruct (N.leb_spec 48 (48 + d)), (N.leb_spec (48 + d) 57); simpl;
      try lia. f_equal. lia.
  - destruct (N.leb_spec 48 (87 + d)), (N.leb_spec (87 + d) 57); simpl; try lia.
    destruct (N.leb_spec 97 (87 + d)), (N.leb_spec (87 + d) 102); simpl;
      try lia. f_equal. lia.
Qed.

Lemma parse_chars_unicode_escape (c : N) (t : jstring) :
  (c < 65536)%N -> (c <> 34)%N -> (c <> 92)%N ->
  JSON.parse_chars (JSON.unicode_escape c ++ t)
  = push_char c (JSON.parse_chars t).
Proof.
  intros Hc H34 H92. unfold JSON.unicode_escape.
  cbn [app JSON.parse_chars]. cbn [N.eqb Pos.eqb].
  assert (H1 : (c / 4096 < 16)%N) by (apply N.Div0.div_lt_upper_bound; lia).
  assert (H2 : ((c / 256) mod 16 < 16)%N) by (apply N.mod_lt; lia).
  assert (H3 : ((c / 16) mod 16 < 16)%N) by (apply N.mod_lt; lia).
  assert (H4 : (c mod 16 < 16)%N) by (apply N.mod_lt; lia).
  rewrite !hex_val_hex_digit by assumption.
  replace ((((c / 4096 * 16 + (c / 256) mod 16) * 16 + (c / 16) mod 16) * 16
            + c mod 16))%N with c.
  - destruct (JSON.parse_chars t) as [[body rest]|]; reflexivity.
  - clear -Hc. zify. Z.to_euclidean_division_equations. lia.
Qed.

Lemma parse_chars_plain (c : N) (t : jstring) :
  (c <> 34)%N -> (c <> 92)%N -> (32 <= c)%N ->
  JSON.parse_chars (c :: t) = push_char c (JSON.parse_chars t).
Proof.
  intros H34 H92 H32. cbn [JSON.parse_chars].
  destruct (N.eqb_spec c 34); [contradiction |].
  destruct (N.eqb_spec c 92); [contradiction |].
  destruct (N.ltb_spec c 32); [lia |].
  destruct (JSON.parse_chars t) as [[body rest]|]; reflexivity.
Qed.

Lemma surrogate_plain (c : N) :
  JS.is_high_surrogate c || JS.is_low_surrogate c = true ->
  (c <> 34)%N /\ (c <> 92)%N /\ (32 <= c)%N /\ (c < 65536)%N.
Proof.
  unfold JS.is_high_surrogate, JS.is_low_surrogate. intros H.
  apply orb_true_iff in H as [H|H]; apply andb_true_iff in H as [H1 H2];
    apply N.leb_le in H1, H2; lia.
Qed.

Lemma parse_chars_quote_char (c : N) (t : jstring) :
  JSON.parse_chars (JSON.quote_char c ++ t) = push_char c (JSON.parse_chars t).
Proof.
  unfold JSON.quote_char.
  destruct (N.eqb_spec c 34) as [->|H34];
    [destruct (JSON.parse_chars t) as [[? ?]|] eqn:E; simpl; rewrite E; reflexivity |].
  destruct (N.eqb_spec c 92) as [->|H92];
    [destruct (JSON.parse_chars t) as [[? ?]|] eqn:E; simpl; rewrite E; reflexivity |].
  destruct (N.eqb_spec c 8) as [->|H8];
    [destruct (JSON.parse_chars t) as [[? ?]|] eqn:E; simpl; rewrite E; reflexivity |].
  destruct (N.eqb_spec c 12) as [->|H12];
    [destruct (JSON.parse_chars t) as [[? ?]|] eqn:E; simpl; rewrite E; reflexivity |].
  destruct (N.eqb_spec c 10) as [->|H10];
    [destruct (JSON.parse_chars t) as [[? ?]|] eqn:E; simpl; rewrite E; reflexivity |].
  destruct (N.eqb_spec c 13) as [->|H13];
    [destruct (JSON.parse_chars t) as [[? ?]|] eqn:E; simpl; rewrite E; reflexivity |].
  destruct (N.eqb_spec c 9) as [->|H9];
    [destruct (JSON.parse_chars t) as [[? ?]|] eqn:E; simpl; rewrite E; reflexivity |].
  destruct (N.ltb_spec c 32) as [Hlt|Hge]; cbn [orb].
  - apply parse_chars_unicode_escape; lia.
  - destruct (JS.is_high_surrogate c || JS.is_low_surrogate c) eqn:Hs.
    + destruct (surrogate_plain c Hs) as (_ & _ & _ & Hc).
      apply parse_chars_unicode_escape; assumption.
    + apply parse_chars_plain; assumption.
Qed.

Lemma quote_chars_cons (c d : N) (s : jstring) :
  JSON.quote_chars (c :: d :: s)
  = if JS.is_high_surrogate c && JS.is_low_surrogate d
    then c :: d :: JSON.quote_chars s
    else JSON.quote_char c ++ JSON.quote_chars (d :: s).
Proof. reflexivity. Qed.

Lemma parse_chars_quote_chars_bounded (n : nat) (s rest : jstring) :
  length s <= n ->
  JSON.parse_chars (JSON.quote_chars s ++ JS.dquote :: rest) = Some (s, rest).
Proof.
  revert s. induction n as [|n IH]; intros s Hn.
  { destruct s; [reflexivity | simpl in Hn; lia]. }
  destruct s as [|c [|d s]]; [reflexivity | |].
  - cbn [JSON.quote_chars]. rewrite parse_chars_quote_char. reflexivity.
  - rewrite quote_chars_cons.
    destruct (JS.is_high_surrogate c && JS.is_low_surrogate d) eqn:Hp.
    + apply andb_true_iff in Hp as [Hc Hd].
      destruct (surrogate_plain c) as (C1 & C2 & C3 & _);
        [rewrite Hc; reflexivity |].
      destruct (surrogate_plain d) as (D1 & D2 & D3 & _);
        [rewrite Hd; apply orb_true_r |].
      change ((c :: d :: JSON.quote_chars s) ++ JS.dquote :: rest)
        with (c :: d :: (JSON.quote_chars s ++ JS.dquote :: rest)).
      rewrite (parse_chars_plain c) by assumption.
      rewrite (parse_chars_plain d) by assumption.
      rewrite IH by (simpl in Hn |- *; lia). reflexivity.
    + rewrite <- app_assoc, parse_chars_quote_char.
      rewrite IH by (simpl in Hn |- *; lia). reflexivity.
Qed.

Lemma parse_chars_quote_chars (s rest : jstring) :
  JSON.parse_chars (JSON.quote_chars s ++ JS.dquote :: rest) = Some (s, rest).
Proof. exact (parse_chars_quote_chars_bounded (length s) s rest (le_n _)). Qed.

Lemma quote_append (s t : jstring) :
  JSON.quote s ++ t = JS.dquote :: (JSON.quote_chars s ++ JS.dquote :: t).
Proof. unfold JSON.quote. simpl. rewrite <- app_assoc. reflexivity. Qed.

Lemma parse_value_quote (f : nat) (s t : jstring) :
  JSON.parse_value (S f) (JSON.quote s ++ t) = Some (JSON.Str s, t).
Proof.
  rewrite quote_append. cbn [JSON.parse_value].
  change (JS.dquote =? JS.dquote)%N with true. cbv iota.
  rewrite parse_chars_quote_chars. reflexivity.
Qed.

(** Every string, serialised and parsed, comes back as it was. *)
Lemma parse_quote (s : jstring) : JSON.parse (JSON.quote s) = Some (JSON.Str s).
Proof.
  unfold JSON.parse.
  replace (JSON.skip_ws (JSON.quote s)) with (JSON.quote s ++ "").
  - destruct (2 * length (JSON.quote s) + 2) as [|f] eqn:Hf; [lia |].
    rewrite parse_value_quote. reflexivity.
  - rewrite app_nil_r. reflexivity.
Qed.

Lemma parse_elements_S (f : nat) (s : jstring) :
  JSON.parse_elements (S f) s
  = match JSON.parse_value f s with
    | Some (v, rest) =>
        if JS.startsWith "]" (JSON.skip_ws rest)
        then Some ([v], JSON.drop 1 (JSON.skip_ws rest))
        else if JS.startsWith "," (JSON.skip_ws rest) then
          match JSON.parse_elements f
                  (JSON.skip_ws (JSON.drop 1 (JSON.skip_ws rest))) with
          | Some (l, rest2) => Some (v :: l, rest2)
          | None => None
          end
        else None
    | None => None
    end.
Proof. reflexivity. Qed.

Lemma join_quote_cons (x y : jstring) (l : list jstring) :
  JS.join "," (map JSON.quote (x :: y :: l))
  = JSON.quote x ++ "," ++ JS.join "," (map JSON.quote (y :: l)).
Proof. reflexivity. Qed.

Lemma skip_ws_join_quote (x : jstring) (l : list jstring) (t : jstring) :
  JSON.skip_ws (JS.join "," (map JSON.quote (x :: l)) ++ t)
  = JS.join "," (map JSON.quote (x :: l)) ++ t.
Proof. destruct l; reflexivity. Qed.

(** The elements of a serialised array of strings, with fuel for two steps
    an element. *)
Lemma parse_elements_quoted (l : list jstring) (x : jstring) (f : nat)
    (rest : jstring) :
  2 * length (x :: l) <= f ->
  JSON.parse_elements f
    (JS.join "," (map JSON.quote (x :: l)) ++ "]" ++ rest)
  = Some (map JSON.Str (x :: l), rest).
Proof.
  revert x f. induction l as [|y l IH]; intros x f Hf.
  - destruct f as [|[|f]]; [simpl in Hf; lia | simpl in Hf; lia |].
    rewrite parse_elements_S.
    change (JS.join "," (map JSON.quote [x])) with (JSON.quote x).
    rewrite parse_value_quote. reflexivity.
  - destruct f as [|[|f]]; [simpl in Hf; lia | simpl in Hf; lia |].
    rewrite join_quote_cons, <- !app_assoc, parse_elements_S, parse_value_quote.
    change (JSON.skip_ws ("," ++ ?t)) with (44%N :: t).
    change (JS.startsWith "]" (44%N :: ?t)) with false.
    change (JS.startsWith "," (44%N :: ?t)) with true.
    change (JSON.drop 1 (44%N :: ?t)) with t. cbv iota.
    rewrite skip_ws_join_quote, IH; [reflexivity |]. simpl in *. lia.
Qed.

Lemma length_append (a b : jstring) : length (a ++ b) = length a + length b.
Proof. apply length_app. Qed.

Lemma length_join_quoted (l : list jstring) :
  2 * length l <= length (JS.join "," (map JSON.quote l)).
Proof.
  induction l as [|x l IH]; [simpl; lia |].
  assert (Hx : 2 <= length (JSON.quote x)).
  { unfold JSON.quote. simpl. rewrite length_app. simpl. lia. }
  destruct l as [|y l]; [simpl in *; lia |].
  rewrite join_quote_cons, !length_app. simpl in *. lia.
Qed.

(** Every list of strings, serialised and parsed, comes back as it was: the
    fuel of [JSON.parse] is enough whatever the length of the list. *)
Lemma parse_stringify_strings (l : list jstring) :
  JSON.parse (JSON.stringify (JSON.Array (map JSON.Str l)))
  = Some (JSON.Array (map JSON.Str l)).
Proof.
  cbn [JSON.stringify]. rewrite map_map.
  change (map (fun x => JSON.stringify (JSON.Str x)) l) with (map JSON.quote l).
  unfold JSON.parse.
  change (JSON.skip_ws ("[" ++ ?t)) with (91%N :: t).
  set (text := "[" ++ _).
  assert (Hlen : 2 * length l + 2 <= length text).
  { subst text. simpl. rewrite length_app. simpl.
    pose proof (length_join_quoted l). lia. }
  destruct (2 * length text + 2) as [|f] eqn:Hf; [lia |].
  subst text. cbn [JSON.parse_value].
  change (91 =? JS.dquote)%N with false.
  change (91 =? 91)%N with true. cbv iota.
  destruct l as [|x l]; [reflexivity |].
  rewrite skip_ws_join_quote.
  assert (Hh : JS.startsWith "]" (JS.join "," (map JSON.quote (x :: l)) ++ "]")
               = false).
  { destruct l; reflexivity. }
  rewrite Hh.
  rewrite <- (app_nil_r "]"), parse_elements_quoted by (simpl in *; lia).
  reflexivity.
Qed.


(** *** The fuel of the parser *)

Lemma skip_ws_length (s : jstring) : length (JSON.skip_ws s) <= length s.
Proof.
  induction s as [|c s IH]; simpl; [lia |].
  destruct (JSON.is_json_ws c); simpl; lia.
Qed.

Lemma drop_length (n : nat) (s : jstring) : length (JSON.drop n s) <= length s.
Proof.
  revert s. induction n as [|n IH]; intros [|c s]; simpl; try lia.
  specialize (IH s). lia.
Qed.

Lemma startsWith_drop (p s : jstring) :
  JS.startsWith p s = true -> length (JSON.drop (length p) s) + length p = length s.
Proof.
  revert s. induction p as [|a p IH]; intros s; simpl.
  - intros _. destruct s; simpl; lia.
  - destruct s as [|c s]; [discriminate |]. intros H.
    apply andb_true_iff in H as [_ H]. specialize (IH s H). simpl. lia.
Qed.

Lemma parse_chars_shorter (n : nat) (s body rest : jstring) :
  length s <= n -> JSON.parse_chars s = Some (body, rest) -> length rest < length s.
Proof.
  revert s body rest. induction n as [|n IH]; intros s body rest Hn.
  - destruct s; [discriminate | simpl in Hn; lia].
  - destruct s as [|c s]; [discriminate |]. cbn [JSON.parse_chars].
    destruct (c =? 34)%N.
    { intros H. injection H as _ <-. simpl. lia. }
    destruct (c =? 92)%N.
    { destruct s as [|e s]; [discriminate |].
      destruct (e =? 117)%N.
      - destruct s as [|h1 [|h2 [|h3 [|h4 s]]]]; try discriminate.
        destruct (JSON.hex_val h1), (JSON.hex_val h2), (JSON.hex_val h3),
          (JSON.hex_val h4); try discriminate.
        destruct (JSON.parse_chars s) as [[b r]|] eqn:Hp; [| discriminate].
        intros H. injection H as _ <-.
        assert (length r < length s) by (eapply IH; [| exact Hp]; simpl in Hn; lia).
        simpl. lia.
      - destruct (JSON.unescape e); [| discriminate].
        destruct (JSON.parse_chars s) as [[b r]|] eqn:Hp; [| discriminate].
        intros H. injection H as _ <-.
        assert (length r < length s) by (eapply IH; [| exact Hp]; simpl in Hn; lia).
        simpl. lia. }
    destruct (c <? 32)%N; [discriminate |].
    destruct (JSON.parse_chars s) as [[b r]|] eqn:Hp; [| discriminate].
    intros H. injection H as _ <-.
    assert (length r < length s) by (eapply IH; [| exact Hp]; simpl in Hn; lia).
    simpl. lia.
Qed.

Lemma take_digits_length (s d r : jstring) :
  JSON.take_digits s = (d, r) -> length d + length r = length s.
Proof.
  revert d r. induction s as [|c s IH]; intros d r; simpl.
  - intros H. injection H as <- <-. reflexivity.
  - destruct (JS.is_digit c).
    + destruct (JSON.take_digits s) as [d' r'] eqn:Ht.
      intros H. injection H as <- <-. specialize (IH d' r' eq_refl). simpl. lia.
    + intros H. injection H as <- <-. simpl. lia.
Qed.

Lemma parse_number_shorter (s lex rest : jstring) :
  JSON.parse_number s = Some (lex, rest) -> length rest < length s.
Proof.
  unfold JSON.parse_number.
  set (p := if JS.startsWith "-" s then ("-", JSON.drop 1 s) else ("", s)).
  assert (Hp : length (snd p) <= length s).
  { subst p. pose proof (drop_length 1 s) as Hd.
    destruct (JS.startsWith "-" s); [exact Hd | simpl; lia]. }
  destruct p as [sign s1]. simpl in Hp.
  destruct (JSON.take_digits s1) as [int s2] eqn:H1.
  apply take_digits_length in H1.
  destruct (eqb_spec int "") as [->|Hint]; [discriminate |]. cbn [orb].
  destruct (JS.startsWith "0" int && (1 <? length int)%nat); [discriminate |].
  assert (Hi : 1 <= length int) by (destruct int; [congruence | simpl; lia]).
  set (frac := if JS.startsWith "." s2 then _ else _).
  assert (Hf : forall f s3, frac = Some (f, s3) -> length s3 <= length s2).
  { subst frac. intros f s3. destruct (JS.startsWith "." s2).
    - destruct (JSON.take_digits (JSON.drop 1 s2)) as [d r] eqn:H2.
      apply take_digits_length in H2. pose proof (drop_length 1 s2) as Hd.
      destruct (JS.eqb d ""); [discriminate |].
      intros H; injection H as _ <-. lia.
    - intros H; injection H as _ <-. lia. }
  destruct frac as [[f s3]|]; [| discriminate].
  specialize (Hf f s3 eq_refl).
  destruct s3 as [|e t]; [intros H; injection H as _ <-; simpl in *; lia |].
  destruct ((e =? 101)%N || (e =? 69)%N);
    [| intros H; injection H as _ <-; simpl in *; lia].
  set (q := if JS.startsWith "+" t then _ else _).
  assert (Hq : length (snd q) <= length t).
  { subst q. pose proof (drop_length 1 t) as Hd.
    destruct (JS.startsWith "+" t); [exact Hd |].
    destruct (JS.startsWith "-" t); [exact Hd | simpl; lia]. }
  destruct q as [sg t']. simpl in Hq.
  destruct (JSON.take_digits t') as [d r] eqn:H3. apply take_digits_length in H3.
  destruct (JS.eqb d ""); [discriminate |].
  intros H; injection H as _ <-. simpl in *. lia.
Qed.

Lemma parse_value_S (f : nat) (c : N) (s' : jstring) :
  JSON.parse_value (S f) (c :: s')
  = if (c =? JS.dquote)%N then
      match JSON.parse_chars s' with
      | Some (body, rest) => Some (JSON.Str body, rest)
      | None => None
      end
    else if (c =? 91)%N then
      if JS.startsWith "]" (JSON.skip_ws s')
      then Some (JSON.Array [], JSON.drop 1 (JSON.skip_ws s'))
      else
        match JSON.parse_elements f (JSON.skip_ws s') with
        | Some (l, rest) => Some (JSON.Array l, rest)
        | None => None
        end
    else if (c =? 123)%N then
      if JS.startsWith "}" (JSON.skip_ws s')
      then Some (JSON.Object [], JSON.drop 1 (JSON.skip_ws s'))
      else
        match JSON.parse_members f (JSON.skip_ws s') with
        | Some (l, rest) => Some (JSON.Object l, rest)
        | None => None
        end
    else if JS.startsWith "true" (c :: s') then Some (JSON.Bool true, JSON.drop 4 (c :: s'))
    else if JS.startsWith "false" (c :: s') then Some (JSON.Bool false, JSON.drop 5 (c :: s'))
    else if JS.startsWith "null" (c :: s') then Some (JSON.Null, JSON.drop 4 (c :: s'))
    else
      match JSON.parse_number (c :: s') with
      | Some (lex, rest) => Some (JSON.Number lex, rest)
      | None => None
      end.
Proof. reflexivity. Qed.

Lemma parse_members_S (f : nat) (s : jstring) :
  JSON.parse_members (S f) s
  = if JS.startsWith [JS.dquote] s then
      match JSON.parse_chars (JSON.drop 1 s) with
      | Some (k, rest) =>
          if JS.startsWith ":" (JSON.skip_ws rest) then
            match JSON.parse_value f (JSON.skip_ws (JSON.drop 1 (JSON.skip_ws rest))) with
            | Some (v, rest2) =>
                if JS.startsWith "}" (JSON.skip_ws rest2)
                then Some ([(k, v)], JSON.drop 1 (JSON.skip_ws rest2))
                else if JS.startsWith "," (JSON.skip_ws rest2) then
                  match JSON.parse_members f (JSON.skip_ws (JSON.drop 1 (JSON.skip_ws rest2))) with
                  | Some (l, rest4) => Some ((k, v) :: l, rest4)
                  | None => None
                  end
                else None
            | None => None
            end
          else None
      | None => None
      end
    else None.
Proof. reflexivity. Qed.

Ltac lens :=
  repeat match goal with
  | |- context [length (JSON.skip_ws ?s)] =>
      lazymatch goal with
      | _ : length (JSON.skip_ws s) <= length s |- _ => fail
      | _ => pose proof (skip_ws_length s)
      end
  | |- context [length (JSON.drop ?n ?s)] =>
      lazymatch goal with
      | _ : length (JSON.drop n s) <= length s |- _ => fail
      | _ => pose proof (drop_length n s)
      end
  | H : context [length (JSON.skip_ws ?s)] |- _ =>
      lazymatch goal with
      | _ : length (JSON.skip_ws s) <= length s |- _ => fail
      | _ => pose proof (skip_ws_length s)
      end
  | H : context [length (JSON.drop ?n ?s)] |- _ =>
      lazymatch goal with
      | _ : length (JSON.drop n s) <= length s |- _ => fail
      | _ => pose proof (drop_length n s)
      end
  end.

Lemma startsWith1_drop (a : N) (s : jstring) :
  JS.startsWith [a] s = true -> length (JSON.drop 1 s) + 1 = length s.
Proof. intros H. exact (startsWith_drop [a] s H). Qed.

Ltac keep_drops :=
  repeat match goal with
  | H : context [JSON.drop ?n ?x] |- _ =>
      let d := fresh "d" in set (d := JSON.drop n x) in *
  end.

Ltac free_drops :=
  repeat match goal with
  | d := JSON.drop _ _ |- _ => subst d
  end.

Lemma fuel_ok (f : nat) : value_ok f /\ elements_ok f /\ members_ok f.
Proof.
  induction f as [|f (IHv & IHe & IHm)].
  { split; [| split]; intros s l rest H; discriminate H. }
  split; [| split].
  - intros s v rest H. destruct s as [|c s']; [discriminate H |].
    rewrite parse_value_S in H.
    assert (Hg : forall g, 2 <= g -> exists g', g = S g') by (intros [|g'] ?; [lia | eauto]).
    destruct (c =? JS.dquote)%N eqn:E1.
    { destruct (JSON.parse_chars s') as [[body r]|] eqn:Hp; [| discriminate H].
      injection H as <- <-.
      pose proof (parse_chars_shorter _ _ _ _ (le_n _) Hp). cbn [length].
      split; [lia |]. intros g Hge. destruct (Hg g ltac:(lia)) as [g' ->]. free_drops.
      rewrite parse_value_S, E1, Hp. reflexivity. }
    destruct (c =? 91)%N eqn:E2.
    { destruct (JS.startsWith "]" (JSON.skip_ws s')) eqn:E3.
      - pose proof (startsWith1_drop _ _ E3). lens. keep_drops. injection H as <- <-. cbn [length].
        split; [lia |]. intros g Hge. destruct (Hg g ltac:(lia)) as [g' ->]. free_drops.
        rewrite parse_value_S, E1, E2, E3. reflexivity.
      - destruct (JSON.parse_elements f (JSON.skip_ws s')) as [[l r]|] eqn:Hp; [| discriminate H].
        injection H as <- <-. destruct (IHe _ _ _ Hp) as [Hl Hm]. lens. cbn [length].
        split; [lia |]. intros g Hge. destruct (Hg g ltac:(lia)) as [g' ->]. free_drops.
        rewrite parse_value_S, E1, E2, E3, Hm by lia. reflexivity. }
    destruct (c =? 123)%N eqn:E4.
    { destruct (JS.startsWith "}" (JSON.skip_ws s')) eqn:E3.
      - pose proof (startsWith1_drop _ _ E3). lens. keep_drops. injection H as <- <-. cbn [length].
        split; [lia |]. intros g Hge. destruct (Hg g ltac:(lia)) as [g' ->]. free_drops.
        rewrite parse_value_S, E1, E2, E4, E3. reflexivity.
      - destruct (JSON.parse_members f (JSON.skip_ws s')) as [[l r]|] eqn:Hp; [| discriminate H].
        injection H as <- <-. destruct (IHm _ _ _ Hp) as [Hl Hm]. lens. cbn [length].
        split; [lia |]. intros g Hge. destruct (Hg g ltac:(lia)) as [g' ->]. free_drops.
        rewrite parse_value_S, E1, E2, E4, E3, Hm by lia. reflexivity. }
    destruct (JS.startsWith "true" (c :: s')) eqn:E5.
    { pose proof (startsWith_drop _ _ E5) as Hd.
      change (length "true") with 4 in Hd. keep_drops. injection H as <- <-.
      split; [lia |]. intros g Hge. destruct (Hg g ltac:(lia)) as [g' ->]. free_drops.
      rewrite parse_value_S, E1, E2, E4, E5. reflexivity. }
    destruct (JS.startsWith "false" (c :: s')) eqn:E6.
    { pose proof (startsWith_drop _ _ E6) as Hd.
      change (length "false") with 5 in Hd. keep_drops. injection H as <- <-.
      split; [lia |]. intros g Hge. destruct (Hg g ltac:(lia)) as [g' ->]. free_drops.
      rewrite parse_value_S, E1, E2, E4, E5, E6. reflexivity. }
    destruct (JS.startsWith "null" (c :: s')) eqn:E7.
    { pose proof (startsWith_drop _ _ E7) as Hd.
      change (length "null") with 4 in Hd. keep_drops. injection H as <- <-.
      split; [lia |]. intros g Hge. destruct (Hg g ltac:(lia)) as [g' ->]. free_drops.
      rewrite parse_value_S, E1, E2, E4, E5, E6, E7. reflexivity. }
    destruct (JSON.parse_number (c :: s')) as [[lex r]|] eqn:Hp; [| discriminate H].
    injection H as <- <-. pose proof (parse_number_shorter _ _ _ Hp).
    split; [lia |]. intros g Hge. destruct (Hg g ltac:(lia)) as [g' ->]. free_drops.
    rewrite parse_value_S, E1, E2, E4, E5, E6, E7, Hp. reflexivity.
  - intros s l rest H. rewrite parse_elements_S in H.
    destruct (JSON.parse_value f s) as [[v r1]|] eqn:Hv; [| discriminate H].
    destruct (IHv _ _ _ Hv) as [Hl1 Hm1].
    assert (Hg : forall g, 1 <= g -> exists g', g = S g') by (intros [|g'] ?; [lia | eauto]).
    destruct (JS.startsWith "]" (JSON.skip_ws r1)) eqn:E1.
    { pose proof (startsWith1_drop _ _ E1). lens. keep_drops. injection H as <- <-.
      split; [lia |]. intros g Hge. destruct (Hg g ltac:(lia)) as [g' ->]. free_drops.
      rewrite parse_elements_S, Hm1, E1 by lia. reflexivity. }
    destruct (JS.startsWith "," (JSON.skip_ws r1)) eqn:E2; [| discriminate H].
    destruct (JSON.parse_elements f _) as [[l' r2]|] eqn:He; [| discriminate H].
    injection H as <- <-. destruct (IHe _ _ _ He) as [Hl2 Hm2].
    pose proof (startsWith1_drop _ _ E2). lens.
    split; [lia |]. intros g Hge. destruct (Hg g ltac:(lia)) as [g' ->]. free_drops.
    rewrite parse_elements_S, Hm1, E1, E2, Hm2 by lia. reflexivity.
  - intros s l rest H. rewrite parse_members_S in H.
    assert (Hg : forall g, 1 <= g -> exists g', g = S g') by (intros [|g'] ?; [lia | eauto]).
    destruct (JS.startsWith [JS.dquote] s) eqn:E0; [| discriminate H].
    destruct (JSON.parse_chars (JSON.drop 1 s)) as [[k r0]|] eqn:Hk; [| discriminate H].
    destruct (JS.startsWith ":" (JSON.skip_ws r0)) eqn:E1; [| discriminate H].
    destruct (JSON.parse_value f _) as [[v r1]|] eqn:Hv; [| discriminate H].
    destruct (IHv _ _ _ Hv) as [Hl1 Hm1].
    pose proof (parse_chars_shorter _ _ _ _ (le_n _) Hk).
    pose proof (startsWith1_drop _ _ E0). pose proof (startsWith1_drop _ _ E1).
    destruct (JS.startsWith "}" (JSON.skip_ws r1)) eqn:E2.
    { pose proof (startsWith1_drop _ _ E2). lens. keep_drops. injection H as <- <-.
      split; [lia |]. intros g Hge. destruct (Hg g ltac:(lia)) as [g' ->]. free_drops.
      rewrite parse_members_S, E0, Hk, E1, Hm1, E2 by lia. reflexivity. }
    destruct (JS.startsWith "," (JSON.skip_ws r1)) eqn:E3; [| discriminate H].
    destruct (JSON.parse_members f _) as [[l' r2]|] eqn:He; [| discriminate H].
    injection H as <- <-. destruct (IHm _ _ _ He) as [Hl2 Hm2].
    pose proof (startsWith1_drop _ _ E3). lens.
    split; [lia |]. intros g Hge. destruct (Hg g ltac:(lia)) as [g' ->]. free_drops.
    rewrite parse_members_S, E0, Hk, E1, Hm1, E2, E3, Hm2 by lia. reflexivity.
Qed.

(** No amount of fuel parses more than [JSON.parse] does. *)
Lemma parse_fuel_adequate (f : nat) (text : jstring) (v : JSON.value) (rest : jstring) :
  JSON.parse_value f (JSON.skip_ws text) = Some (v, rest) ->
  JSON.parse_value (2 * length text + 2) (JSON.skip_ws text) = Some (v, rest).
Proof.
  intros H. destruct (fuel_ok f) as [Hv _]. destruct (Hv _ _ _ H) as [Hl Hm].
  apply Hm. pose proof (skip_ws_length text). lia.
Qed.

(** A text [JSON.parse] rejects is rejected with any fuel. *)
Lemma parse_None_any_fuel (text : jstring) :
  JSON.parse text = None ->
  forall f v rest,
    JSON.parse_value f (JSON.skip_ws text) = Some (v, rest) ->
    (JSON.skip_ws rest =? "") = false.
Proof.
  unfold JSON.parse. intros Hp f v rest H.
  rewrite (parse_fuel_adequate f text v rest H) in Hp.
  destruct (JSON.skip_ws rest =? ""); [discriminate Hp | reflexivity].
Qed.

Lemma strings_of_Str (l : list jstring) : strings_of (map JSON.Str l) = Some l.
Proof. induction l as [|x l IH]; simpl; [reflexivity | rewrite IH; reflexivity]. Qed.

(** What the two hooks store is what a fresh load restores: the theme and
    the history, whatever strings they hold. *)
Lemma load_persist (st : State) (storage : gmap jstring jstring) :
  load (persist st storage) = Some (reloaded st).
Proof.
  unfold load, useLocalStorage_init, persist, useLocalStorage_effect.
  rewrite lookup_insert_ne by discriminate.
  rewrite !lookup_insert_eq.
  change (JSON.stringify (theme_value st)) with (JSON.quote (theme st)).
  rewrite parse_quote. unfold history_value.
  rewrite parse_stringify_strings, strings_of_Str. reflexivity.
Qed.

(** A supported theme set by the command is the theme of the next load. *)
Lemma theme_survives_reload
    (env : Env) (cfg : Config) (raw name tok : jstring) (rest : list jstring)
    (st : State) (storage : gmap jstring jstring) :
  JS.split_ws (JS.trim raw) = name :: tok :: rest ->
  JS.toLowerCase name = "/theme" ->
  In (JS.toLowerCase tok) THEMES ->
  theme <$> load (persist (exec (handleCommand env cfg raw) st) storage)
  = Some (JS.toLowerCase tok).
Proof.
  intros Hs Hk Hin. rewrite load_persist. simpl. f_equal.
  apply (theme_supported_is_set env cfg raw name tok rest st Hs Hk Hin).
Qed.

(** C7 fails on the code at [/theme constructor]: [constructor] is not a
    supported theme, yet ["constructor" in THEMES] holds through the
    prototype of the object literal, so instead of the usage line the theme
    is set to [constructor], confirmed, stored, and read back by a fresh
    load. *)
Theorem theme_inherited_name_is_accepted
    (env : Env) (cfg : Config) (st : State) (storage : gmap jstring jstring) :
  ~ In "constructor" THEMES /\
  handleCommand env cfg "/theme constructor" st
  = print env ["Theme set to constructor."]
      (exec (setTheme "constructor") (recorded "/theme constructor" st)) /\
  theme (exec (handleCommand env cfg "/theme constructor") st) = "constructor" /\
  useLocalStorage_init
    (persist (exec (handleCommand env cfg "/theme constructor") st) storage)
    "theme" (JSON.Str "dark")
  = JSON.Str "constructor".
Proof.
  split.
  { simpl. intros [H|[H|[H|[H|[]]]]]; discriminate H. }
  split; [reflexivity |]. split; [reflexivity |].
  unfold useLocalStorage_init. rewrite persist_theme. reflexivity.
Qed.


(** ** Searching the projects (C4) *)

Lemma startsWith_spec (p s : jstring) :
  JS.startsWith p s = true <-> exists b, s = p ++ b.
Proof.
  revert s. induction p as [|a p IH]; intros s; simpl.
  - split; [intros _; exists s; reflexivity | reflexivity].
  - destruct s as [|c s].
    + split; [discriminate | intros [b Hb]; discriminate Hb].
    + rewrite andb_true_iff, IH. split.
      * intros [Hc [b ->]]. apply N.eqb_eq in Hc as ->. exists b; reflexivity.
      * intros [b Hb]. injection Hb as -> ->.
        split; [apply N.eqb_refl | exists b; reflexivity].
Qed.

(** [includes] is the substring relation. *)
Lemma includes_spec (s q : jstring) :
  JS.includes s q = true <-> exists a b, s = a ++ q ++ b.
Proof.
  induction s as [|c s IH].
  - simpl. rewrite orb_false_r, startsWith_spec. split.
    + intros [b Hb]. exists "", b. exact Hb.
    + intros (a & b & H). destruct a; [exists b; exact H | discriminate H].
  - cbn [JS.includes]. rewrite orb_true_iff, startsWith_spec, IH. split.
    + intros [[b Hb] | (a & b & ->)].
      * exists "", b. exact Hb.
      * exists (c :: a), b. reflexivity.
    + intros (a & b & H). destruct a as [|c' a].
      * left. exists b. exact H.
      * right. simpl in H. injection H as -> ->. exists a, b. reflexivity.
Qed.

Lemma In_imap_pairs {A} (l : list A) (k i : nat) (p : A) :
  In (i, p) (imap (fun j q => (k + j, q)) l) <->
  k <= i /\ nth_error l (i - k) = Some p.
Proof.
  revert k. induction l as [|x l IH]; intros k; simpl.
  - split; [tauto |]. intros [_ H]. destruct (i - k); discriminate H.
  - rewrite (imap_ext _ (fun j q => (S k + j, q)) l)
      by (intros; simpl; f_equal; lia).
    rewrite IH. split.
    + intros [H | [Hk Hn]].
      * injection H as <- <-. split; [lia |].
        replace (k + 0 - k) with 0 by lia. reflexivity.
      * split; [lia |]. replace (i - k) with (S (i - S k)) by lia. exact Hn.
    + intros [Hk Hn]. destruct (i - k) as [|m] eqn:Hm.
      * left. injection Hn as ->. f_equal. lia.
      * right. split; [lia |]. replace (i - S k) with m by lia. exact Hn.
Qed.

Lemma filter_imap_sorted {A} (f : nat * A -> bool) (l : list A) (k : nat) :
  StronglySorted lt (map fst (List.filter f (imap (fun j q => (k + j, q)) l))) /\
  Forall (fun i => k <= i)
    (map fst (List.filter f (imap (fun j q => (k + j, q)) l))).
Proof.
  revert k. induction l as [|x l IH]; intros k; simpl.
  - split; constructor.
  - rewrite (imap_ext _ (fun j q => (S k + j, q)) l)
      by (intros; simpl; f_equal; lia).
    destruct (IH (S k)) as [Hs Hf].
    assert (Hk : Forall (fun i => k <= i)
                   (map fst (List.filter f (imap (fun j q => (S k + j, q)) l)))).
    { eapply Forall_impl; [exact Hf |]. simpl. intros; lia. }
    destruct (f (k + 0, x)); simpl.
    + split; constructor; try assumption; try lia.
      eapply Forall_impl; [exact Hf |]. simpl. intros; lia.
    + split; assumption.
Qed.

(** C4: [search] lower-cases its term (what was typed after the command
    name) and splits it on white space into sub-terms; the projects it
    returns are exactly those whose lower-cased text (title, description and
    tech tags, joined by spaces) contains every sub-term as a substring, in
    the order of the project list and each with its position in that list;
    two searches whose terms have the same lower-case form run alike.  An
    empty term prints the usage line, no match prints the no-matches line,
    and otherwise a count header is followed by one line per match that
    starts with its 1-based global index. *)
Theorem search_matches_every_subterm
    (env : Env) (cfg : Config) (raw name : jstring) (rest : list jstring)
    (st : State) :
  JS.split_ws (JS.trim raw) = name :: rest ->
  JS.toLowerCase name = "search" ->
  let term := JS.toLowerCase (JS.join " " rest) in
  let st1 := recorded (JS.trim raw) st in
  let found := search_matches cfg term in
  (forall i p,
     In (i, p) found <->
     nth_error (projects cfg) i = Some p /\
     forall q, In q (JS.split_ws term) ->
       exists a b,
         JS.toLowerCase (title p ++ " " ++ description p ++ " "
                           ++ JS.join " " (tech p))
         = a ++ q ++ b) /\
  StronglySorted lt (map fst found) /\
  (forall name' rest' st0,
     JS.toLowerCase name' = "search" ->
     JS.toLowerCase (JS.join " " rest') = term ->
     dispatch env cfg name' rest' st0 = dispatch env cfg name rest st0) /\
  (term = "" ->
   handleCommand env cfg raw st = print env ["Usage: search <term>"] st1) /\
  (term <> "" -> found = [] ->
   handleCommand env cfg raw st
   = print env ["No matches for '" ++ escapeHtml term ++ "'."] st1) /\
  (term <> "" -> found <> [] ->
   handleCommand env cfg raw st
   = print env
       (strong ("Search results ("
                  ++ JS.Number_toString (JS.Finite (Z.of_nat (length found)))
                  ++ "):")
        :: map (fun m =>
                  JS.Number_toString (JS.Finite (Z.of_nat (fst m) + 1))
                  ++ ". <span class='title'>" ++ escapeHtml (title (snd m))
                  ++ "</span> — " ++ escapeHtml (description (snd m)))
               found)
       st1).
Proof.
  intros Hs Hk term st1 found.
  assert (Hr : handleCommand env cfg raw st
               = cmd_search env cfg (JS.join " " rest) st1).
  { rewrite <- (dispatch_search env cfg name rest Hk).
    eapply handleCommand_routes; eauto; discriminate. }
  split.
  { intros i p. subst found. unfold search_matches.
    rewrite filter_In. simpl.
    rewrite (In_imap_pairs (projects cfg) 0 i p).
    replace (i - 0) with i by lia.
    unfold matches_term. rewrite forallb_forall.
    split.
    - intros [[_ Hn] Hq]. split; [exact Hn |].
      intros q Hin. apply includes_spec. apply Hq. exact Hin.
    - intros [Hn Hq]. split; [split; [lia | exact Hn] |].
      intros q Hin. apply includes_spec. apply Hq. exact Hin. }
  split.
  { subst found. unfold search_matches.
    exact (proj1 (filter_imap_sorted _ (projects cfg) 0)). }
  split.
  { intros name' rest' st0 Hk' Ht.
    rewrite (dispatch_search env cfg name' rest' Hk'),
      (dispatch_search env cfg name rest Hk).
    unfold cmd_search. cbv zeta. rewrite Ht. reflexivity. }
  rewrite Hr. unfold cmd_search. fold term. fold found.
  split; [| split].
  - intros ->. reflexivity.
  - intros Hne ->.
    destruct (eqb_spec term "") as [?|_]; [contradiction |].
    reflexivity.
  - intros Hne Hf.
    destruct (eqb_spec term "") as [?|_]; [contradiction |].
    destruct found; [contradiction |]. reflexivity.
Qed.

Lemma search_matches_every_subterm_witness :
  JS.split_ws (JS.trim "Search ZEN  tool") = ["Search"; "ZEN"; "tool"] /\
  map block_html
    (output (exec (handleCommand env0 CONFIG "Search ZEN  tool") (new_session [])))
  = [["<span class='title'>Search results (1):</span>";
      "1. <span class='title'>zensu</span> — A calm productivity tool focused on flow and minimal UI."]].
Proof.
  assert (Hs : JS.split_ws (JS.trim "Search ZEN  tool") = ["Search"; "ZEN"; "tool"])
    by reflexivity.
  split; [exact Hs |].
  assert (Hk : JS.toLowerCase "Search" = "search") by (vm_compute; reflexivity).
  destruct (search_matches_every_subterm env0 CONFIG "Search ZEN  tool" "Search"
              ["ZEN"; "tool"] (new_session []) Hs Hk)
    as (_ & _ & _ & _ & _ & H).
  unfold exec.
  rewrite (H ltac:(vm_compute; discriminate) ltac:(vm_compute; discriminate)).
  vm_compute. reflexivity.
Defined.

(** The example of the spec. *)
Example search_zen :
  let p := {| title := "zensu"; description := "calm productivity tool";
              tech := []; demoUrl := "#"; sourceUrl := "#" |} in
  matches_term (JS.toLowerCase "zen tool") p = true /\
  matches_term (JS.toLowerCase "ZEN Tool") p = true /\
  matches_term (JS.toLowerCase "zen map") p = false.
Proof. repeat split; vm_compute; reflexivity. Qed.

(** Letters are folded by the Unicode tables: the term [websocKet] typed
    with the KELVIN SIGN finds the project with the tag [WebSocket], and a
    project titled [École] is found by [école] and by [ÉCOLE]. *)
Example search_beyond_ascii :
  map fst (search_matches CONFIG (JS.toLowerCase ("websoc" ++ [0x212A%N] ++ "et")))
  = [1] /\
  let p := {| title := "École"; description := "d"; tech := [];
              demoUrl := "#"; sourceUrl := "#" |} in
  matches_term (JS.toLowerCase "école") p = true /\
  matches_term (JS.toLowerCase "ÉCOLE") p = true.
Proof. repeat split; vm_compute; reflexivity. Qed.


(** ** Paging the projects (C5) *)


Lemma page_of_spec (rest : list jstring) :
  (rest = [] -> page_of rest = JS.Finite 1) /\
  (forall tok rest', rest = tok :: rest' ->
     page_of rest = match JS.parseInt tok with
                    | JS.NaN => JS.Finite 1
                    | JS.Finite z => JS.Finite (Z.max 1 z)
                    | JS.Infinity negative =>
                        if negative then JS.Finite 1 else JS.Infinity false
                    end) /\
  (forall n, page_of rest = JS.Finite n -> (1 <= n)%Z).
Proof.
  assert (Hcons : forall tok rest',
            page_of (tok :: rest')
            = match JS.parseInt tok with
              | JS.NaN => JS.Finite 1
              | JS.Finite z => JS.Finite (Z.max 1 z)
              | JS.Infinity negative =>
                  if negative then JS.Finite 1 else JS.Infinity false
              end).
  { intros tok rest'. unfold page_of, first_or.
    destruct (eqb_spec tok "") as [->|_]; [vm_compute; reflexivity |].
    destruct (JS.parseInt tok) as [|z|[]]; try reflexivity.
    unfold number_or. simpl. destruct (Z.eqb_spec z 0) as [->|_]; reflexivity. }
  split; [intros ->; vm_compute; reflexivity |].
  split; [intros tok rest' ->; apply Hcons |].
  intros n. destruct rest as [|tok rest'].
  - vm_compute. intros [= <-]. discriminate.
  - rewrite Hcons. destruct (JS.parseInt tok) as [|z|[]]; intros [= <-]; lia.
Qed.

Lemma slice_spec {A} (l : list A) (a b : Z) :
  (0 <= a <= b)%Z ->
  JS.slice l a b = firstn (Z.to_nat (b - a)) (skipn (Z.to_nat a) l).
Proof.
  intros Hab. unfold JS.slice.
  destruct (Z.le_gt_cases (Z.of_nat (length l)) a) as [Hlen | Hlen].
  - rewrite !skipn_all2 by lia. rewrite !firstn_nil. reflexivity.
  - rewrite (Z.min_l a) by lia.
    destruct (Z.le_gt_cases b (Z.of_nat (length l))) as [Hb | Hb].
    + rewrite (Z.min_l b) by lia. reflexivity.
    + rewrite (Z.min_r b) by lia.
      rewrite !firstn_all2; [reflexivity | |]; rewrite length_skipn; lia.
Qed.

Lemma page_slice_eq (cfg : Config) (page : Z) :
  (1 <= page)%Z ->
  page_slice cfg page
  = firstn (pageSize cfg)
      (skipn (Z.to_nat (page - 1) * pageSize cfg) (projects cfg)).
Proof.
  intros Hp. unfold page_slice, page_start.
  rewrite slice_spec by nia.
  replace (Z.to_nat ((page - 1) * Z.of_nat (pageSize cfg)))
    with (Z.to_nat (page - 1) * pageSize cfg) by nia.
  replace (Z.to_nat ((page - 1) * Z.of_nat (pageSize cfg)
                     + Z.of_nat (pageSize cfg)
                     - (page - 1) * Z.of_nat (pageSize cfg)))
    with (pageSize cfg) by nia.
  reflexivity.
Qed.

Lemma nth_error_firstn_skipn {A} (l : list A) (n k i : nat) (p : A) :
  nth_error (firstn n (skipn k l)) i = Some p -> nth_error l (k + i) = Some p.
Proof.
  revert l. induction k as [|k IH]; intros l; simpl.
  - revert i l. induction n as [|n IHn]; intros i l H.
    + destruct i; discriminate H.
    + destruct l as [|x l]; [destruct i; discriminate H |].
      destruct i as [|i]; simpl in *; [exact H | apply IHn; exact H].
  - destruct l as [|x l]; [| apply IH].
    intros H. rewrite firstn_nil in H. destruct i; discriminate H.
Qed.

Lemma pages_concat {A} (l : list A) (size k : nat) :
  concat (map (fun j => firstn size (skipn (j * size) l)) (seq 0 k))
  = firstn (k * size) l.
Proof.
  induction k as [|k IH]; [reflexivity |].
  rewrite seq_S, map_app, concat_app, IH. simpl.
  rewrite app_nil_r, take_take_drop. f_equal. lia.
Qed.

Lemma totalPages_cover (cfg : Config) :
  0 < pageSize cfg ->
  length (projects cfg) <= Z.to_nat (totalPages cfg) * pageSize cfg.
Proof.
  intros Hps. unfold totalPages.
  set (len := Z.of_nat (length (projects cfg))).
  set (size := Z.of_nat (pageSize cfg)).
  assert (Hsz : (0 < size)%Z) by (subst size; lia).
  pose proof (Z.div_mod (len + size - 1) size ltac:(lia)) as Hd.
  pose proof (Z.mod_pos_bound (len + size - 1) size Hsz) as Hm.
  assert (Hc : (len <= Z.max 1 ((len + size - 1) / size) * size)%Z) by nia.
  assert (Hn : (0 <= Z.max 1 ((len + size - 1) / size))%Z) by lia.
  subst len size. nia.
Qed.

(** C5: [/projects] reads its page number as 1 when there is no argument or
    no number in it, and as at least 1 otherwise.  The pages are the
    consecutive slices of the project list of the configured size (put end
    to end they give the list back); every project of the requested page is
    printed on a line of its own that starts with its 1-based position in
    the whole list, followed by its title, description, tags and links, and
    an empty page prints [No projects on page N.]  With page size 5 and at
    least five projects, page 1 prints exactly the first five projects,
    numbered 1 to 5. *)
Theorem projects_prints_requested_page
    (env : Env) (cfg : Config) (raw name : jstring) (rest : list jstring)
    (st : State) :
  JS.split_ws (JS.trim raw) = name :: rest ->
  JS.toLowerCase name = "/projects" ->
  let page := page_of rest in
  let st1 := recorded (JS.trim raw) st in
  let line := fun (number : jstring) (p : Project) =>
    number ++ ". <span class='title'>" ++ escapeHtml (title p)
    ++ "</span> — " ++ escapeHtml (description p)
    ++ " <span class='dim'>"
    ++ JS.join " "
         (map (fun t => "<span class='tag'>" ++ escapeHtml t ++ "</span>")
              (tech p))
    ++ "</span> "
    ++ JS.newline :: " <a href='" ++ demoUrl p
    ++ "' target='_blank' rel='noreferrer'>demo</a> · <a href='" ++ sourceUrl p
    ++ "' target='_blank' rel='noreferrer'>source</a>" in
  ((rest = [] -> page = JS.Finite 1) /\
   (forall tok rest', rest = tok :: rest' ->
      page = match JS.parseInt tok with
             | JS.NaN => JS.Finite 1
             | JS.Finite z => JS.Finite (Z.max 1 z)
             | JS.Infinity negative =>
                 if negative then JS.Finite 1 else JS.Infinity false
             end)) /\
  (forall n, page = JS.Finite n ->
     let start := Z.to_nat (n - 1) * pageSize cfg in
     let items := page_slice cfg n in
     (1 <= n)%Z /\
     items = firstn (pageSize cfg) (skipn start (projects cfg)) /\
     (forall i p, nth_error items i = Some p ->
                  nth_error (projects cfg) (start + i) = Some p) /\
     (items = [] ->
      handleCommand env cfg raw st
      = print env ["No projects on page " ++ JS.Number_toString page ++ "."]
          st1) /\
     (items <> [] ->
      handleCommand env cfg raw st
      = print env
          (("Projects (page " ++ JS.Number_toString page ++ "/"
              ++ JS.Number_toString (JS.Finite (totalPages cfg)) ++ "):")
           :: imap (fun i p =>
                      line (JS.Number_toString
                              (JS.Finite (Z.of_nat (start + i) + 1))) p)
                   items
           ++ ["Type 'open <n>' to open demo in a new tab."])
          st1)) /\
  (page = JS.Infinity false ->
   handleCommand env cfg raw st
   = print env ["No projects on page Infinity."] st1) /\
  (0 < pageSize cfg ->
   concat (map (fun j => page_slice cfg (Z.of_nat j + 1))
               (seq 0 (Z.to_nat (totalPages cfg))))
   = projects cfg) /\
  (page = JS.Finite 1 -> pageSize cfg = 5 ->
   forall p1 p2 p3 p4 p5 more,
     projects cfg = p1 :: p2 :: p3 :: p4 :: p5 :: more ->
     page_slice cfg 1 = [p1; p2; p3; p4; p5] /\
     handleCommand env cfg raw st
     = print env
         [ "Projects (page 1/"
             ++ JS.Number_toString (JS.Finite (totalPages cfg)) ++ "):";
           line "1" p1; line "2" p2; line "3" p3; line "4" p4; line "5" p5;
           "Type 'open <n>' to open demo in a new tab." ]
         st1).
Proof.
  intros Hs Hk page st1 line.
  assert (Hr : handleCommand env cfg raw st = cmd_projects env cfg rest st1).
  { rewrite <- (dispatch_projects env cfg name rest Hk).
    eapply handleCommand_routes; eauto; discriminate. }
  pose proof (page_of_spec rest) as (Hnil & Hcons & Hone). fold page in Hnil, Hcons, Hone.
  assert (Hfinite : forall n, page = JS.Finite n ->
            (1 <= n)%Z /\
            page_slice cfg n
            = firstn (pageSize cfg)
                (skipn (Z.to_nat (n - 1) * pageSize cfg) (projects cfg)) /\
            page_start cfg n = Z.of_nat (Z.to_nat (n - 1) * pageSize cfg)).
  { intros n Hn. assert (H1 : (1 <= n)%Z) by (apply Hone; exact Hn).
    split; [exact H1 |]. split; [apply page_slice_eq; exact H1 |].
    unfold page_start. nia. }
  split; [split; [exact Hnil | exact Hcons] |].
  split.
  { intros n Hn start items. destruct (Hfinite n Hn) as (H1 & Hitems & Hstart).
    fold start in Hitems, Hstart. fold items in Hitems.
    split; [exact H1 |]. split; [exact Hitems |]. split.
    { intros i p. rewrite Hitems. apply nth_error_firstn_skipn. }
    rewrite Hr. unfold cmd_projects. fold page. rewrite Hn.
    fold items. rewrite Hstart. split.
    - intros ->. reflexivity.
    - intros Hne. destruct (Nat.eqb_spec (length items) 0) as [H0|_].
      { destruct items; [contradiction | discriminate H0]. }
      f_equal. f_equal. f_equal.
      apply imap_ext. intros i x _. unfold project_line, line, tags_of, tag.
      do 3 f_equal. lia. }
  split.
  { intros Hinf. rewrite Hr. unfold cmd_projects. fold page. rewrite Hinf.
    reflexivity. }
  split.
  { intros Hps.
    rewrite (map_ext _ (fun j => firstn (pageSize cfg)
                                   (skipn (j * pageSize cfg) (projects cfg)))).
    - rewrite pages_concat. apply firstn_all2, totalPages_cover, Hps.
    - intros j. rewrite page_slice_eq by lia. do 3 f_equal. lia. }
  intros Hpg Hps p1 p2 p3 p4 p5 more Hl.
  destruct (Hfinite 1%Z Hpg) as (_ & Hitems & Hstart).
  assert (Hi : page_slice cfg 1 = [p1; p2; p3; p4; p5]).
  { rewrite Hitems, Hps, Hl. reflexivity. }
  split; [exact Hi |].
  rewrite Hr. unfold cmd_projects. fold page. rewrite Hpg, Hi, Hstart.
  reflexivity.
Qed.

Lemma projects_prints_requested_page_witness :
  JS.split_ws (JS.trim "/Projects 1") = ["/Projects"; "1"] /\
  page_slice six_projects 1 = firstn 5 (projects six_projects) /\
  match map block_html
          (output (exec (handleCommand env0 six_projects "/Projects 1")
                        (new_session []))) with
  | [[header; l1; l2; l3; l4; l5; hint]] =>
      header = "Projects (page 1/2):" /\
      JS.startsWith "1. <span class='title'>zensu</span> — A calm" l1 = true /\
      JS.startsWith "5. <span class='title'>five</span> — &lt;b&gt;5" l5 = true /\
      hint = "Type 'open <n>' to open demo in a new tab."
  | _ => False
  end.
Proof.
  assert (Hs : JS.split_ws (JS.trim "/Projects 1") = ["/Projects"; "1"])
    by reflexivity.
  assert (Hk : JS.toLowerCase "/Projects" = "/projects")
    by (vm_compute; reflexivity).
  split; [exact Hs |].
  destruct (projects_prints_requested_page env0 six_projects "/Projects 1"
              "/Projects" ["1"] (new_session []) Hs Hk)
    as (_ & _ & _ & _ & H).
  destruct (H ltac:(vm_compute; reflexivity) eq_refl _ _ _ _ _ _ eq_refl)
    as [Hi He].
  split; [exact Hi |]. unfold exec. rewrite He. vm_compute.
  repeat split; reflexivity.
Defined.

(** Pages of the six sample projects: the second page holds the sixth
    project, numbered 6; the third is empty, and so is the page a very long
    digit string asks for. *)
Example projects_pages :
  map (map (JS.startsWith "6. <span class='title'>six</span> — 6"))
    (map block_html
       (output (exec (handleCommand env0 six_projects "/projects 2")
                     (new_session []))))
  = [[false; true; false]] /\
  map block_html
    (output (exec (handleCommand env0 six_projects "/projects 3") (new_session [])))
  = [["No projects on page 3."]] /\
  map block_html
    (output (exec (handleCommand env0 six_projects "/projects -4") (new_session [])))
  = map block_html
      (output (exec (handleCommand env0 six_projects "/projects") (new_session []))) /\
  map block_html
    (output (exec (handleCommand env0 six_projects "/projects 1e3") (new_session [])))
  = map block_html
      (output (exec (handleCommand env0 six_projects "/projects") (new_session []))) /\
  map block_html
    (output (exec (handleCommand env0 six_projects
                     ("/projects " ++ repeat 57%N 400)) (new_session [])))
  = [["No projects on page Infinity."]] /\
  map block_html
    (output (exec (handleCommand env0 six_projects
                     "/projects 100000000000000000000000") (new_session [])))
  = [["No projects on page 1e+23."]].
Proof. repeat split; vm_compute; reflexivity. Qed.

(** ** Escaping (C6) *)

Lemma replaceAll_char (a : N) (rep s : jstring) :
  JS.replaceAll [a] rep s = replace_char a rep s.
Proof.
  unfold JS.replaceAll. induction s as [|c s IH]; [reflexivity |].
  cbn [JS.replaceAll_from JS.startsWith length Nat.sub replace_char].
  rewrite andb_true_r. destruct (a =? c)%N; rewrite IH; reflexivity.
Qed.

Lemma replace_char_app (a : N) (rep x y : jstring) :
  replace_char a rep (x ++ y) = replace_char a rep x ++ replace_char a rep y.
Proof.
  induction x as [|c x IH]; [reflexivity |].
  simpl. rewrite IH, append_assoc. reflexivity.
Qed.

Lemma escapeHtml_chain (s : jstring) : escapeHtml s = escape_chain s.
Proof.
  unfold escapeHtml, escape_chain.
  change "'" with [39%N]. change ">" with [62%N]. change "<" with [60%N].
  change "&" with [38%N].
  rewrite !replaceAll_char. reflexivity.
Qed.

Lemma escape_chain_app (x y : jstring) :
  escape_chain (x ++ y) = escape_chain x ++ escape_chain y.
Proof. unfold escape_chain. rewrite !replace_char_app. reflexivity. Qed.

Lemma escape_chain_char (c : N) : escape_chain [c] = entity c.
Proof.
  unfold escape_chain, entity, JS.dquote.
  destruct (N.eqb_spec c 38) as [->|H38]; [reflexivity |].
  destruct (N.eqb_spec c 60) as [->|H60]; [reflexivity |].
  destruct (N.eqb_spec c 62) as [->|H62]; [reflexivity |].
  destruct (N.eqb_spec c 34) as [->|H34]; [reflexivity |].
  destruct (N.eqb_spec c 39) as [->|H39]; [reflexivity |].
  cbn [replace_char app].
  rewrite (proj2 (N.eqb_neq 38 c)) by congruence. cbn [replace_char app].
  rewrite (proj2 (N.eqb_neq 60 c)) by congruence. cbn [replace_char app].
  rewrite (proj2 (N.eqb_neq 62 c)) by congruence. cbn [replace_char app].
  rewrite (proj2 (N.eqb_neq 34 c)) by congruence. cbn [replace_char app].
  rewrite (proj2 (N.eqb_neq 39 c)) by congruence. reflexivity.
Qed.

(** The five passes of [escapeHtml] amount to escaping each character. *)
Lemma escapeHtml_each (s : jstring) : escapeHtml s = escape_each s.
Proof.
  rewrite escapeHtml_chain. induction s as [|c s IH]; [reflexivity |].
  change (c :: s) with ([c] ++ s).
  rewrite escape_chain_app, escape_chain_char, IH. reflexivity.
Qed.

Lemma entity_spec (c : N) :
  (markup_sensitive c = false -> entity c = [c]) /\
  ([c] = "&" -> entity c = "&amp;") /\
  ([c] = "<" -> entity c = "&lt;") /\
  ([c] = ">" -> entity c = "&gt;") /\
  (c = JS.dquote -> entity c = "&quot;") /\
  ([c] = "'" -> entity c = "&#039;") /\
  no_markup (entity c) = true.
Proof.
  split.
  { unfold markup_sensitive, entity. intros H.
    repeat (apply orb_false_elim in H as [H ?]).
    repeat match goal with H : _ = false |- _ => rewrite H; clear H end.
    reflexivity. }
  repeat (split; [intros [= ->]; reflexivity |]).
  unfold entity, JS.dquote.
  repeat match goal with
         | |- context [(c =? ?a)%N] => destruct (N.eqb_spec c a); [reflexivity |]
         end.
  unfold no_markup, is_markup, JS.dquote.
  repeat match goal with
         | H : c <> ?a |- _ => rewrite (proj2 (N.eqb_neq c a) H); clear H
         end.
  reflexivity.
Qed.

Lemma no_markup_app (x y : jstring) :
  no_markup (x ++ y) = no_markup x && no_markup y.
Proof.
  induction x as [|c x IH]; [reflexivity |]. simpl.
  rewrite IH, andb_assoc. reflexivity.
Qed.

Lemma no_markup_escapeHtml (s : jstring) : no_markup (escapeHtml s) = true.
Proof.
  rewrite escapeHtml_each. induction s as [|c s IH]; [reflexivity |].
  simpl. rewrite no_markup_app, IH, andb_true_r. apply entity_spec.
Qed.

Lemma no_markup_no_lt (s : jstring) : no_markup s = true -> no_lt s = true.
Proof.
  induction s as [|c s IH]; [reflexivity |]. simpl.
  intros H. apply andb_true_iff in H as [Hc Hs]. rewrite (IH Hs), andb_true_r.
  unfold is_markup in Hc. destruct (c =? 60)%N; [discriminate Hc | reflexivity].
Qed.

(** *** Lines whose only tags are the template's *)








Lemma digit_is_no_lt (c : N) : JS.is_digit c = true -> c <> 60%N.
Proof. intros H ->. discriminate H. Qed.













(** *** What a handler run adds to the scrollback *)
























Example hostile_title_is_escaped :
  map block_html
    (output (exec (handleCommand env0 hostile "open 1") (new_session [])))
  = [["Opening &lt;script&gt;alert(1)&lt;/script&gt;..."]].
Proof. reflexivity. Qed.


(** * Further properties of the page *)

(** ** What one command does to the session *)

Ltac split_cases :=
  repeat match goal with
         | |- context [if ?x then _ else _] => destruct x eqn:?; simpl
         | |- context [match ?x with _ => _ end] => destruct x eqn:?; simpl
         end.

(** The three ways a command can leave the scrollback: cleared, one block
    longer, or untouched by a throw. *)
Lemma dispatch_shape (env : Env) (cfg : Config) (name : jstring)
    (rest : list jstring) (st : State) :
  let r := dispatch env cfg name rest st in
  input (snd r) = input st /\
  ((fst r = Normal tt /\ output (snd r) = [] /\ uuids (snd r) = uuids st /\
    (JS.toLowerCase name = "/clear" \/ JS.toLowerCase name = "cls")) \/
   (fst r = Normal tt /\
    exists ls, ls <> [] /\
      output (snd r) = output st ++ [make_block env (uuids st) ls] /\
      uuids (snd r) = uuids st + S (length ls)) \/
   (exists e, fst r = Throw e /\ output (snd r) = output st /\
      uuids (snd r) = uuids st /\ JS.toLowerCase name = "/help")).
Proof.
  unfold dispatch, cmd_help, cmd_projects, cmd_open, cmd_about,
    cmd_contact, cmd_copy, cmd_resume, cmd_theme, cmd_clear, cmd_search,
    cmd_not_found, try_catch, clipboard_writeText, window_open, bind.
  cbv zeta. split_cases.
  all: split; [reflexivity |].
  all: try (right; left; split; [reflexivity |]; eexists;
            split; [| split; reflexivity]; discriminate).
  all: try (right; right; eexists; repeat split;
            match goal with H : (_ =? "/help") = true |- _ =>
              apply eqb_eq in H; exact H end).
  all: left; repeat split;
       match goal with
       | H : (_ || _) = true |- _ =>
           apply orb_true_iff in H as [H|H]; apply eqb_eq in H; auto
       end.
Qed.

(** The capability calls of each command. *)
Lemma dispatch_calls (env : Env) (cfg : Config) (name : jstring)
    (rest : list jstring) (st : State) :
  let r := dispatch env cfg name rest st in
  let key := JS.toLowerCase name in
  let n := JS.parseInt (first_or rest "") in
  (key = "/resume" ->
   calls (snd r) = calls st ++ [WindowOpen (resumeUrl cfg) "_blank"]) /\
  (key = "copy" ->
   (JS.toLowerCase (JS.join " " rest) = "email" ->
    calls (snd r) = calls st ++ [ClipboardWriteText (email cfg)]) /\
   (JS.toLowerCase (JS.join " " rest) <> "email" -> calls (snd r) = calls st)) /\
  (key = "open" ->
   (forall z p, n = JS.Finite z -> (1 <= z)%Z ->
      nth_error (projects cfg) (Z.to_nat (z - 1)) = Some p ->
      calls (snd r) = calls st ++ [WindowOpen (demoUrl p) "_blank"]) /\
   (n = JS.NaN \/ (exists negative, n = JS.Infinity negative) \/
    (exists z, n = JS.Finite z /\
               (z < 1 \/ Z.of_nat (length (projects cfg)) < z)%Z) ->
    calls (snd r) = calls st)) /\
  (key <> "/resume" -> key <> "copy" -> key <> "open" ->
   calls (snd r) = calls st).
Proof.
  cbv zeta. split; [| split; [| split]].
  - intros Hk. unfold dispatch. cbv zeta. rewrite Hk. reflexivity.
  - intros Hk. rewrite (dispatch_copy env cfg name rest Hk). unfold cmd_copy.
    split; intros He.
    + rewrite He. simpl. unfold try_catch, clipboard_writeText, bind. simpl.
      destruct (clipboard_resolves env (email cfg)); reflexivity.
    + destruct (eqb_spec (JS.toLowerCase (JS.join " " rest)) "email");
        [contradiction | reflexivity].
  - intros Hk. rewrite (dispatch_open env cfg name rest Hk). unfold cmd_open.
    cbv zeta. split.
    + intros z p Hn Hz Hp. rewrite Hn. unfold JS.number_falsy, project_number.
      destruct (Z.eqb_spec z 0); [lia |].
      assert (Hlen : (Z.to_nat (z - 1) < length (projects cfg))%nat)
        by (apply nth_error_Some; congruence).
      destruct (index_in_range (projects cfg) (z - 1) ltac:(lia))
        as (p' & Hp' & ->).
      replace p' with p by congruence. reflexivity.
    + intros [Hn|[[negative Hn]|(z & Hn & Hz)]]; rewrite Hn;
        [reflexivity | reflexivity |].
      unfold JS.number_falsy, project_number.
      destruct (z =? 0)%Z; [reflexivity |].
      rewrite index_out_of_range by lia. reflexivity.
  - intros H1 H2 H3. unfold dispatch. cbv zeta.
    repeat match goal with
           | |- context [?a =? ?b] =>
               destruct (eqb_spec a b); try contradiction; cbn [orb]
           end.
    all: try reflexivity.
    + unfold cmd_help. split_cases; reflexivity.
    + unfold cmd_projects. split_cases; reflexivity.
    + unfold cmd_theme, bind. split_cases; reflexivity.
    + unfold cmd_search. split_cases; reflexivity.
Qed.

(** A command throws exactly on [/help] with an inherited topic. *)
Lemma dispatch_throws (env : Env) (cfg : Config) (name : jstring)
    (rest : list jstring) (st : State) :
  let r := dispatch env cfg name rest st in
  (fst r = Normal tt \/
   fst r = Throw (TypeError "s.replaceAll is not a function")) /\
  (fst r <> Normal tt <->
   JS.toLowerCase name = "/help" /\
   JS.mem (JS.join " " rest) JS.Object_prototype_keys = true).
Proof.
  cbv zeta.
  destruct (eqb_spec (JS.toLowerCase name) "/help") as [Hk|Hk].
  - rewrite (dispatch_help env cfg name rest Hk). unfold cmd_help, JS.get.
    destruct (eqb_spec (JS.join " " rest) "") as [Ha|Ha].
    { rewrite Ha. simpl. split; [left; reflexivity |].
      split; [congruence | intros [_ H]; discriminate H]. }
    destruct (JS.own_get details (JS.join " " rest)) as [v|] eqn:Hown.
    { simpl. split; [left; reflexivity |]. split; [congruence |].
      intros [_ Hm]. exfalso. revert Hown Hm. unfold details. simpl.
      repeat match goal with
             | |- context [JS.eqb ?a ?b] =>
                 destruct (eqb_spec a b) as [->|?]; [intros _ H; discriminate H |]
             end.
      discriminate. }
    destruct (JS.mem (JS.join " " rest) JS.Object_prototype_keys); simpl.
    + split; [right; reflexivity |]. split; [auto | discriminate].
    + split; [left; reflexivity |]. split; [congruence | intros [_ H]; discriminate H].
  - destruct (dispatch_shape env cfg name rest st)
      as [_ [(Hn & _)|[(Hn & _)|(e & _ & _ & _ & Hh)]]]; [| | contradiction].
    + rewrite Hn. split; [left; reflexivity |].
      split; [congruence | intros [H _]; contradiction].
    + rewrite Hn. split; [left; reflexivity |].
      split; [congruence | intros [H _]; contradiction].
Qed.

(** Only [/theme] sets the theme. *)
Lemma dispatch_theme_frame (env : Env) (cfg : Config) (name : jstring)
    (rest : list jstring) (st : State) :
  JS.toLowerCase name <> "/theme" ->
  theme (snd (dispatch env cfg name rest st)) = theme st.
Proof.
  intros Hk. unfold dispatch. cbv zeta.
  destruct (eqb_spec (JS.toLowerCase name) "/theme") as [?|_];
    [contradiction |].
  unfold cmd_help, cmd_projects, cmd_open, cmd_about,
    cmd_contact, cmd_copy, cmd_resume, cmd_clear, cmd_search,
    cmd_not_found, try_catch, clipboard_writeText, window_open, bind.
  split_cases; reflexivity.
Qed.

(** A line that is not blank has a command name and is handed to the
    command on the recorded state. *)
Lemma handleCommand_cases (env : Env) (cfg : Config) (raw : jstring) (st : State) :
  (JS.trim raw = "" /\ handleCommand env cfg raw st = (Normal tt, st)) \/
  (JS.trim raw <> "" /\
   exists name rest,
     JS.split_ws (JS.trim raw) = name :: rest /\
     handleCommand env cfg raw st
     = dispatch env cfg name rest (recorded (JS.trim raw) st)).
Proof.
  destruct (eqb_spec (JS.trim raw) "") as [He|Hne].
  - left. split; [exact He | apply handleCommand_blank, He].
  - right. split; [exact Hne |].
    destruct (JS.split_ws (JS.trim raw)) as [|name rest] eqn:Hs.
    { exfalso. exact (split_ws_not_nil _ Hs). }
    exists name, rest. split; [reflexivity |].
    apply handleCommand_dispatch; assumption.
Qed.

Lemma map_seq_from (f : nat -> jstring) (a n : nat) :
  map f (seq a n) = map (fun i => f (a + i)) (seq 0 n).
Proof.
  revert a. induction n as [|n IH]; intros a; [reflexivity |].
  simpl. f_equal; [f_equal; lia |].
  rewrite (IH (S a)), <- seq_shift, map_map.
  apply map_ext. intros i. f_equal. lia.
Qed.

Lemma map_line_id_imap (g : nat -> jstring) (ls : list jstring) :
  map line_id (imap (fun i h => {| line_id := g i; html := h |}) ls)
  = map g (seq 0 (length ls)).
Proof.
  revert g. induction ls as [|l ls IH]; intros g; [reflexivity |].
  simpl. f_equal. rewrite <- seq_shift, map_map. exact (IH (g ∘ S)).
Qed.

Lemma block_ids_make_block (env : Env) (k : nat) (ls : list jstring) :
  block_ids (make_block env k ls) = map (randomUUID env) (seq k (S (length ls))).
Proof.
  unfold block_ids, make_block. simpl. f_equal.
  rewrite (map_line_id_imap (fun i => randomUUID env (S (k + i))) ls).
  rewrite (map_seq_from (randomUUID env) (S k)). reflexivity.
Qed.

(** X1: what a command line that is not blank does to the scrollback is
    decided by its command.  It always clears the input box.  The clear
    commands ([/clear], [cls]) complete normally, empty the scrollback and
    draw no identifier.  [/help] with a topic that is a property name
    inherited from [Object.prototype] throws and leaves the scrollback and
    the UUID source as they were.  Every other command completes normally
    and appends exactly one block of at least one line, whose identifiers
    are the next values of the UUID source (one for the block, one per
    line), after the earlier blocks. *)
Theorem command_appends_one_block
    (env : Env) (cfg : Config) (raw name : jstring) (rest : list jstring)
    (st : State) :
  JS.trim raw <> "" ->
  JS.split_ws (JS.trim raw) = name :: rest ->
  let key := JS.toLowerCase name in
  let inherited := JS.mem (JS.join " " rest) JS.Object_prototype_keys in
  let st' := exec (handleCommand env cfg raw) st in
  input st' = "" /\
  (key = "/clear" \/ key = "cls" ->
   outcome (handleCommand env cfg raw) st = Normal tt /\
   output st' = [] /\ uuids st' = uuids st) /\
  (key = "/help" /\ inherited = true ->
   outcome (handleCommand env cfg raw) st
   = Throw (TypeError "s.replaceAll is not a function") /\
   output st' = output st /\ uuids st' = uuids st) /\
  (key <> "/clear" -> key <> "cls" ->
   ~ (key = "/help" /\ inherited = true) ->
   outcome (handleCommand env cfg raw) st = Normal tt /\
   exists ls, ls <> [] /\
     output st' = output st ++ [make_block env (uuids st) ls] /\
     map html (lines (make_block env (uuids st) ls)) = ls /\
     block_ids (make_block env (uuids st) ls)
     = map (randomUUID env) (seq (uuids st) (S (length ls))) /\
     uuids st' = uuids st + S (length ls)).
Proof.
  intros Hne Hs. cbv zeta.
  destruct (handleCommand_cases env cfg raw st)
    as [[He _]|(_ & name' & rest' & Hs' & Hr)]; [contradiction |].
  rewrite Hs in Hs'. injection Hs' as <- <-.
  unfold exec, outcome. rewrite Hr.
  set (st1 := recorded (JS.trim raw) st).
  pose proof (dispatch_throws env cfg name rest st1) as [Hwhich Hthrows].
  cbv zeta in Hwhich, Hthrows.
  destruct (dispatch_shape env cfg name rest st1)
    as [Hi [(Hn & Ho & Hu & Hc)|[(Hn & ls & Hls & Ho & Hu)|(e & Ht & Ho & Hu & Hh)]]].
  - split; [rewrite Hi; reflexivity |]. split; [auto |]. split.
    + intros Hk. apply Hthrows in Hk. contradiction.
    + intros H1 H2 _. destruct Hc; contradiction.
  - split; [rewrite Hi; reflexivity |]. split; [| split].
    + intros Hk. exfalso. revert Ho.
      rewrite (dispatch_clear env cfg name rest Hk). simpl.
      intros Ho. symmetry in Ho. apply app_eq_nil in Ho as [_ Ho].
      discriminate Ho.
    + intros Hk. apply Hthrows in Hk. contradiction.
    + intros _ _ _. split; [exact Hn |]. exists ls.
      split; [exact Hls |]. split; [exact Ho |].
      split; [apply block_html_make_block |].
      split; [apply block_ids_make_block | exact Hu].
  - assert (Hthrown : fst (dispatch env cfg name rest st1) <> Normal tt)
      by (rewrite Ht; discriminate).
    split; [rewrite Hi; reflexivity |]. split; [| split].
    + intros Hk. exfalso. revert Ht.
      rewrite (dispatch_clear env cfg name rest Hk). discriminate.
    + intros _. destruct Hwhich as [Hw|Hw]; [contradiction |]. auto.
    + intros _ _ Hno. apply Hthrows in Hthrown. contradiction.
Qed.

Lemma command_appends_one_block_witness :
  JS.trim " /contact  me " <> "" /\
  JS.split_ws (JS.trim " /contact  me ") = ["/contact"; "me"] /\
  input (exec (handleCommand env0 CONFIG " /contact  me ") (browsing_abc 1)) = "" /\
  outcome (handleCommand env0 CONFIG " /contact  me ") (browsing_abc 1)
  = Normal tt /\
  length (output (exec (handleCommand env0 CONFIG " /contact  me ")
                    (browsing_abc 1))) = 1.
Proof.
  assert (Hne : JS.trim " /contact  me " <> "") by (vm_compute; discriminate).
  assert (Hs : JS.split_ws (JS.trim " /contact  me ") = ["/contact"; "me"])
    by reflexivity.
  split; [exact Hne |]. split; [exact Hs |].
  destruct (command_appends_one_block env0 CONFIG " /contact  me " "/contact"
              ["me"] (browsing_abc 1) Hne Hs) as (Hi & _ & _ & Hone).
  split; [exact Hi |].
  destruct Hone as (Hn & ls & _ & Ho & _);
    [discriminate | discriminate | intros [H _]; discriminate H |].
  split; [exact Hn |]. rewrite Ho. rewrite length_app. reflexivity.
Defined.

(** X2: the handler throws on exactly one kind of line: [/help] with a
    topic that is a property name inherited from [Object.prototype].  Every
    other line, whatever its command and arguments, completes normally. *)
Theorem handler_throws_only_on_inherited_help_topic
    (env : Env) (cfg : Config) (raw name : jstring) (rest : list jstring)
    (st : State) :
  JS.split_ws (JS.trim raw) = name :: rest ->
  (outcome (handleCommand env cfg raw) st = Normal tt \/
   outcome (handleCommand env cfg raw) st
   = Throw (TypeError "s.replaceAll is not a function")) /\
  (outcome (handleCommand env cfg raw) st <> Normal tt <->
   JS.toLowerCase name = "/help" /\
   JS.mem (JS.join " " rest) JS.Object_prototype_keys = true).
Proof.
  intros Hs. unfold outcome.
  destruct (handleCommand_cases env cfg raw st)
    as [[He Hr]|(_ & name' & rest' & Hs' & Hr)].
  { rewrite Hr. simpl. split; [left; reflexivity |]. split; [congruence |].
    intros [Hk _]. rewrite He in Hs. simpl in Hs. injection Hs as <- _.
    vm_compute in Hk. discriminate Hk. }
  rewrite Hs in Hs'. injection Hs' as <- <-. rewrite Hr.
  exact (dispatch_throws env cfg name rest (recorded (JS.trim raw) st)).
Qed.

Lemma handler_throws_only_on_inherited_help_topic_witness :
  JS.split_ws (JS.trim "/HELP toString") = ["/HELP"; "toString"] /\
  outcome (handleCommand env0 CONFIG "/HELP toString") (new_session [])
  <> Normal tt.
Proof.
  assert (Hs : JS.split_ws (JS.trim "/HELP toString") = ["/HELP"; "toString"])
    by reflexivity.
  split; [exact Hs |].
  apply (handler_throws_only_on_inherited_help_topic env0 CONFIG
           "/HELP toString" "/HELP" ["toString"] (new_session []) Hs).
  split; reflexivity.
Defined.

(** A no-break space separates the topic from [/help]; an escaped
    identifier, a tab or an ideographic space do as well. *)
Example help_after_no_break_space :
  outcome (handleCommand env0 CONFIG ("/help" ++ [0xA0%N] ++ "constructor"))
          (new_session [])
  = Throw (TypeError "s.replaceAll is not a function") /\
  outcome (handleCommand env0 CONFIG ("/help" ++ [0x3000%N] ++ "toString"))
          (new_session [])
  = Throw (TypeError "s.replaceAll is not a function") /\
  outcome (handleCommand env0 CONFIG ("/help" ++ [0xA0%N] ++ "open"))
          (new_session [])
  = Normal tt.
Proof. repeat split; vm_compute; reflexivity. Qed.

(** X3: the capabilities a command uses are decided by its name and
    arguments.  The theme changes only under [/theme].  [/resume] makes
    exactly one call, opening the configured resume URL in a new tab.
    [copy] makes exactly one call, writing the configured e-mail address to
    the clipboard, when its arguments joined by single spaces lower-case to
    [email], and no call otherwise.  [open] makes exactly one call, opening
    the demo URL of project [n] in a new tab, when [parseInt] reads from
    its first argument a number [n] from 1 to the project count, and no
    call when it reads no number, an infinite one, or one outside that
    range.  Every other command makes no call. *)
Theorem command_capabilities_are_confined
    (env : Env) (cfg : Config) (raw name : jstring) (rest : list jstring)
    (st : State) :
  JS.split_ws (JS.trim raw) = name :: rest ->
  let key := JS.toLowerCase name in
  let n := JS.parseInt (first_or rest "") in
  let st' := exec (handleCommand env cfg raw) st in
  (key <> "/theme" -> theme st' = theme st) /\
  (key = "/resume" ->
   calls st' = calls st ++ [WindowOpen (resumeUrl cfg) "_blank"]) /\
  (key = "copy" ->
   (JS.toLowerCase (JS.join " " rest) = "email" ->
    calls st' = calls st ++ [ClipboardWriteText (email cfg)]) /\
   (JS.toLowerCase (JS.join " " rest) <> "email" -> calls st' = calls st)) /\
  (key = "open" ->
   (forall z p, n = JS.Finite z -> (1 <= z)%Z ->
      nth_error (projects cfg) (Z.to_nat (z - 1)) = Some p ->
      calls st' = calls st ++ [WindowOpen (demoUrl p) "_blank"]) /\
   (n = JS.NaN \/ (exists negative, n = JS.Infinity negative) \/
    (exists z, n = JS.Finite z /\
               (z < 1 \/ Z.of_nat (length (projects cfg)) < z)%Z) ->
    calls st' = calls st)) /\
  (key <> "/resume" -> key <> "copy" -> key <> "open" ->
   calls st' = calls st).
Proof.
  intros Hs. cbv zeta. unfold exec.
  destruct (handleCommand_cases env cfg raw st)
    as [[He Hr]|(_ & name' & rest' & Hs' & Hr)].
  { rewrite He in Hs. simpl in Hs. injection Hs as <- <-. rewrite Hr.
    repeat split; intros; try reflexivity;
      match goal with
      | H : JS.toLowerCase "" = _ |- _ => vm_compute in H; discriminate H
      end. }
  rewrite Hs in Hs'. injection Hs' as <- <-. rewrite Hr. split.
  - intros Hk. rewrite (dispatch_theme_frame env cfg name rest _ Hk).
    reflexivity.
  - exact (dispatch_calls env cfg name rest (recorded (JS.trim raw) st)).
Qed.

Lemma command_capabilities_are_confined_witness :
  JS.split_ws (JS.trim "/Resume now") = ["/Resume"; "now"] /\
  theme (exec (handleCommand env0 CONFIG "/Resume now") (new_session []))
  = "dark" /\
  calls (exec (handleCommand env0 CONFIG "/Resume now") (new_session []))
  = [WindowOpen (resumeUrl CONFIG) "_blank"].
Proof.
  assert (Hs : JS.split_ws (JS.trim "/Resume now") = ["/Resume"; "now"])
    by reflexivity.
  split; [exact Hs |].
  destruct (command_capabilities_are_confined env0 CONFIG "/Resume now"
              "/Resume" ["now"] (new_session []) Hs) as (Ht & Hr & _).
  split; [apply Ht; discriminate | apply Hr; reflexivity].
Defined.

Example command_capabilities :
  let run raw := calls (exec (handleCommand env0 CONFIG raw) (new_session [])) in
  run "open 2" = [WindowOpen "#" "_blank"] /\
  run "open 2nd" = [WindowOpen "#" "_blank"] /\
  run "open 5" = [] /\ run "open" = [] /\ run "open 0" = [] /\
  run "COPY Email" = [ClipboardWriteText (email CONFIG)] /\
  run "copy email please" = [] /\
  run "/theme light" = [] /\ run "search zen" = [] /\ run "/help open" = [].
Proof. cbv zeta. repeat split; vm_compute; reflexivity. Qed.

(** ** Sessions *)

Lemma index_nth_error {A} (l : list A) (i : Z) :
  (0 <= i < Z.of_nat (length l))%Z -> JS.index l i = nth_error l (Z.to_nat i).
Proof.
  intros Hi. destruct (index_in_range l i Hi) as (e & -> & ->). reflexivity.
Qed.


Lemma trimStart_fixed (s : jstring) : JS.starts_ws s = false -> JS.trimStart s = s.
Proof. destruct s as [|c s]; simpl; [reflexivity |]. intros ->. reflexivity. Qed.

Lemma trimEnd_fixed (s : jstring) : ends_ws s = false -> JS.trimEnd s = s.
Proof.
  induction s as [|c s IH]; [reflexivity |]. cbn [ends_ws JS.trimEnd].
  destruct (eqb_spec s "") as [->|Hs].
  - intros ->. reflexivity.
  - intros He. rewrite (IH He).
    destruct (eqb_spec s ""); [contradiction |].
    rewrite andb_false_r. reflexivity.
Qed.

(** Trimming twice is trimming once. *)
Lemma trim_idempotent (s : jstring) : JS.trim (JS.trim s) = JS.trim s.
Proof.
  unfold JS.trim at 1. rewrite (trimStart_fixed _ (starts_ws_trim s)).
  apply trimEnd_fixed. unfold JS.trim. apply ends_ws_trimEnd.
Qed.

Lemma handleCommand_history (env : Env) (cfg : Config) (raw : jstring) (st : State) :
  (JS.trim raw = "" /\ exec (handleCommand env cfg raw) st = st) \/
  (JS.trim raw <> "" /\
   history (exec (handleCommand env cfg raw) st) = history st ++ [JS.trim raw] /\
   historyIdx (exec (handleCommand env cfg raw) st) = (-1)%Z).
Proof.
  unfold exec.
  destruct (handleCommand_cases env cfg raw st)
    as [[He Hr]|(Hne & name & rest & Hs & Hr)]; rewrite Hr.
  - left. split; [exact He | reflexivity].
  - right. split; [exact Hne |].
    destruct (dispatch_history env cfg name rest (recorded (JS.trim raw) st))
      as [Hh Hi].
    unfold exec in Hh, Hi. rewrite Hh, Hi. split; reflexivity.
Qed.

Lemma on_event_history (env : Env) (cfg : Config) (ev : event) (st : State) :
  history (exec (on_event env cfg ev) st) = history st \/
  (is_enter ev = true /\
   exists e, trimmed_entry e /\
     history (exec (on_event env cfg ev) st) = history st ++ [e]).
Proof.
  destruct ev as [[| | |k]|text|]; try (left; reflexivity).
  - change (exec (on_event env cfg (KeyDown Enter)) st)
      with (exec (handleCommand env cfg (input st)) st).
    destruct (handleCommand_history env cfg (input st) st) as [[_ He]|(Hne & Hh & _)].
    + left. rewrite He. reflexivity.
    + right. split; [reflexivity |]. exists (JS.trim (input st)).
      split; [split; [exact Hne | apply trim_idempotent] | exact Hh].
  - left. unfold exec. simpl.
    destruct (length (history st) =? 0)%nat; reflexivity.
  - left. unfold exec. simpl.
    destruct (length (history st) =? 0)%nat; reflexivity.
Qed.

(** X4: the history is append-only.  Whatever the user does, the history
    after a session is the history before it followed by new entries; there
    are at most as many new entries as Enter keys, and each of them is a
    line that is not empty and has no white space at its ends. *)
Theorem session_history_is_append_only
    (env : Env) (cfg : Config) (evs : list event) (st : State) :
  exists added,
    history (run env cfg evs st) = history st ++ added /\
    Forall trimmed_entry added /\
    length added <= length (List.filter is_enter evs).
Proof.
  revert st. induction evs as [|ev evs IH]; intros st.
  - exists []. simpl. rewrite app_nil_r. repeat split; [constructor | lia].
  - simpl. destruct (IH (exec (on_event env cfg ev) st)) as (added & Hh & Ht & Hl).
    destruct (on_event_history env cfg ev st) as [He|(Hen & e & Hte & He)].
    + exists added. rewrite Hh, He. split; [reflexivity |]. split; [exact Ht |].
      destruct (is_enter ev); simpl; lia.
    + exists (e :: added). rewrite Hh, He, <- app_assoc. split; [reflexivity |].
      split; [constructor; assumption |]. rewrite Hen. simpl. lia.
Qed.

(** X5: the history cursor is always off (-1) or at an entry of the
    history: every event keeps this, so it holds throughout a session that
    starts from a load (cursor -1). *)
Theorem session_cursor_stays_valid
    (env : Env) (cfg : Config) (evs : list event) (st : State) :
  cursor_valid st -> cursor_valid (run env cfg evs st).
Proof.
  revert st. induction evs as [|ev evs IH]; intros st Hv; [exact Hv |].
  simpl. apply IH. destruct ev as [k|text|].
  - apply cursor_valid_onKeyDown, Hv.
  - exact Hv.
  - exact Hv.
Qed.

Lemma session_cursor_stays_valid_witness :
  cursor_valid (new_session ["a"; "b"]) /\
  cursor_valid
    (run env0 CONFIG
       [KeyDown ArrowUp; KeyDown ArrowUp; KeyDown ArrowUp; Change "x";
        KeyDown ArrowDown; KeyDown Enter; KeyDown ArrowUp]
       (new_session ["a"; "b"])).
Proof.
  assert (Hv : cursor_valid (new_session ["a"; "b"])) by (left; reflexivity).
  split; [exact Hv |]. apply session_cursor_stays_valid, Hv.
Defined.


Lemma ids_fresh_same (env : Env) (st st' : State) :
  output st' = output st -> uuids st' = uuids st ->
  ids_fresh env st -> ids_fresh env st'.
Proof.
  intros Ho Hu (ks & Hk & Hn & Hf). exists ks. unfold output_ids.
  rewrite Ho, Hu. auto.
Qed.

Lemma ids_fresh_handleCommand (env : Env) (cfg : Config) (raw : jstring) (st : State) :
  ids_fresh env st -> ids_fresh env (exec (handleCommand env cfg raw) st).
Proof.
  intros Hf. unfold exec.
  destruct (handleCommand_cases env cfg raw st)
    as [[He Hr]|(Hne & name & rest & Hs & Hr)]; rewrite Hr; [exact Hf |].
  assert (Hf1 : ids_fresh env (recorded (JS.trim raw) st))
    by (apply (ids_fresh_same env st); [reflexivity | reflexivity | exact Hf]).
  destruct (dispatch_shape env cfg name rest (recorded (JS.trim raw) st))
    as [_ [(_ & Ho & Hu & _)|[(_ & ls & _ & Ho & Hu)|(e & _ & Ho & Hu & _)]]].
  - exists []. unfold output_ids. rewrite Ho. repeat split; constructor.
  - destruct Hf1 as (ks & Hk & Hn & Hlt).
    exists (ks ++ seq (uuids st) (S (length ls))).
    unfold output_ids in *. rewrite Ho, Hu, map_app, concat_app, Hk, map_app.
    cbn [map concat]. rewrite app_nil_r, block_ids_make_block.
    change (uuids (recorded (JS.trim raw) st)) with (uuids st) in *.
    split; [reflexivity |]. split.
    + apply NoDup_app. split; [exact Hn |]. split; [| apply NoDup_seq].
      intros k Hin Hin'. apply list_elem_of_In, in_seq in Hin'.
      apply list_elem_of_In in Hin.
      pose proof (proj1 (List.Forall_forall _ _) Hlt k Hin) as Hlt'.
      simpl in Hlt'. lia.
    + apply Forall_app. split.
      * eapply Forall_impl; [exact Hlt |]. simpl. intros; lia.
      * apply List.Forall_forall. intros k Hin. apply in_seq in Hin. lia.
  - apply (ids_fresh_same env (recorded (JS.trim raw) st)); assumption.
Qed.

Lemma ids_fresh_on_event (env : Env) (cfg : Config) (ev : event) (st : State) :
  ids_fresh env st -> ids_fresh env (exec (on_event env cfg ev) st).
Proof.
  intros Hf. destruct ev as [[| | |k]|text|].
  - apply (ids_fresh_same env (exec (handleCommand env cfg (input st)) st));
      [reflexivity | reflexivity |].
    apply ids_fresh_handleCommand, Hf.
  - apply (ids_fresh_same env st); [| | exact Hf]; unfold exec; simpl;
      destruct (length (history st) =? 0)%nat; reflexivity.
  - apply (ids_fresh_same env st); [| | exact Hf]; unfold exec; simpl;
      destruct (length (history st) =? 0)%nat; reflexivity.
  - exact Hf.
  - apply (ids_fresh_same env st); [reflexivity | reflexivity | exact Hf].
  - apply (ids_fresh_same env st); [reflexivity | reflexivity | exact Hf].
Qed.

(** X6: the identifiers [print] gives to blocks and lines (the React keys
    of the scrollback) never repeat within a session: they are the values
    of distinct draws from the UUID source, also after the scrollback was
    cleared, so they are pairwise distinct whenever the source does not
    repeat itself. *)
Theorem session_ids_are_distinct_draws
    (env : Env) (cfg : Config) (evs : list event) (st : State) :
  ids_fresh env st ->
  ids_fresh env (run env cfg evs st) /\
  ((forall i j, randomUUID env i = randomUUID env j -> i = j) ->
   NoDup (output_ids (run env cfg evs st))).
Proof.
  intros Hf.
  assert (Hr : ids_fresh env (run env cfg evs st)).
  { revert st Hf. induction evs as [|ev evs IH]; intros st Hf; [exact Hf |].
    simpl. apply IH, ids_fresh_on_event, Hf. }
  split; [exact Hr |]. intros Hinj.
  destruct Hr as (ks & -> & Hn & _).
  apply NoDup_fmap_2; [| exact Hn]. intros i j. apply Hinj.
Qed.

Lemma session_ids_are_distinct_draws_witness :
  ids_fresh env0 (new_session []) /\
  ids_fresh env0
    (run env0 CONFIG
       [Change "/about"; KeyDown Enter; Change "cls"; KeyDown Enter;
        Change "/contact"; KeyDown Enter]
       (new_session [])).
Proof.
  assert (Hf : ids_fresh env0 (new_session [])).
  { exists []. repeat split; constructor. }
  split; [exact Hf |].
  apply (session_ids_are_distinct_draws env0 CONFIG _ (new_session []) Hf).
Defined.

(** ** Keys *)

(** X7: Up-arrow on a history that is not empty only changes the cursor
    and the input box: from "not browsing" it goes to the newest entry,
    from an entry after the first to the entry before it, and at the first
    entry it stays; the input box shows the entry the cursor is then at.
    On an empty history it changes nothing. *)
Theorem arrow_up_steps_back_to_first
    (env : Env) (cfg : Config) (st : State) :
  cursor_valid st ->
  let len := Z.of_nat (length (history st)) in
  let st' := exec (onKeyDown env cfg ArrowUp) st in
  (history st = [] -> st' = st) /\
  (history st <> [] ->
   history st' = history st /\ output st' = output st /\
   theme st' = theme st /\ calls st' = calls st /\
   historyIdx st' = (if (historyIdx st =? -1)%Z then len - 1
                     else Z.max 0 (historyIdx st - 1))%Z /\
   (0 <= historyIdx st' < len)%Z /\
   nth_error (history st) (Z.to_nat (historyIdx st')) = Some (input st')).
Proof.
  intros Hv len st'. subst st'. unfold exec, onKeyDown. split.
  - intros ->. reflexivity.
  - intros Hne.
    assert (Hlen : (1 <= len)%Z).
    { subst len. destruct (history st); [contradiction | simpl; lia]. }
    destruct (Nat.eqb_spec (length (history st)) 0) as [H0|_]; [lia |].
    fold len. cbn.
    repeat (split; [reflexivity |]).
    set (idx := (if (historyIdx st =? -1)%Z then len - 1
                 else Z.max 0 (historyIdx st - 1))%Z).
    assert (Hidx : (0 <= idx < len)%Z).
    { subst idx. unfold cursor_valid in Hv. fold len in Hv.
      destruct (Z.eqb_spec (historyIdx st) (-1)); lia. }
    split; [exact Hidx |].
    destruct (index_in_range (history st) idx Hidx) as (e & Hn & Hx).
    unfold history_entry. rewrite Hx, Hn. reflexivity.
Qed.

Lemma arrow_up_steps_back_to_first_witness :
  cursor_valid (browsing_abc 0) /\
  historyIdx (exec (onKeyDown env0 CONFIG ArrowUp) (browsing_abc 0)) = 0%Z /\
  nth_error (history (browsing_abc 0)) 0
  = Some (input (exec (onKeyDown env0 CONFIG ArrowUp) (browsing_abc 0))).
Proof.
  assert (Hv : cursor_valid (browsing_abc 0)) by (right; simpl; lia).
  split; [exact Hv |].
  destruct (arrow_up_steps_back_to_first env0 CONFIG (browsing_abc 0) Hv)
    as [_ H].
  destruct (H ltac:(discriminate)) as (_ & _ & _ & _ & Hi & _ & Hn).
  split; [exact Hi | exact Hn].
Defined.

(** X8: the two arrows undo each other inside the history.  While browsing
    at an entry that is not the first, Up then Down comes back to the same
    entry; at an entry that is not the newest, Down then Up does.  The
    input box then shows that entry, whatever it held before. *)
Theorem arrows_undo_each_other
    (env : Env) (cfg : Config) (st : State) :
  let len := Z.of_nat (length (history st)) in
  let up := exec (onKeyDown env cfg ArrowUp) in
  let down := exec (onKeyDown env cfg ArrowDown) in
  ((1 <= historyIdx st < len)%Z ->
   historyIdx (down (up st)) = historyIdx st /\
   history (down (up st)) = history st /\
   nth_error (history st) (Z.to_nat (historyIdx st)) = Some (input (down (up st)))) /\
  ((0 <= historyIdx st < len - 1)%Z ->
   historyIdx (up (down st)) = historyIdx st /\
   history (up (down st)) = history st /\
   nth_error (history st) (Z.to_nat (historyIdx st)) = Some (input (up (down st)))).
Proof.
  intros len up down. subst up down. unfold exec, onKeyDown.
  split; intros Hi.
  - destruct (Nat.eqb_spec (length (history st)) 0) as [H0|_]; [lia |].
    fold len. cbn.
    destruct (Nat.eqb_spec (length (history st)) 0) as [H0|_]; [lia |].
    destruct (Z.eqb_spec (historyIdx st) (-1)) as [?|_]; [lia |].
    rewrite Z.max_r by lia. cbn. fold len.
    destruct (Z.eqb_spec (historyIdx st - 1) (-1)) as [?|_]; [lia |].
    rewrite Z.min_r by lia.
    replace (historyIdx st - 1 + 1)%Z with (historyIdx st) by lia.
    destruct (Z.eqb_spec (historyIdx st) (-1)) as [?|_]; [lia |].
    repeat (split; [reflexivity |]).
    destruct (index_in_range (history st) (historyIdx st) ltac:(lia))
      as (e & Hn & Hx).
    unfold history_entry. rewrite Hx, Hn. reflexivity.
  - destruct (Nat.eqb_spec (length (history st)) 0) as [H0|_]; [lia |].
    fold len. cbn.
    destruct (Nat.eqb_spec (length (history st)) 0) as [H0|_]; [lia |].
    destruct (Z.eqb_spec (historyIdx st) (-1)) as [?|_]; [lia |].
    rewrite Z.min_r by lia. cbn. fold len.
    destruct (Z.eqb_spec (historyIdx st + 1) (-1)) as [?|_]; [lia |].
    rewrite Z.max_r by lia.
    replace (historyIdx st + 1 - 1)%Z with (historyIdx st) by lia.
    repeat (split; [reflexivity |]).
    destruct (index_in_range (history st) (historyIdx st) ltac:(lia))
      as (e & Hn & Hx).
    unfold history_entry. rewrite Hx, Hn. reflexivity.
Qed.

Lemma arrows_undo_each_other_witness :
  (1 <= historyIdx (browsing_abc 1) < 3)%Z /\
  historyIdx
    (exec (onKeyDown env0 CONFIG ArrowDown)
       (exec (onKeyDown env0 CONFIG ArrowUp) (browsing_abc 1))) = 1%Z /\
  nth_error (history (browsing_abc 1)) 1
  = Some (input
            (exec (onKeyDown env0 CONFIG ArrowDown)
               (exec (onKeyDown env0 CONFIG ArrowUp) (browsing_abc 1)))).
Proof.
  assert (Hi : (1 <= historyIdx (browsing_abc 1) < 3)%Z) by (simpl; lia).
  split; [exact Hi |].
  destruct (arrows_undo_each_other env0 CONFIG (browsing_abc 1)) as [H _].
  destruct (H Hi) as (H1 & _ & H2). split; [exact H1 | exact H2].
Defined.

(** X9: a submitted line can be recalled.  After the user edits the input
    box to a line that is not blank and presses Enter, the input box is
    empty and the cursor off; one Up-arrow then puts the line back, trimmed,
    with the cursor at the new last entry.  This holds whatever the command
    was, also when it is unknown or throws. *)
Theorem submitted_line_is_recalled_by_arrow_up
    (env : Env) (cfg : Config) (raw : jstring) (st : State) :
  JS.trim raw <> "" ->
  let submitted := run env cfg [Change raw; KeyDown Enter] st in
  let recalled := run env cfg [Change raw; KeyDown Enter; KeyDown ArrowUp] st in
  input submitted = "" /\ historyIdx submitted = (-1)%Z /\
  history submitted = history st ++ [JS.trim raw] /\
  input recalled = JS.trim raw /\
  historyIdx recalled = Z.of_nat (length (history st)) /\
  history recalled = history submitted.
Proof.
  intros Hne submitted recalled.
  set (typed := exec (setInput raw) st).
  assert (Hsub : submitted = exec (handleCommand env cfg raw) typed) by reflexivity.
  assert (Hrec : recalled = exec (onKeyDown env cfg ArrowUp) submitted) by reflexivity.
  clearbody submitted recalled.
  destruct (handleCommand_history env cfg raw typed) as [[He _]|(_ & Hh & Hi)];
    [contradiction |].
  assert (Hin : input submitted = "").
  { rewrite Hsub. unfold exec.
    destruct (handleCommand_cases env cfg raw typed)
      as [[He _]|(_ & name & rest & _ & Hr)]; [contradiction |].
    rewrite Hr.
    rewrite (proj1 (dispatch_shape env cfg name rest (recorded (JS.trim raw) typed))).
    reflexivity. }
  rewrite <- Hsub in Hh, Hi. change (history typed) with (history st) in Hh.
  split; [exact Hin |]. split; [exact Hi |]. split; [exact Hh |].
  rewrite Hrec. unfold exec, onKeyDown. rewrite Hh, Hi.
  rewrite length_app. simpl.
  destruct (Nat.eqb_spec (length (history st) + 1) 0) as [?|_]; [lia |].
  cbn. unfold history_entry.
  replace (Z.of_nat (length (history st) + 1) - 1)%Z
    with (Z.of_nat (length (history st))) by lia.
  rewrite index_nth_error by (rewrite length_app; simpl; lia).
  rewrite Nat2Z.id, nth_error_app2, Nat.sub_diag by lia. simpl.
  repeat split; try reflexivity. exact Hh.
Qed.

Lemma submitted_line_is_recalled_by_arrow_up_witness :
  JS.trim "  /help constructor " <> "" /\
  input (run env0 CONFIG
           [Change "  /help constructor "; KeyDown Enter; KeyDown ArrowUp]
           (browsing_abc 1))
  = "/help constructor".
Proof.
  assert (Hne : JS.trim "  /help constructor " <> "") by (vm_compute; discriminate).
  split; [exact Hne |].
  destruct (submitted_line_is_recalled_by_arrow_up env0 CONFIG
              "  /help constructor " (browsing_abc 1) Hne)
    as (_ & _ & _ & H & _).
  exact H.
Defined.

(** X10: only Enter runs a command.  Every other event (the arrows, any
    other key, an edit of the input box, a click on the theme button)
    leaves the history, the scrollback, the UUID source and the capability
    trace as they are.  Of these only the click can change the theme, and
    the click leaves the input box and the cursor alone; an edit sets the
    input box and keeps the cursor; a key that is not Enter or an arrow
    changes nothing at all. *)
Theorem only_enter_runs_a_command
    (env : Env) (cfg : Config) (ev : event) (st : State) :
  ev <> KeyDown Enter ->
  let st' := exec (on_event env cfg ev) st in
  history st' = history st /\ output st' = output st /\
  uuids st' = uuids st /\ calls st' = calls st /\
  (ev <> ToggleClick -> theme st' = theme st) /\
  (ev = ToggleClick -> input st' = input st /\ historyIdx st' = historyIdx st) /\
  (forall text, ev = Change text ->
     input st' = text /\ historyIdx st' = historyIdx st) /\
  (forall k, ev = KeyDown (OtherKey k) -> st' = st).
Proof.
  intros Hev st'. subst st'.
  destruct ev as [[| | |k]|text|]; [contradiction | | | | |].
  - unfold exec. simpl. destruct (length (history st) =? 0)%nat; simpl;
      (repeat split; intros; first [reflexivity | congruence]).
  - unfold exec. simpl. destruct (length (history st) =? 0)%nat; simpl;
      (repeat split; intros; first [reflexivity | congruence]).
  - repeat split; intros; first [reflexivity | congruence].
  - do 4 (split; [reflexivity |]).
    split; [intros _; reflexivity |]. split; [discriminate |].
    split; [| discriminate]. intros t [= <-]. split; reflexivity.
  - do 4 (split; [reflexivity |]).
    split; [intros H; contradiction |].
    split; [intros _; split; reflexivity |]. split; discriminate.
Qed.

Lemma only_enter_runs_a_command_witness :
  ToggleClick <> KeyDown Enter /\
  history (exec (on_event env0 CONFIG ToggleClick) (browsing_abc 2))
  = ["a"; "b"; "c"] /\
  input (exec (on_event env0 CONFIG ToggleClick) (browsing_abc 2)) = "c".
Proof.
  assert (Hev : ToggleClick <> KeyDown Enter) by discriminate.
  split; [exact Hev |].
  destruct (only_enter_runs_a_command env0 CONFIG ToggleClick (browsing_abc 2) Hev)
    as (Hh & _ & _ & _ & _ & Ht & _).
  split; [exact Hh | exact (proj1 (Ht eq_refl))].
Defined.


(** A line typed with no-break spaces around it is recorded and recalled
    without them. *)
Example recalled_line_is_trimmed_of_no_break_spaces :
  let raw := [0xA0%N] ++ "/about" ++ [0x2003%N; 0xFEFF%N] in
  let recalled :=
    run env0 CONFIG [Change raw; KeyDown Enter; KeyDown ArrowUp] (new_session []) in
  input recalled = "/about" /\ history recalled = ["/about"].
Proof. cbv zeta. split; vm_compute; reflexivity. Qed.

(** ** The theme button *)

(** X11: a click on the theme button always leaves a supported theme: it
    gives [dark] from [light] and [light] from everything else, also from
    a theme that is not supported.  From [light] or [dark] two clicks come
    back to the theme; from [matrix] or [solarized] they do not, they end at
    [dark].  After a click the label of the button is the theme. *)
Theorem toggle_always_gives_light_or_dark (st : State) :
  let once := exec toggleTheme st in
  let twice := exec toggleTheme once in
  theme once = (if (theme st =? "light") then "dark" else "light") /\
  In (theme once) THEMES /\
  toggle_label true (theme once) = theme once /\
  theme twice = (if (theme st =? "light") then "light" else "dark") /\
  (theme st = "light" \/ theme st = "dark" -> theme twice = theme st) /\
  (theme st = "matrix" \/ theme st = "solarized" -> theme twice = "dark") /\
  history once = history st /\ output once = output st /\
  input once = input st /\ historyIdx once = historyIdx st.
Proof.
  cbv zeta. unfold exec, toggleTheme; simpl.
  destruct (theme st =? "light") eqn:Ht; simpl.
  - apply eqb_eq in Ht.
    repeat split; auto; try (intros [H|H]; congruence).
  - repeat split; auto.
    + intros [H|H]; rewrite H in Ht; [discriminate Ht | symmetry; exact H].
Qed.

(** ** The theme effect *)

Lemma lookup_setProperties (vars : list (jstring * jstring))
    (m : gmap jstring jstring) (k : jstring) :
  NoDup (map fst vars) ->
  setProperties vars m !! k
  = match JS.own_get vars k with
    | Some v => Some v
    | None => m !! k
    end.
Proof.
  unfold setProperties. revert m.
  induction vars as [|[k0 v0] vars IH]; intros m Hnd; [reflexivity |].
  simpl in *. apply NoDup_cons in Hnd as [Hk0 Hnd]. rewrite (IH _ Hnd).
  destruct (eqb_spec k k0) as [->|Hne].
  - assert (Hnone : JS.own_get vars k0 = None).
    { clear -Hk0. induction vars as [|[k1 v1] vars IH]; [reflexivity |].
      simpl in *. apply not_elem_of_cons in Hk0 as [Hne Hk0].
      destruct (eqb_spec k0 k1); [contradiction | apply IH, Hk0]. }
    rewrite Hnone. apply lookup_insert_eq.
  - destruct (JS.own_get vars k); [reflexivity |].
    apply lookup_insert_ne. congruence.
Qed.

Lemma own_get_In (vars : list (jstring * jstring)) (k v : jstring) :
  NoDup (map fst vars) -> In (k, v) vars -> JS.own_get vars k = Some v.
Proof.
  induction vars as [|[k0 v0] vars IH]; intros Hnd Hin; [destruct Hin |].
  simpl in *. apply NoDup_cons in Hnd as [Hk0 Hnd].
  destruct Hin as [[= -> ->]|Hin].
  - rewrite eqb_refl. reflexivity.
  - destruct (eqb_spec k k0) as [->|_]; [| apply IH; assumption].
    exfalso. apply Hk0. apply list_elem_of_In.
    apply in_map_iff. exists (k0, v). split; [reflexivity | exact Hin].
Qed.

Lemma own_get_None (vars : list (jstring * jstring)) (k : jstring) :
  ~ In k (map fst vars) -> JS.own_get vars k = None.
Proof.
  induction vars as [|[k0 v0] vars IH]; intros Hni; [reflexivity |].
  simpl in *. destruct (eqb_spec k k0) as [->|_]; [tauto |].
  apply IH. tauto.
Qed.

(** The tables of the supported themes: all four have the same seven
    variables, each once. *)
Lemma theme_tables (t : jstring) :
  In t THEMES ->
  exists vars,
    table_get THEME_VARS t = Some vars /\
    map fst vars = theme_variables /\ NoDup (map fst vars).
Proof.
  intros Hin. simpl in Hin.
  destruct Hin as [<-|[<-|[<-|[<-|[]]]]]; eexists;
    (split; [reflexivity |]; split; [reflexivity |]);
    simpl;
    repeat (apply NoDup_cons_2;
            [rewrite ?not_elem_of_cons; repeat split;
             first [discriminate | apply not_elem_of_nil] |]);
    apply NoDup_nil_2.
Qed.

(** X12: applying a supported theme writes every one of the seven theme
    variables with the value of that theme, sets the [data-theme]
    attribute to the theme and leaves every other style property alone. *)
Theorem theme_effect_sets_the_seven_variables (t : jstring) (d : Document) :
  In t THEMES ->
  exists vars d',
    table_get THEME_VARS t = Some vars /\
    map fst vars = theme_variables /\
    apply_theme t d = Normal d' /\
    data_theme d' = Some t /\
    (forall k v, In (k, v) vars -> style d' !! k = Some v) /\
    (forall k, ~ In k theme_variables -> style d' !! k = style d !! k).
Proof.
  intros Hin. destruct (theme_tables t Hin) as (vars & Ht & Hk & Hnd).
  exists vars. eexists. split; [exact Ht |]. split; [exact Hk |].
  unfold apply_theme. rewrite Ht. split; [reflexivity |].
  split; [reflexivity |]. simpl. split.
  - intros k v Hkv. rewrite (lookup_setProperties _ _ _ Hnd).
    rewrite (own_get_In _ _ _ Hnd Hkv). reflexivity.
  - intros k Hk'. rewrite (lookup_setProperties _ _ _ Hnd).
    rewrite own_get_None; [reflexivity |]. rewrite Hk. exact Hk'.
Qed.

Lemma theme_effect_sets_the_seven_variables_witness :
  In "matrix" THEMES /\
  (forall d d', apply_theme "matrix" d = Normal d' ->
                style d' !! "--accent" = Some "#00ff66").
Proof.
  assert (Hin : In "matrix" THEMES) by (simpl; auto).
  split; [exact Hin |]. intros d d' Hd.
  destruct (theme_effect_sets_the_seven_variables "matrix" d Hin)
    as (vars & d2 & Ht & _ & Ha & _ & Hv & _).
  rewrite Hd in Ha. injection Ha as ->. injection Ht as <-.
  apply Hv. simpl. auto.
Defined.

(** X13: switching themes leaves nothing of the previous theme behind:
    applying a supported theme after another supported theme gives the very
    document that applying it directly gives. *)
Theorem theme_switch_leaves_no_stale_variable
    (t1 t2 : jstring) (d d1 : Document) :
  In t1 THEMES -> In t2 THEMES ->
  apply_theme t1 d = Normal d1 ->
  apply_theme t2 d1 = apply_theme t2 d.
Proof.
  intros H1 H2 Hd1.
  destruct (theme_tables t1 H1) as (v1 & Ht1 & Hk1 & Hn1).
  destruct (theme_tables t2 H2) as (v2 & Ht2 & Hk2 & Hn2).
  unfold apply_theme in *. rewrite Ht1 in Hd1. rewrite Ht2.
  injection Hd1 as <-. simpl. do 2 f_equal.
  apply map_eq. intros k.
  rewrite !(lookup_setProperties _ _ _ Hn2).
  destruct (JS.own_get v2 k) eqn:Hg; [reflexivity |].
  rewrite (lookup_setProperties _ _ _ Hn1), own_get_None; [reflexivity |].
  rewrite Hk1, <- Hk2. intros Hin.
  apply in_map_iff in Hin as ([k' v] & Hk' & Hin). simpl in Hk'. subst k'.
  rewrite (own_get_In _ _ _ Hn2 Hin) in Hg. discriminate Hg.
Qed.

Lemma theme_switch_leaves_no_stale_variable_witness :
  In "light" THEMES /\ In "solarized" THEMES /\
  (forall d d1, apply_theme "light" d = Normal d1 ->
                apply_theme "solarized" d1 = apply_theme "solarized" d).
Proof.
  assert (H1 : In "light" THEMES) by (simpl; auto).
  assert (H2 : In "solarized" THEMES) by (simpl; auto).
  split; [exact H1 |]. split; [exact H2 |]. intros d d1.
  exact (theme_switch_leaves_no_stale_variable "light" "solarized" d d1 H1 H2).
Defined.

(** X14: a theme that is not supported is never applied.  For a name
    inherited from [Object.prototype] (what [/theme constructor] sets) the
    effect only sets the [data-theme] attribute and no variable, so the
    colours of the previous theme stay; for any other text (what the legacy
    fallback of the load accepts from storage) the effect throws and writes
    nothing. *)
Theorem theme_effect_on_unsupported_theme (t : jstring) (d : Document) :
  ~ In t THEMES ->
  (JS.mem t JS.Object_prototype_keys = true ->
   apply_theme t d = Normal {| style := style d; data_theme := Some t |}) /\
  (JS.mem t JS.Object_prototype_keys = false ->
   apply_theme t d
   = Throw (TypeError "Cannot convert undefined or null to object")) /\
  (forall (storage : gmap jstring jstring),
     storage !! "theme" = Some t -> storage !! "history" = None ->
     JSON.parse t = None ->
     theme <$> load storage = Some t).
Proof.
  intros Hni.
  assert (Ht : table_get THEME_VARS t = None).
  { simpl in *. 
    repeat match goal with
           | |- context [JS.eqb ?a ?b] =>
               destruct (eqb_spec a b) as [->|?]; [exfalso; tauto |]
           end.
    reflexivity. }
  unfold apply_theme. rewrite Ht.
  split; [intros ->; reflexivity |]. split; [intros ->; reflexivity |].
  intros storage Hs Hh Hp. unfold load, useLocalStorage_init.
  rewrite Hs, Hh, Hp. reflexivity.
Qed.

Lemma theme_effect_on_unsupported_theme_witness :
  ~ In "blue" THEMES /\
  (forall d, apply_theme "blue" d
             = Throw (TypeError "Cannot convert undefined or null to object")) /\
  theme <$> load (<["theme" := "blue"]> ∅) = Some "blue".
Proof.
  assert (Hni : ~ In "blue" THEMES).
  { simpl. intros [H|[H|[H|[H|[]]]]]; discriminate H. }
  split; [exact Hni |]. split.
  - intros d.
    apply (theme_effect_on_unsupported_theme "blue" d Hni). reflexivity.
  - apply (theme_effect_on_unsupported_theme "blue"
             {| style := ∅; data_theme := None |} Hni); reflexivity.
Defined.

(** ** Persistence *)

(** X15: what the two [useLocalStorage] hooks write is what a fresh load
    reads: after any state is persisted, a load gives a session with the
    same theme and the same history (whatever characters they hold), the
    cursor off and an empty input box and scrollback.  The hooks write the
    keys [theme] and [history] and no other key of the store. *)
Theorem persisted_session_is_restored
    (st : State) (storage : gmap jstring jstring) :
  load (persist st storage)
  = Some {| theme := theme st; history := history st; historyIdx := -1;
            input := ""; output := []; uuids := 0; calls := [] |} /\
  (forall k, k <> "theme" -> k <> "history" ->
             persist st storage !! k = storage !! k) /\
  persist st (persist st storage) = persist st storage.
Proof.
  split; [exact (load_persist st storage) |]. split.
  - intros k Ht Hh. unfold persist, useLocalStorage_effect.
    rewrite !lookup_insert_ne by congruence. reflexivity.
  - unfold persist, useLocalStorage_effect. apply map_eq. intros k.
    destruct (eqb_spec k "history") as [->|Hh].
    { rewrite !lookup_insert_eq. reflexivity. }
    rewrite !(lookup_insert_ne _ "history") by congruence.
    destruct (eqb_spec k "theme") as [->|Ht].
    { rewrite !lookup_insert_eq. reflexivity. }
    repeat (rewrite lookup_insert_ne by congruence). reflexivity.
Qed.

(** X16: with no stored history, what the theme hook reads from the
    store.  Without a [theme] key the load starts the default session (theme
    [dark], empty history).  A stored text that is not JSON is taken as the
    theme as it is (the legacy fallback), whatever the text.  A stored text
    that is the JSON text of a string gives the string [JSON.parse] reads
    from it, escapes decoded; in particular the text the hook writes for a
    theme [t] reads back as [t]. *)
Theorem load_defaults_and_legacy_theme (storage : gmap jstring jstring) :
  storage !! "history" = None ->
  let session t :=
    {| theme := t; history := []; historyIdx := -1; input := "";
       output := []; uuids := 0; calls := [] |} in
  (storage !! "theme" = None -> load storage = Some (session "dark")) /\
  (forall raw, storage !! "theme" = Some raw -> JSON.parse raw = None ->
     load storage = Some (session raw)) /\
  (forall raw t, storage !! "theme" = Some raw ->
     JSON.parse raw = Some (JSON.Str t) -> load storage = Some (session t)) /\
  (forall t, JSON.stringify (JSON.Str t) = JSON.quote t /\
     JSON.parse (JSON.quote t) = Some (JSON.Str t)).
Proof.
  intros Hh. cbv zeta. unfold load, useLocalStorage_init. rewrite Hh.
  split; [intros ->; reflexivity |]. split; [| split].
  - intros raw -> ->. reflexivity.
  - intros raw t -> ->. reflexivity.
  - intros t. split; [reflexivity | apply parse_quote].
Qed.

Lemma load_defaults_and_legacy_theme_witness :
  let stored := JS.dquote :: "light" ++ [JS.dquote] in
  let storage : gmap jstring jstring := {[ "theme" := stored ]} in
  storage !! "history" = None /\
  JSON.parse stored = Some (JSON.Str "light") /\
  theme <$> load storage = Some "light".
Proof.
  cbv zeta.
  set (stored := JS.dquote :: "light" ++ [JS.dquote]).
  assert (Hh : ({[ "theme" := stored ]} : gmap jstring jstring) !! "history"
               = None) by (vm_compute; reflexivity).
  assert (Hp : JSON.parse stored = Some (JSON.Str "light"))
    by (vm_compute; reflexivity).
  split; [exact Hh |]. split; [exact Hp |].
  destruct (load_defaults_and_legacy_theme {[ "theme" := stored ]} Hh)
    as (_ & _ & Hjson & _).
  rewrite (Hjson stored "light" (lookup_singleton_eq _ _) Hp). reflexivity.
Defined.

(** Stored theme texts: escapes are decoded code unit by code unit, so an
    escaped surrogate pair gives the pair; a text that is not JSON is the
    theme as it stands. *)
Example stored_theme_texts :
  let read raw :=
    theme <$> load ({[ "theme" := raw ]} : gmap jstring jstring) in
  read (JS.dquote :: "\u0064ark" ++ [JS.dquote]) = Some "dark" /\
  read (JS.dquote :: "\ud83d\ude00" ++ [JS.dquote])
  = Some [0xD83D%N; 0xDE00%N] /\
  read (JS.dquote :: "\uD83D\uDE00" ++ [JS.dquote]) = Some "😀" /\
  read (JS.dquote :: "😀" ++ [JS.dquote]) = Some "😀" /\
  read (JS.dquote :: "\ud83d" ++ [JS.dquote]) = Some [0xD83D%N] /\
  read (JS.dquote :: "a\tb\\c\/d" ++ [JS.dquote])
  = Some ("a" ++ [9%N] ++ "b\c/d") /\
  read "matrix" = Some "matrix" /\
  read (JS.dquote :: "dark") = Some (JS.dquote :: "dark") /\
  read "12" = None.
Proof. cbv zeta. repeat split; vm_compute; reflexivity. Qed.

(** X17: the history outlives the session.  After any session is
    persisted and the page is loaded again, the first Up-arrow shows the
    last line submitted before the reload. *)
Theorem reload_then_arrow_up_recalls_last_line
    (env : Env) (cfg : Config) (st : State) (storage : gmap jstring jstring)
    (earlier : list jstring) (last : jstring) :
  history st = earlier ++ [last] ->
  exists st0,
    load (persist st storage) = Some st0 /\
    theme st0 = theme st /\
    input (exec (onKeyDown env cfg ArrowUp) st0) = last /\
    historyIdx (exec (onKeyDown env cfg ArrowUp) st0)
    = Z.of_nat (length earlier).
Proof.
  intros Hh. eexists. split; [apply load_persist |].
  split; [reflexivity |].
  unfold exec, onKeyDown, reloaded. cbn [history historyIdx].
  rewrite Hh, length_app. simpl.
  destruct (Nat.eqb_spec (length earlier + 1) 0) as [?|_]; [lia |].
  cbn. unfold history_entry.
  replace (Z.of_nat (length earlier + 1) - 1)%Z
    with (Z.of_nat (length earlier)) by lia.
  rewrite index_nth_error by (rewrite length_app; simpl; lia).
  rewrite Nat2Z.id, nth_error_app2, Nat.sub_diag by lia. split; reflexivity.
Qed.

Lemma reload_then_arrow_up_recalls_last_line_witness :
  history (browsing_abc 0) = ["a"; "b"] ++ ["c"] /\
  exists st0,
    load (persist (browsing_abc 0) ∅) = Some st0 /\
    input (exec (onKeyDown env0 CONFIG ArrowUp) st0) = "c".
Proof.
  assert (Hh : history (browsing_abc 0) = ["a"; "b"] ++ ["c"]) by reflexivity.
  split; [exact Hh |].
  destruct (reload_then_arrow_up_recalls_last_line env0 CONFIG (browsing_abc 0)
              ∅ ["a"; "b"] "c" Hh) as (st0 & Hl & _ & Hi & _).
  exists st0. split; [exact Hl | exact Hi].
Defined.


(** ** The formatter *)

Lemma escape_each_app (a b : jstring) :
  escape_each (a ++ b) = escape_each a ++ escape_each b.
Proof.
  induction a as [|c a IH]; [reflexivity |].
  simpl. rewrite IH, app_assoc. reflexivity.
Qed.

Lemma entity_length (c : N) :
  1 <= length (entity c) <= 6 /\
  (length (entity c) = 1 <-> markup_sensitive c = false).
Proof.
  unfold entity, markup_sensitive.
  repeat match goal with
         | |- context [N.eqb c ?a] => destruct (N.eqb c a)
         end; simpl; (split; [lia |]); split; intros H;
    first [reflexivity | discriminate H].
Qed.

Lemma escape_each_plain (s : jstring) : plain s = true -> escape_each s = s.
Proof.
  induction s as [|c s IH]; [reflexivity |]. simpl.
  intros [Hc Hs]%andb_prop. apply negb_true_iff in Hc.
  destruct (entity_spec c) as [He _]. rewrite (He Hc), (IH Hs). reflexivity.
Qed.

Lemma escape_each_length (s : jstring) :
  length s <= length (escape_each s) <= 6 * length s /\
  (length (escape_each s) = length s -> plain s = true).
Proof.
  induction s as [|c s [IHb IHp]]; [simpl; split; [lia | reflexivity] |].
  cbn [escape_each plain length]. rewrite length_app.
  destruct (entity_length c) as [Hb Hone]. split; [lia |].
  intros Hlen. rewrite IHp by lia.
  assert (H1 : length (entity c) = 1) by lia.
  apply Hone in H1. rewrite H1. reflexivity.
Qed.

Lemma decode_entity (c : N) (t : jstring) :
  decode_from (entity c ++ t) 0 = c :: decode_from t 0.
Proof.
  unfold entity.
  destruct (N.eqb_spec c 38) as [->|Hamp]; [reflexivity |].
  destruct (N.eqb_spec c 60) as [->|_]; [reflexivity |].
  destruct (N.eqb_spec c 62) as [->|_]; [reflexivity |].
  destruct (N.eqb_spec c JS.dquote) as [->|_]; [reflexivity |].
  destruct (N.eqb_spec c 39) as [->|_]; [reflexivity |].
  cbn [app decode_from]. destruct (N.eqb_spec c 38); [contradiction | reflexivity].
Qed.

Lemma decode_escape_each (s : jstring) : decodeHtml (escape_each s) = s.
Proof.
  unfold decodeHtml. induction s as [|c s IH]; [reflexivity |].
  cbn [escape_each]. rewrite decode_entity, IH. reflexivity.
Qed.

(** X18: escaping works character by character.  It distributes over
    concatenation, never shortens a text and at most multiplies its length
    by six, and it changes a text exactly when the text holds one of the
    five characters that have an entity (ampersand, the two angle brackets
    and the two quotes). *)
Theorem escapeHtml_is_a_character_map (a b : jstring) :
  escapeHtml (a ++ b) = escapeHtml a ++ escapeHtml b /\
  length a <= length (escapeHtml a) <= 6 * length a /\
  (escapeHtml a = a <-> plain a = true).
Proof.
  rewrite !escapeHtml_each. split; [apply escape_each_app |].
  destruct (escape_each_length a) as [Hb Hp]. split; [exact Hb |]. split.
  - intros H. apply Hp. rewrite H. reflexivity.
  - apply escape_each_plain.
Qed.

(** X19: escaped text reads back.  Decoding the five entities in an
    escaped text gives the text that was escaped, whatever it holds (text
    that already looks like an entity included); so two different texts
    never have the same escaped form. *)
Theorem escaped_text_reads_back (s : jstring) :
  decodeHtml (escapeHtml s) = s /\
  (forall t, escapeHtml s = escapeHtml t -> s = t).
Proof.
  split.
  - rewrite escapeHtml_each. apply decode_escape_each.
  - intros t H. rewrite !escapeHtml_each in H.
    rewrite <- (decode_escape_each s), H. apply decode_escape_each.
Qed.

(** X20: escaping twice is not escaping once.  A second pass over an
    escaped text leaves it as it is only for a text without any of the five
    characters; for every other text the second pass changes it again. *)
Theorem escapeHtml_twice_differs_unless_plain (s : jstring) :
  escapeHtml (escapeHtml s) = escapeHtml s <-> plain s = true.
Proof.
  rewrite !escapeHtml_each. split.
  - intros H.
    assert (He : escape_each s = s).
    { rewrite <- (decode_escape_each (escape_each s)), H.
      apply decode_escape_each. }
    apply (escape_each_length s). rewrite He. reflexivity.
  - intros Hp. rewrite !(escape_each_plain s Hp). reflexivity.
Qed.


(** ** Tokens and numbers *)

Lemma no_ws_ends_ws (t : jstring) : no_ws t = true -> ends_ws t = false.
Proof.
  induction t as [|c t IH]; [reflexivity |]. cbn [no_ws ends_ws].
  intros [Hc Ht]%andb_prop. apply negb_true_iff in Hc.
  destruct (t =? ""); [exact Hc | apply IH, Ht].
Qed.

Lemma ends_ws_app (a b : jstring) : b <> "" -> ends_ws (a ++ b) = ends_ws b.
Proof.
  intros Hb. induction a as [|c a IH]; [reflexivity |].
  cbn [app ends_ws].
  destruct (eqb_spec (a ++ b) "") as [He|_]; [| exact IH].
  destruct a; simpl in He; [contradiction | discriminate He].
Qed.

Lemma join_cons2 (sep t u : jstring) (l : list jstring) :
  JS.join sep (t :: u :: l) = t ++ sep ++ JS.join sep (u :: l).
Proof. reflexivity. Qed.

Lemma join_tokens_not_empty (l : list jstring) :
  l <> [] -> Forall is_token l -> JS.join " " l <> "".
Proof.
  destruct l as [|t [|u l]]; [congruence | |]; intros _ Hl;
    apply List.Forall_cons_iff in Hl as [[Ht _] _].
  - exact Ht.
  - rewrite join_cons2. destruct t; [contradiction | discriminate].
Qed.

Lemma join_tokens_ends (l : list jstring) :
  Forall is_token l -> ends_ws (JS.join " " l) = false.
Proof.
  induction l as [|t [|u l] IH]; intros Hl; [reflexivity | |].
  - apply List.Forall_cons_iff in Hl as [[_ Ht] _]. apply no_ws_ends_ws, Ht.
  - apply List.Forall_cons_iff in Hl as [_ Hl]. rewrite join_cons2.
    assert (Hne : JS.join " " (u :: l) <> "")
      by (apply join_tokens_not_empty; [discriminate | exact Hl]).
    rewrite ends_ws_app.
    + rewrite ends_ws_app by exact Hne. apply IH, Hl.
    + discriminate.
Qed.

Lemma join_tokens_starts (l : list jstring) :
  Forall is_token l -> JS.starts_ws (JS.join " " l) = false.
Proof.
  destruct l as [|t l]; intros Hl; [reflexivity |].
  apply List.Forall_cons_iff in Hl as [[Hne Ht] _].
  assert (Hs : JS.starts_ws t = false).
  { destruct t as [|c t]; [reflexivity |]. simpl in *.
    apply andb_prop in Ht as [Hc _]. apply negb_true_iff, Hc. }
  destruct l as [|u l]; [exact Hs |]. rewrite join_cons2.
  destruct t; [contradiction | exact Hs].
Qed.

Lemma join_tokens_trimmed (l : list jstring) :
  Forall is_token l -> JS.trim (JS.join " " l) = JS.join " " l.
Proof.
  intros Hl. unfold JS.trim.
  rewrite (trimStart_fixed _ (join_tokens_starts l Hl)).
  apply trimEnd_fixed, join_tokens_ends, Hl.
Qed.

(** X21: only the words of a line count.  The name and the arguments of
    a submitted line are tokens (not empty, no white space); the same words
    joined by single spaces form a line that is already trimmed, splits into
    the same words and runs the same command with the same arguments.  The
    two lines differ only in the history entry. *)
Theorem command_ignores_extra_white_space
    (env : Env) (cfg : Config) (raw name : jstring) (rest : list jstring)
    (st : State) :
  JS.trim raw <> "" ->
  JS.split_ws (JS.trim raw) = name :: rest ->
  let norm := JS.join " " (name :: rest) in
  is_token name /\ Forall is_token rest /\
  JS.trim norm = norm /\ JS.split_ws norm = name :: rest /\
  handleCommand env cfg raw st
  = dispatch env cfg name rest (recorded (JS.trim raw) st) /\
  handleCommand env cfg norm st
  = dispatch env cfg name rest (recorded norm st).
Proof.
  intros Hne Hsplit norm.
  pose proof (tokens_of_line raw Hne) as Htok. rewrite Hsplit in Htok.
  pose proof Htok as Htok'.
  apply List.Forall_cons_iff in Htok' as [Hname Hrest].
  assert (Htrim : JS.trim norm = norm) by (apply join_tokens_trimmed, Htok).
  assert (Hs : JS.split_ws norm = name :: rest)
    by (apply split_ws_join; [discriminate | exact Htok]).
  assert (Hnn : norm <> "")
    by (apply join_tokens_not_empty; [discriminate | exact Htok]).
  split; [exact Hname |]. split; [exact Hrest |].
  split; [exact Htrim |]. split; [exact Hs |]. split.
  - apply handleCommand_dispatch; assumption.
  - rewrite <- Htrim at 2. apply handleCommand_dispatch; rewrite Htrim; assumption.
Qed.

Lemma command_ignores_extra_white_space_witness :
  JS.trim "   Open     2  " <> "" /\
  JS.split_ws (JS.trim "   Open     2  ") = ["Open"; "2"] /\
  JS.join " " ["Open"; "2"] = "Open 2" /\
  fst (handleCommand env0 CONFIG "   Open     2  " (new_session []))
  = fst (handleCommand env0 CONFIG "Open 2" (new_session [])) /\
  output (exec (handleCommand env0 CONFIG "   Open     2  ") (new_session []))
  = output (exec (handleCommand env0 CONFIG "Open 2") (new_session [])).
Proof.
  assert (Hne : JS.trim "   Open     2  " <> "") by (vm_compute; discriminate).
  assert (Hs : JS.split_ws (JS.trim "   Open     2  ") = ["Open"; "2"])
    by reflexivity.
  split; [exact Hne |]. split; [exact Hs |]. split; [reflexivity |].
  destruct (command_ignores_extra_white_space env0 CONFIG "   Open     2  "
              "Open" ["2"] (new_session []) Hne Hs)
    as (_ & _ & _ & _ & Hraw & Hnorm).
  change (JS.join " " ["Open"; "2"]) with "Open 2" in Hnorm.
  unfold exec. rewrite Hraw, Hnorm. split; vm_compute; reflexivity.
Defined.


(** The words of a line are the same whatever white space separates them:
    no-break spaces, tabs and line separators count like spaces. *)
Example command_ignores_unicode_white_space :
  let raw := [0xA0%N] ++ "Open" ++ [0x2028%N; 9%N; 0x3000%N] ++ "2" ++ [0xFEFF%N] in
  JS.split_ws (JS.trim raw) = ["Open"; "2"] /\
  output (exec (handleCommand env0 CONFIG raw) (new_session []))
  = output (exec (handleCommand env0 CONFIG "Open 2") (new_session [])).
Proof. cbv zeta. split; vm_compute; reflexivity. Qed.

(** *** Printed numbers *)

Lemma uint_digits_spec (d : Decimal.uint) :
  no_ws (JS.uint_digits d) = true /\
  JS.starts_ws (JS.uint_digits d) = false /\
  (d <> Decimal.Nil -> JS.uint_digits d <> "").
Proof.
  induction d as [|d [IH _]|d [IH _]|d [IH _]|d [IH _]|d [IH _]|d [IH _]
                   |d [IH _]|d [IH _]|d [IH _]|d [IH _]];
    simpl; (split; [first [reflexivity | exact IH] |]);
    (split; [reflexivity |]); intros H; congruence.
Qed.

Lemma digits_prefix_acc (d : Decimal.uint) (acc : positive) :
  JS.digits_prefix (JS.uint_digits d) (Some (Z.pos acc))
  = Some (Z.pos (Pos.of_uint_acc d acc)).
Proof.
  revert acc. induction d; intros acc; [reflexivity | ..];
    cbn [JS.uint_digits JS.digits_prefix Pos.of_uint_acc];
    change (JS.is_digit _) with true; cbn iota;
    match goal with
    | |- JS.digits_prefix _ (Some ?z) = _ =>
        match goal with
        | |- _ = Some (Z.pos (Pos.of_uint_acc _ ?p)) =>
            replace z with (Z.pos p)
              by (unfold default, JS.digit_val; simpl; lia)
        end
    end; apply IHd.
Qed.

Lemma digits_prefix_zero (d : Decimal.uint) :
  JS.digits_prefix (JS.uint_digits d) (Some 0%Z)
  = Some (Z.of_N (Pos.of_uint d)).
Proof.
  induction d; [reflexivity | exact IHd | ..];
    cbn [JS.uint_digits JS.digits_prefix Pos.of_uint];
    change (JS.is_digit _) with true; cbn iota;
    match goal with
    | |- JS.digits_prefix _ (Some ?z) = _ =>
        let v := eval vm_compute in z in change z with v
    end; apply digits_prefix_acc.
Qed.

Lemma digits_prefix_start (d : Decimal.uint) :
  d <> Decimal.Nil ->
  JS.digits_prefix (JS.uint_digits d) None = Some (Z.of_N (Pos.of_uint d)).
Proof.
  intros Hd. rewrite <- digits_prefix_zero.
  destruct d; [contradiction | reflexivity ..].
Qed.

Lemma to_uint_not_Nil (p : positive) : Pos.to_uint p <> Decimal.Nil.
Proof.
  intros H. pose proof (DecimalPos.Unsigned.of_to p) as Hp.
  rewrite H in Hp. discriminate Hp.
Qed.

Lemma digits_prefix_digits (p : positive) :
  JS.digits_prefix (JS.digits (Z.pos p)) None = Some (Z.pos p).
Proof.
  unfold JS.digits. rewrite digits_prefix_start by apply to_uint_not_Nil.
  rewrite DecimalPos.Unsigned.of_to. reflexivity.
Qed.

Lemma digits_no_sign (p : positive) :
  JS.startsWith "-" (JS.digits (Z.pos p)) = false /\
  JS.startsWith "+" (JS.digits (Z.pos p)) = false.
Proof. unfold JS.digits. destruct (Pos.to_uint p); split; reflexivity. Qed.

(** Below 2^53 an integer is its own double. *)
Lemma of_integer_small (z : Z) :
  (Z.abs z < 2 ^ 53)%Z -> JS.of_integer z = JS.Finite z.
Proof.
  intros Hz. unfold JS.of_integer, JS.round53. cbv zeta.
  destruct (Z.ltb_spec (Z.abs z) (2 ^ 53)) as [_|?]; [| lia].
  assert (Hp : (2 ^ 53 < 2 ^ 1024)%Z) by (apply Z.pow_lt_mono_r; lia).
  destruct (Z.leb_spec (2 ^ 1024) (Z.abs z)) as [?|_]; [lia | reflexivity].
Qed.

Lemma parseInt_digits (p : positive) :
  JS.parseInt (JS.digits (Z.pos p)) = JS.of_integer (Z.pos p).
Proof.
  unfold JS.parseInt. cbv zeta.
  rewrite trimStart_fixed by (unfold JS.digits; apply uint_digits_spec).
  destruct (digits_no_sign p) as [-> ->]. cbn [orb].
  rewrite digits_prefix_digits. reflexivity.
Qed.

Lemma parseInt_minus_digits (p : positive) :
  JS.parseInt ("-" ++ JS.digits (Z.pos p)) = JS.of_integer (Z.neg p).
Proof.
  unfold JS.parseInt. cbv zeta.
  rewrite trimStart_fixed by reflexivity.
  change (JS.startsWith "-" ("-" ++ JS.digits (Z.pos p))) with true.
  cbn [orb app tl]. rewrite digits_prefix_digits. reflexivity.
Qed.

Lemma Number_toString_small (z : Z) :
  (Z.abs z < 2 ^ 53)%Z ->
  JS.Number_toString (JS.Finite z)
  = if (z <? 0)%Z then "-" ++ JS.digits (- z) else JS.digits z.
Proof.
  intros Hz. unfold JS.Number_toString, JS.magnitude_toString.
  destruct (Z.ltb_spec z 0).
  - destruct (Z.ltb_spec (- z) (2 ^ 53)); [reflexivity | lia].
  - destruct (Z.ltb_spec z (2 ^ 53)); [reflexivity | lia].
Qed.

Lemma parseInt_Number_toString (z : Z) :
  (Z.abs z < 2 ^ 53)%Z ->
  JS.parseInt (JS.Number_toString (JS.Finite z)) = JS.Finite z.
Proof.
  intros Hz. rewrite Number_toString_small by exact Hz.
  rewrite <- (of_integer_small z Hz).
  destruct z as [|p|p]; [reflexivity | apply parseInt_digits |].
  apply parseInt_minus_digits.
Qed.

Lemma Number_toString_token (z : Z) :
  (Z.abs z < 2 ^ 53)%Z -> is_token (JS.Number_toString (JS.Finite z)).
Proof.
  intros Hz. rewrite Number_toString_small by exact Hz.
  destruct z as [|p|p]; cbn [Z.ltb Z.compare Z.opp].
  - split; [discriminate | reflexivity].
  - unfold JS.digits.
    destruct (uint_digits_spec (Pos.to_uint p)) as (Hw & _ & Hne).
    split; [apply Hne, to_uint_not_Nil | exact Hw].
  - unfold JS.digits.
    destruct (uint_digits_spec (Pos.to_uint p)) as (Hw & _ & _).
    split; [discriminate | simpl; exact Hw].
Qed.

(** The line [open t] for a token [t] runs [open] on that token. *)
Lemma open_token_runs (env : Env) (cfg : Config) (t : jstring) (st : State) :
  is_token t ->
  handleCommand env cfg ("open " ++ t) st
  = cmd_open env cfg [t] (recorded ("open " ++ t) st).
Proof.
  intros Htok.
  assert (Hl : Forall is_token ["open"; t]).
  { apply List.Forall_cons; [split; [discriminate | reflexivity] |].
    apply List.Forall_cons; [exact Htok | apply List.Forall_nil]. }
  assert (Hj : JS.join " " ["open"; t] = "open " ++ t) by reflexivity.
  pose proof (join_tokens_trimmed _ Hl) as Htrim. rewrite Hj in Htrim.
  assert (Hs : JS.split_ws (JS.join " " ["open"; t]) = ["open"; t])
    by (apply split_ws_join; [discriminate | exact Hl]).
  rewrite Hj in Hs.
  rewrite (handleCommand_dispatch env cfg ("open " ++ t) "open" [t] st);
    rewrite Htrim.
  - rewrite dispatch_open by reflexivity. reflexivity.
  - discriminate.
  - exact Hs.
Qed.

Lemma cmd_open_number (env : Env) (cfg : Config) (n : Z) (p : Project) (st : State) :
  (1 <= n < 2 ^ 53)%Z -> nth_error (projects cfg) (Z.to_nat (n - 1)) = Some p ->
  cmd_open env cfg [JS.Number_toString (JS.Finite n)] st
  = (window_open (demoUrl p) "_blank" ;;
     print env ["Opening " ++ escapeHtml (title p) ++ "..."]) st.
Proof.
  intros Hn Hp. unfold cmd_open, first_or.
  destruct (Number_toString_token n ltac:(lia)) as [Hne _].
  destruct (eqb_spec (JS.Number_toString (JS.Finite n)) ""); [contradiction |].
  rewrite parseInt_Number_toString by lia. cbv zeta.
  unfold JS.number_falsy, project_number.
  destruct (Z.eqb_spec n 0); [lia |].
  assert (Hlen : (Z.to_nat (n - 1) < length (projects cfg))%nat)
    by (apply nth_error_Some; congruence).
  rewrite index_nth_error by lia. rewrite Hp. reflexivity.
Qed.

(** The line [open n], for the number [n] of a project, opens that project. *)
Lemma open_number_opens (env : Env) (cfg : Config) (i : nat) (p : Project)
    (st : State) :
  (Z.of_nat (length (projects cfg)) < 2 ^ 32)%Z ->
  nth_error (projects cfg) i = Some p ->
  let n := JS.Number_toString (JS.Finite (Z.of_nat i + 1)) in
  handleCommand env cfg ("open " ++ n) st
  = (window_open (demoUrl p) "_blank" ;;
     print env ["Opening " ++ escapeHtml (title p) ++ "..."])
      (recorded ("open " ++ n) st).
Proof.
  intros Hlen Hp n.
  assert (Hi : (i < length (projects cfg))%nat)
    by (apply nth_error_Some; congruence).
  assert (H32 : (2 ^ 32 < 2 ^ 53)%Z) by (apply Z.pow_lt_mono_r; lia).
  unfold n. rewrite open_token_runs by (apply Number_toString_token; lia).
  apply cmd_open_number; [lia |].
  replace (Z.to_nat (Z.of_nat i + 1 - 1)) with i by lia. exact Hp.
Qed.

Lemma nth_error_imap {A B} (f : nat -> A -> B) (l : list A) (j : nat) (x : A) :
  nth_error l j = Some x -> nth_error (imap f l) j = Some (f j x).
Proof.
  revert f j. induction l as [|y l IH]; intros f [|j]; simpl; try discriminate.
  - intros [= ->]. reflexivity.
  - intros H. exact (IH (f ∘ S) j H).
Qed.

(** X22: a number the page prints is the number it reads, as long as
    its magnitude is below 2^53 (where every integer is a double and prints
    as its digits).  The text of such an integer is one token, [parseInt]
    of it is the integer, and fed to [/projects] it asks for page
    [max(1, n)]. *)
Theorem printed_number_parses_back (z : Z) :
  (Z.abs z < 2 ^ 53)%Z ->
  JS.parseInt (JS.Number_toString (JS.Finite z)) = JS.Finite z /\
  is_token (JS.Number_toString (JS.Finite z)) /\
  page_of [JS.Number_toString (JS.Finite z)] = JS.Finite (Z.max 1 z).
Proof.
  intros Hz.
  split; [apply parseInt_Number_toString, Hz |].
  split; [apply Number_toString_token, Hz |].
  destruct (page_of_spec [JS.Number_toString (JS.Finite z)]) as (_ & Hp & _).
  rewrite (Hp _ [] eq_refl), parseInt_Number_toString by exact Hz.
  reflexivity.
Qed.

Lemma printed_number_parses_back_witness :
  (Z.abs (-42) < 2 ^ 53)%Z /\
  JS.Number_toString (JS.Finite (-42)) = "-42" /\
  JS.parseInt "-42" = JS.Finite (-42) /\
  page_of ["-42"] = JS.Finite 1.
Proof.
  assert (Hz : (Z.abs (-42) < 2 ^ 53)%Z) by (vm_compute; reflexivity).
  split; [exact Hz |]. split; [reflexivity |].
  destruct (printed_number_parses_back (-42) Hz) as (Hparse & _ & Hpage).
  split; [exact Hparse | exact Hpage].
Defined.

(** From 2^53 on a printed number need not read back: the number past 2^53
    is not a double, and from 10^21 on a number prints in exponent form, of
    which [parseInt] reads the digits before the point. *)
Example large_numbers_do_not_parse_back :
  JS.parseInt "9007199254740993" = JS.Finite 9007199254740992 /\
  JS.Number_toString (JS.Finite (10 ^ 21)) = "1e+21" /\
  JS.parseInt "1e+21" = JS.Finite 1 /\
  JS.Number_toString (JS.Finite (2 ^ 70)) = "1.1805916207174113e+21" /\
  JS.Number_toString (JS.Finite (2 ^ 53)) = "9007199254740992" /\
  JS.Number_toString (JS.Finite (10 ^ 21 - 2 ^ 17)) = "999999999999999900000" /\
  page_of ["1e+21"] = JS.Finite 1.
Proof. repeat split; vm_compute; reflexivity. Qed.

(** X23: the number in front of a listed project is the number [open]
    takes.  In the block [/projects] prints for a page, the line after the
    header line for the [j]-th project of the page starts with the project's
    number [n] (its position in the configuration, counted from 1), a
    period and the escaped title in a [title] span; in the block [search]
    prints, the line of the [k]-th match does, with the number of the
    matching project.  Typing [open n] with the number so printed records
    that line, opens the demo URL of that very project in a new tab and
    prints [Opening <escaped title>...].  (An array has fewer than 2^32
    elements.) *)
Theorem listed_number_opens_listed_project
    (env : Env) (cfg : Config) (raw name : jstring) (rest : list jstring)
    (st : State) :
  (Z.of_nat (length (projects cfg)) < 2 ^ 32)%Z ->
  JS.trim raw <> "" ->
  JS.split_ws (JS.trim raw) = name :: rest ->
  let starts_with (number : jstring) (p : Project) (line : jstring) :=
    exists tail,
      line = number ++ ". <span class='title'>" ++ escapeHtml (title p)
             ++ "</span> — " ++ escapeHtml (description p) ++ tail in
  let opens (number : jstring) (p : Project) :=
    forall st0,
      handleCommand env cfg ("open " ++ number) st0
      = (window_open (demoUrl p) "_blank" ;;
         print env ["Opening " ++ escapeHtml (title p) ++ "..."])
          (recorded ("open " ++ number) st0) in
  let prints (printed : list jstring) :=
    output (exec (handleCommand env cfg raw) st)
    = output st ++ [make_block env (uuids st) printed] in
  (JS.toLowerCase name = "/projects" ->
   forall page, page_of rest = JS.Finite page ->
   exists printed, prints printed /\
     forall j p,
       nth_error (page_slice cfg page) j = Some p ->
       exists number line,
         number = JS.Number_toString
                    (JS.Finite (page_start cfg page + Z.of_nat j + 1)) /\
         nth_error printed (S j) = Some line /\
         starts_with number p line /\ opens number p) /\
  (JS.toLowerCase name = "search" ->
   JS.toLowerCase (JS.join " " rest) <> "" ->
   exists printed, prints printed /\
     forall k m,
       nth_error (search_matches cfg (JS.toLowerCase (JS.join " " rest))) k
       = Some m ->
       exists number line,
         number = JS.Number_toString (JS.Finite (Z.of_nat (fst m) + 1)) /\
         nth_error (projects cfg) (fst m) = Some (snd m) /\
         nth_error printed (S k) = Some line /\
         starts_with number (snd m) line /\ opens number (snd m)).
Proof.
  intros Hlen Hne Hs. cbv zeta.
  unfold exec. rewrite (handleCommand_dispatch env cfg raw name rest st Hne Hs).
  set (st1 := recorded (JS.trim raw) st).
  split.
  - (* /projects *)
    intros Hk page Hpage.
    rewrite (dispatch_projects env cfg name rest Hk). unfold cmd_projects.
    cbv zeta.
    destruct (page_of_spec rest) as (_ & _ & Hpos).
    specialize (Hpos page Hpage). rewrite Hpage.
    destruct (Nat.eqb_spec (length (page_slice cfg page)) 0) as [Hz|Hnz].
    + eexists. split; [reflexivity |].
      intros j p Hj. exfalso.
      apply length_zero_iff_nil in Hz. rewrite Hz in Hj.
      destruct j; discriminate Hj.
    + eexists. split; [reflexivity |].
      intros j p Hj.
      eexists. eexists. split; [reflexivity |]. split; [| split].
      * cbn [nth_error]. rewrite nth_error_app1
          by (rewrite length_imap; apply nth_error_Some; congruence).
        apply nth_error_imap, Hj.
      * unfold project_line. eexists. reflexivity.
      * intros st0.
        rewrite page_slice_eq in Hj by exact Hpos.
        apply nth_error_firstn_skipn in Hj.
        assert (H0 : (0 <= (page - 1) * Z.of_nat (pageSize cfg))%Z) by nia.
        replace (page_start cfg page + Z.of_nat j + 1)%Z
          with (Z.of_nat (Z.to_nat (page - 1) * pageSize cfg + j) + 1)%Z
          by (unfold page_start; nia).
        apply open_number_opens; assumption.
  - (* search *)
    intros Hk Hterm.
    rewrite (dispatch_search env cfg name rest Hk). unfold cmd_search.
    cbv zeta.
    destruct (eqb_spec (JS.toLowerCase (JS.join " " rest)) "") as [He|_];
      [contradiction |].
    set (found := search_matches cfg (JS.toLowerCase (JS.join " " rest))).
    destruct (Nat.eqb_spec (length found) 0) as [Hz|Hnz].
    + eexists. split; [reflexivity |].
      intros k m Hm. exfalso.
      apply length_zero_iff_nil in Hz. rewrite Hz in Hm.
      destruct k; discriminate Hm.
    + eexists. split; [reflexivity |].
      intros k m Hm.
      assert (Hp : nth_error (projects cfg) (fst m) = Some (snd m)).
      { apply nth_error_In in Hm. unfold found, search_matches in Hm.
        apply filter_In in Hm as [Hm _].
        rewrite (imap_ext _ (fun j q => (0 + j, q)) (projects cfg)) in Hm
          by reflexivity.
        destruct m as [i p]. apply In_imap_pairs in Hm as [_ Hm].
        rewrite Nat.sub_0_r in Hm. exact Hm. }
      eexists. eexists. split; [reflexivity |]. split; [exact Hp |].
      split; [| split].
      * cbn [nth_error]. apply map_nth_error, Hm.
      * unfold search_line. exists "". rewrite app_nil_r. reflexivity.
      * intros st0. apply open_number_opens; assumption.
Qed.

Lemma listed_number_opens_listed_project_witness :
  (Z.of_nat (length (projects CONFIG)) < 2 ^ 32)%Z /\
  JS.trim "/projects" <> "" /\
  JS.split_ws (JS.trim "/projects") = ["/projects"] /\
  (exists printed line,
     map block_html (output (exec (handleCommand env0 CONFIG "/projects")
                               (new_session []))) = [printed] /\
     nth_error printed 2 = Some line /\
     JS.startsWith "2. <span class='title'>danger ahead</span>" line = true) /\
  calls (exec (handleCommand env0 CONFIG "open 2") (new_session []))
  = [WindowOpen "#" "_blank"].
Proof.
  assert (Hlen : (Z.of_nat (length (projects CONFIG)) < 2 ^ 32)%Z)
    by (vm_compute; reflexivity).
  assert (Hne : JS.trim "/projects" <> "") by (vm_compute; discriminate).
  assert (Hs : JS.split_ws (JS.trim "/projects") = ["/projects"])
    by reflexivity.
  split; [exact Hlen |]. split; [exact Hne |]. split; [exact Hs |].
  destruct (listed_number_opens_listed_project env0 CONFIG "/projects"
              "/projects" [] (new_session []) Hlen Hne Hs) as [Hprojects _].
  destruct (Hprojects eq_refl 1%Z eq_refl) as (printed & Hout & Hlines).
  destruct (Hlines 1%nat _ eq_refl) as (number & line & Hn & Hline & Hstart & Hopen).
  split.
  - exists printed, line. rewrite Hout. cbn [map app new_session output].
    rewrite block_html_make_block. split; [reflexivity |].
    split; [exact Hline |].
    destruct Hstart as [tail ->]. rewrite Hn. vm_compute. reflexivity.
  - unfold exec. rewrite Hn in Hopen. vm_compute in Hn.
    change (JS.Number_toString (JS.Finite (page_start CONFIG 1 + Z.of_nat 1 + 1)))
      with "2" in Hopen.
    change ("open " ++ "2") with "open 2" in Hopen.
    rewrite (Hopen (new_session [])). reflexivity.
Defined.

(** ** The command name *)

(** The command names are in lower case already. *)
Lemma command_names_lower :
  Forall (fun k => JS.toLowerCase k = k) command_names.
Proof. repeat constructor. Qed.

Lemma no_lt_app (a b : jstring) : no_lt (a ++ b) = no_lt a && no_lt b.
Proof.
  induction a as [|c a IH]; [reflexivity |].
  simpl. rewrite IH, andb_assoc. reflexivity.
Qed.

(** X24: the command name is read without regard to case.  A name that
    lower-cases to a known command runs exactly what its lower-case spelling
    runs, with the same arguments. *)
Theorem command_name_is_case_insensitive
    (env : Env) (cfg : Config) (name : jstring) (rest : list jstring) :
  In (JS.toLowerCase name) command_names ->
  dispatch env cfg name rest = dispatch env cfg (JS.toLowerCase name) rest.
Proof.
  intros Hin.
  pose proof (proj1 (List.Forall_forall _ _) command_names_lower _ Hin) as Hfix.
  unfold dispatch. cbv zeta. rewrite Hfix.
  simpl in Hin.
  repeat (destruct Hin as [<-|Hin]; [reflexivity |]). destruct Hin.
Qed.

Lemma command_name_is_case_insensitive_witness :
  In (JS.toLowerCase "/PROJECTS") command_names /\
  dispatch env0 CONFIG "/PROJECTS" ["2"] = dispatch env0 CONFIG "/projects" ["2"].
Proof.
  assert (Hin : In (JS.toLowerCase "/PROJECTS") command_names)
    by (vm_compute; auto).
  split; [exact Hin |].
  exact (command_name_is_case_insensitive env0 CONFIG "/PROJECTS" ["2"] Hin).
Defined.

(** X25: an unknown command is reported with the name as it was typed,
    escaped.  The line is recorded in the history like any other; the only
    output is one line, [Command not found: ...], which holds no [<] at all
    whatever the name is, and the handler ends normally. *)
Theorem unknown_command_echoes_escaped_name
    (env : Env) (cfg : Config) (raw name : jstring) (rest : list jstring)
    (st : State) :
  JS.trim raw <> "" ->
  JS.split_ws (JS.trim raw) = name :: rest ->
  ~ In (JS.toLowerCase name) command_names ->
  let line := "Command not found: " ++ escapeHtml name ++ ". Type /help." in
  handleCommand env cfg raw st
  = print env [line] (recorded (JS.trim raw) st) /\
  no_lt line = true.
Proof.
  intros Hne Hsplit Hni line. split.
  - rewrite (handleCommand_dispatch env cfg raw name rest st Hne Hsplit).
    unfold dispatch. cbv zeta. simpl in Hni.
    repeat match goal with
           | |- context [JS.eqb ?a ?b] =>
               destruct (eqb_spec a b) as [He|_];
               [exfalso; apply Hni; rewrite He; tauto | cbn [orb]]
           end.
    reflexivity.
  - unfold line. rewrite !no_lt_app.
    rewrite (no_markup_no_lt _ (no_markup_escapeHtml name)). reflexivity.
Qed.

Lemma unknown_command_echoes_escaped_name_witness :
  JS.trim "<img src=x> now" <> "" /\
  JS.split_ws (JS.trim "<img src=x> now") = ["<img"; "src=x>"; "now"] /\
  ~ In (JS.toLowerCase "<img") command_names /\
  map block_html
    (output (exec (handleCommand env0 CONFIG "<img src=x> now") (new_session [])))
  = [["Command not found: &lt;img. Type /help."]].
Proof.
  assert (Hne : JS.trim "<img src=x> now" <> "") by (vm_compute; discriminate).
  assert (Hs : JS.split_ws (JS.trim "<img src=x> now") = ["<img"; "src=x>"; "now"])
    by reflexivity.
  assert (Hni : ~ In (JS.toLowerCase "<img") command_names).
  { vm_compute. intros H.
    repeat (destruct H as [H|H]; [discriminate H |]). exact H. }
  split; [exact Hne |]. split; [exact Hs |]. split; [exact Hni |].
  destruct (unknown_command_echoes_escaped_name env0 CONFIG "<img src=x> now"
              "<img" ["src=x>"; "now"] (new_session []) Hne Hs Hni) as [Hrun _].
  unfold exec. rewrite Hrun. vm_compute. reflexivity.
Defined.

(** X26: the commands without arguments ignore what follows their name:
    [/about], [/contact], [/resume], [/clear] and [cls] run the same with
    any arguments as with none. *)
Theorem argumentless_commands_ignore_arguments
    (env : Env) (cfg : Config) (name : jstring) (rest : list jstring) :
  In (JS.toLowerCase name) argumentless ->
  dispatch env cfg name rest = dispatch env cfg name [].
Proof.
  intros Hin. unfold dispatch. cbv zeta. simpl in Hin.
  repeat (destruct Hin as [<-|Hin]; [reflexivity |]). destruct Hin.
Qed.

Lemma argumentless_commands_ignore_arguments_witness :
  In (JS.toLowerCase "/Resume") argumentless /\
  dispatch env0 CONFIG "/Resume" ["x"; "y"] = dispatch env0 CONFIG "/Resume" [].
Proof.
  assert (Hin : In (JS.toLowerCase "/Resume") argumentless)
    by (vm_compute; auto).
  split; [exact Hin |].
  exact (argumentless_commands_ignore_arguments env0 CONFIG "/Resume"
           ["x"; "y"] Hin).
Defined.

(** ** Pages *)

(** X27: the pages partition the projects.  With a positive page size,
    entry [j] of page [page] is project [(page - 1) * pageSize + j] of the
    configuration, a page never has more than [pageSize] entries, and, when
    there is a project at all, the pages that show projects are exactly the
    pages [1] to [totalPages], the count the header prints. *)
Theorem pages_partition_the_projects (cfg : Config) :
  0 < pageSize cfg ->
  (forall page j,
     (1 <= page)%Z -> j < pageSize cfg ->
     nth_error (page_slice cfg page) j
     = nth_error (projects cfg) (Z.to_nat (page - 1) * pageSize cfg + j)) /\
  (forall page, (1 <= page)%Z -> length (page_slice cfg page) <= pageSize cfg) /\
  (projects cfg <> [] ->
   forall page, (1 <= page)%Z ->
     page_slice cfg page <> [] <-> (page <= totalPages cfg)%Z).
Proof.
  intros Hps. split; [| split].
  - intros page j Hpage Hj. rewrite page_slice_eq by exact Hpage.
    rewrite nth_error_firstn, nth_error_skipn.
    destruct (Nat.ltb_spec j (pageSize cfg)); [reflexivity | lia].
  - intros page Hpage. rewrite page_slice_eq by exact Hpage.
    rewrite length_firstn. lia.
  - intros Hne page Hpage.
    assert (Hlen : 0 < length (projects cfg))
      by (destruct (projects cfg); [contradiction | simpl; lia]).
    rewrite page_slice_eq by exact Hpage.
    set (k := Z.to_nat (page - 1)).
    assert (Hk : page = (Z.of_nat k + 1)%Z) by (unfold k; lia).
    assert (Hnil : firstn (pageSize cfg) (skipn (k * pageSize cfg) (projects cfg))
                   <> [] <-> k * pageSize cfg < length (projects cfg)).
    { rewrite <- length_zero_iff_nil, length_firstn, length_skipn. lia. }
    rewrite Hnil. unfold totalPages. cbv zeta.
    set (len := length (projects cfg)) in *. set (ps := pageSize cfg) in *.
    assert (Hq : (1 <= (Z.of_nat len + Z.of_nat ps - 1) / Z.of_nat ps)%Z).
    { apply Z.div_le_lower_bound; lia. }
    rewrite Z.max_r by exact Hq. rewrite Hk. split.
    + intros Hlt. apply Z.div_le_lower_bound; [lia | nia].
    + intros Hle.
      destruct (Nat.lt_ge_cases (k * ps) len) as [Hlt|Hge]; [exact Hlt |].
      exfalso.
      assert (Hup : ((Z.of_nat len + Z.of_nat ps - 1) / Z.of_nat ps
                     < Z.of_nat k + 1)%Z).
      { apply Z.div_lt_upper_bound; [lia | nia]. }
      lia.
Qed.

Lemma pages_partition_the_projects_witness :
  0 < pageSize six_projects /\
  totalPages six_projects = 2%Z /\
  (page_slice six_projects 2 <> [] <-> (2 <= totalPages six_projects)%Z) /\
  (page_slice six_projects 3 <> [] <-> (3 <= totalPages six_projects)%Z).
Proof.
  assert (Hps : 0 < pageSize six_projects) by (simpl; lia).
  assert (Hne : projects six_projects <> []) by (vm_compute; discriminate).
  split; [exact Hps |]. split; [reflexivity |].
  destruct (pages_partition_the_projects six_projects Hps) as (_ & _ & Hp).
  split; apply (Hp Hne); lia.
Defined.

(** The name is split off at any white space and lower-cased as Unicode
    has it: a no-break space ends the name, and the Kelvin sign is a [k]. *)
Example command_name_beyond_ascii :
  let shown raw :=
    map block_html (output (exec (handleCommand env0 CONFIG raw) (new_session []))) in
  shown ("<b>" ++ [0xA0%N] ++ "x") = [["Command not found: &lt;b&gt;. Type /help."]] /\
  shown "K" = [["Command not found: K. Type /help."]] /\
  shown "/ABOUT" = shown "/about" /\
  shown "/RÉSUMÉ" = [["Command not found: /RÉSUMÉ. Type /help."]].
Proof. cbv zeta. repeat split; vm_compute; reflexivity. Qed.
